(** * Pirate runner: a shallow embedding of [src/components/pirate-game.tsx]

    The component keeps its state in React hooks.  Every handler of the
    source is embedded as a function on the pieces of state it reads and
    writes: a functional updater [setX (prev => ...)] becomes a function of
    [prev], and the values a handler reads from its closure (the state as of
    the render that created the handler) are separate arguments.

    Numbers.  The program has one numeric type.  Counters on which it only
    ever performs integer arithmetic starting from integer constants (score,
    coins, bank, levels, costs, challenge progress, the level seed, the clock
    in milliseconds) are modelled in [Z]; coordinates, speeds, weights,
    boosts and lives (which are computed from the boosts) are modelled as
    exact reals [R], with [Math.sqrt], [Math.sin], [Math.max], [Math.min],
    [Math.floor] read as [sqrt], [sin], [Rmax], [Rmin], [Zfloor].  Rounding
    of IEEE doubles is not modelled.

    Randomness.  Every [Math.random()] draw is an argument of the function
    that makes it. *)

From Stdlib Require Import Reals ZArith List String Bool Lra Lia Permutation.
From Stdlib Require DecimalString.
Import ListNotations.

#[local] Open Scope R_scope.

(** ** Data model *)

Inductive ObstacleType : Type :=
  | Crab | Barrel | Gap | Parrot | MoonwalkCrab | TreasureChest.

(** The property key under which a type appears in a weights object. *)
Definition obstacleKey (t : ObstacleType) : string :=
  match t with
  | Crab => "crab"
  | Barrel => "barrel"
  | Gap => "gap"
  | Parrot => "parrot"
  | MoonwalkCrab => "moonwalk-crab"
  | TreasureChest => "treasure-chest"
  end%string.

Definition ObstacleType_eqb (a b : ObstacleType) : bool :=
  match a, b with
  | Crab, Crab | Barrel, Barrel | Gap, Gap | Parrot, Parrot
  | MoonwalkCrab, MoonwalkCrab | TreasureChest, TreasureChest => true
  | _, _ => false
  end.

(** A weights object: its own properties in insertion order, which is the
    order [Object.entries] and [Object.keys] enumerate them in. *)
Definition Weights : Type := list (ObstacleType * R).

(** ** Weighted obstacle selection ([generateObstacle], lines 615-625) *)

(** The [for ... of Object.entries(weights)] loop.  [cumulativeWeight] and
    [selectedType] are the two loop-carried variables; [break] ends the scan. *)
Fixpoint scanWeights (entries : Weights) (rand cumulativeWeight : R)
    (selectedType : ObstacleType) : ObstacleType :=
  match entries with
  | [] => selectedType
  | (type, weight) :: rest =>
      let cumulativeWeight := cumulativeWeight + weight in
      if Rle_dec rand cumulativeWeight then type
      else scanWeights rest rand cumulativeWeight selectedType
  end.

(** [let cumulativeWeight = 0; let selectedType = "crab"; for ...]. *)
Definition selectObstacleType (weights : Weights) (rand : R) : ObstacleType :=
  scanWeights weights rand 0 Crab.

(** Sum of the weights of a list of entries. *)
Definition totalWeight (entries : Weights) : R :=
  fold_right (fun e acc => snd e + acc) 0 entries.

Definition lastType (entries : Weights) : ObstacleType :=
  fst (last entries (Crab, 0)).

(** ** Weights objects on the heap

    [LEVEL_PATTERNS] is a module-level array of objects, each holding a
    reference to a mutable weights object; [generateAILevelPattern] copies
    one of them and assigns to the copy's properties.  References and the
    store are explicit so that the copy and the assignments can be told
    apart from an update of the shared table. *)

Definition Ref : Type := nat.
Definition Heap : Type := list Weights.

Definition heapGet (h : Heap) (r : Ref) : option Weights := nth_error h r.

(** A new object is placed after the existing ones. *)
Definition heapAlloc (h : Heap) (w : Weights) : Ref * Heap :=
  (List.length h, (h ++ [w])%list).

Fixpoint heapSet (h : Heap) (r : Ref) (w : Weights) : Heap :=
  match h, r with
  | [], _ => []
  | _ :: t, O => w :: t
  | o :: t, S r' => o :: heapSet t r' w
  end.

(** [obj[key]] *)
Fixpoint getWeight (w : Weights) (key : ObstacleType) : option R :=
  match w with
  | [] => None
  | (k, v) :: rest => if ObstacleType_eqb k key then Some v else getWeight rest key
  end.

(** [obj[key] = v] for a key the object already has: the property keeps its
    place in the enumeration order. *)
Fixpoint setWeight (w : Weights) (key : ObstacleType) (v : R) : Weights :=
  match w with
  | [] => []
  | (k, old) :: rest =>
      if ObstacleType_eqb k key then (k, v) :: rest
      else (k, old) :: setWeight rest key v
  end.

Record LevelPattern : Type := mkLevelPattern {
  name : string;
  weights : Ref
}.

(** The six weights objects of the [LEVEL_PATTERNS] literal (lines 225-250),
    at the addresses 0..5 of the store the module starts with. *)
Definition initialHeap : Heap :=
  [ [(Crab, 0.4); (MoonwalkCrab, 0.3); (Barrel, 0.1); (Gap, 0.1); (Parrot, 0.05); (TreasureChest, 0.05)];
    [(Parrot, 0.4); (Barrel, 0.2); (Crab, 0.2); (Gap, 0.1); (MoonwalkCrab, 0.05); (TreasureChest, 0.05)];
    [(Barrel, 0.4); (Gap, 0.3); (Crab, 0.15); (Parrot, 0.1); (MoonwalkCrab, 0.03); (TreasureChest, 0.02)];
    [(TreasureChest, 0.3); (Crab, 0.25); (Barrel, 0.2); (Gap, 0.15); (Parrot, 0.05); (MoonwalkCrab, 0.05)];
    [(MoonwalkCrab, 0.4); (Crab, 0.2); (Parrot, 0.2); (Barrel, 0.1); (Gap, 0.05); (TreasureChest, 0.05)];
    [(Gap, 0.4); (Barrel, 0.3); (Crab, 0.15); (Parrot, 0.1); (MoonwalkCrab, 0.03); (TreasureChest, 0.02)] ].

Definition LEVEL_PATTERNS : list LevelPattern :=
  [ mkLevelPattern "Crab Invasion" 0%nat;
    mkLevelPattern "Parrot Paradise" 1%nat;
    mkLevelPattern "Barrel Bonanza" 2%nat;
    mkLevelPattern "Treasure Hunt" 3%nat;
    mkLevelPattern "Moonwalk Madness" 4%nat;
    mkLevelPattern "Gap Gauntlet" 5%nat ]%string.

(** ** [generateAILevelPattern] (lines 257-279) *)

(** [x % 1] on numbers: the remainder has the sign of the dividend. *)
Definition jsRem1 (x : R) : R :=
  if Rle_dec 0 x then x - IZR (Zfloor x) else x - IZR (Zceil x).

Definition string_of_Z (z : Z) : string :=
  DecimalString.NilZero.string_of_int (Z.to_int z).

(** [Math.sin(seed * 0.01 + key.length) * 0.1] *)
Definition adjustment (seed : Z) (key : ObstacleType) : R :=
  sin (IZR seed * 0.01 + INR (String.length (obstacleKey key))) * 0.1.

(** One iteration of the [forEach] body: read [modifiedWeights[key]] and
    assign the adjusted value, floored at 0.01, to the same property. *)
Definition perturbKey (seed : Z) (modifiedWeights : Ref) (h : Heap)
    (key : ObstacleType) : Heap :=
  match heapGet h modifiedWeights with
  | Some obj =>
      match getWeight obj key with
      | Some v =>
          heapSet h modifiedWeights
            (setWeight obj key (Rmax 0.01 (v + adjustment seed key)))
      | None => h
      end
  | None => h
  end.

(** [LEVEL_PATTERNS[i]] for an integer [i]; a negative index reads
    [undefined]. *)
Definition patternAt (i : Z) : option LevelPattern :=
  if (i <? 0)%Z then None else nth_error LEVEL_PATTERNS (Z.to_nat i).

(** The function proper.  [None] stands for the [TypeError] raised when
    [basePattern] is [undefined] (negative seed).  Otherwise the result is
    the returned object together with the store after the call. *)
Definition generateAILevelPattern (seed : Z) (h : Heap)
    : option (LevelPattern * Heap) :=
  let patternIndex := Z.rem seed (Z.of_nat (List.length LEVEL_PATTERNS)) in
  match patternAt patternIndex with
  | None => None
  | Some basePattern =>
      let variation := jsRem1 (IZR seed * 0.1) in
      match heapGet h (weights basePattern) with
      | None => None
      | Some baseWeights =>
          (* const modifiedWeights = { ...basePattern.weights } *)
          let '(modifiedWeights, h1) := heapAlloc h baseWeights in
          (* Object.keys(modifiedWeights).forEach(...) *)
          let keys := map fst baseWeights in
          let h2 := fold_left (perturbKey seed modifiedWeights) keys h1 in
          Some (mkLevelPattern
                  (name basePattern ++ " (Variant "
                     ++ string_of_Z (Zfloor (variation * 10)) ++ ")")%string
                  modifiedWeights,
                h2)
      end
  end.

(** The two call sites: the HUD shows [.name] (line 1780) and the spawner
    scans [.weights] (line 612); both pass
    [levelSeed + Math.floor(score / 500)]. *)
Definition patternSeed (levelSeed score : Z) : Z :=
  (levelSeed + score / 500)%Z.

Definition displayedPatternName (levelSeed score : Z) (h : Heap)
    : option (string * Heap) :=
  match generateAILevelPattern (patternSeed levelSeed score) h with
  | Some (p, h') => Some (name p, h')
  | None => None
  end.

(** ** Entities *)

(** The optional [behavior] record.  [projectiles] is only ever the empty
    array the generator puts there; [hasProjectiles] tells whether the
    property is present. *)
Record Behavior : Type := mkBehavior {
  direction : option R;
  speed : option R;
  amplitude : option R;
  frequency : option R;
  hasProjectiles : bool
}.

Record Obstacle : Type := mkObstacle {
  ob_x : R;
  ob_y : R;
  ob_width : R;
  ob_height : R;
  ob_type : ObstacleType;
  behavior : option Behavior
}.

(** [generateObstacle] (lines 611-657).  [rand], [randX], [randY] are the
    three [Math.random()] draws in program order; the third is made only for
    a parrot.  [None] when the pattern generator throws. *)
Definition generateObstacle (levelSeed score : Z) (canvasWidth : R)
    (rand randX randY : R) (h : Heap) : option (Obstacle * Heap) :=
  match generateAILevelPattern (patternSeed levelSeed score) h with
  | None => None
  | Some (currentPattern, h') =>
      match heapGet h' (weights currentPattern) with
      | None => None
      | Some entries =>
          let selectedType := selectObstacleType entries rand in
          let baseObstacle :=
            mkObstacle
              (canvasWidth + randX * 200)
              (match selectedType with
               | Gap => 332
               | Parrot => 200 + randY * 50
               | _ => 300
               end)
              (match selectedType with Gap => 60 | TreasureChest => 40 | _ => 32 end)
              (match selectedType with Gap => 68 | TreasureChest => 28 | _ => 32 end)
              selectedType in
          Some (match selectedType with
                | MoonwalkCrab =>
                    baseObstacle (Some (mkBehavior (Some (-1)) (Some 1) None None false))
                | Parrot =>
                    baseObstacle (Some (mkBehavior None None (Some 30) (Some 0.05) true))
                | _ => baseObstacle None
                end, h')
      end
  end.

Record Player : Type := mkPlayer {
  pl_x : R;
  pl_y : R;
  pl_width : R;
  pl_height : R;
  velocityY : R;
  isJumping : bool;
  isSliding : bool;
  groundY : R
}.

Record Projectile : Type := mkProjectile {
  pj_x : R;
  pj_y : R;
  pj_velocityX : R;
  pj_velocityY : R;
  pj_width : R;
  pj_height : R
}.

Record Coin : Type := mkCoin {
  co_x : R;
  co_y : R;
  co_width : R;
  co_height : R;
  co_collected : bool
}.

Inductive PowerUpType : Type := SpeedBoost | CoinMagnet | ExtraLife.

Record PowerUp : Type := mkPowerUp {
  pu_x : R;
  pu_y : R;
  pu_width : R;
  pu_height : R;
  pu_type : PowerUpType;
  pu_collected : bool
}.

(** [checkCollision] takes [any] and reads [x], [y], [width], [height]:
    the structural interface every entity implements. *)
Class Rect (A : Type) : Type := {
  x : A -> R;
  y : A -> R;
  width : A -> R;
  height : A -> R
}.

#[global] Instance Player_Rect : Rect Player :=
  {| x := pl_x; y := pl_y; width := pl_width; height := pl_height |}.
#[global] Instance Obstacle_Rect : Rect Obstacle :=
  {| x := ob_x; y := ob_y; width := ob_width; height := ob_height |}.
#[global] Instance Projectile_Rect : Rect Projectile :=
  {| x := pj_x; y := pj_y; width := pj_width; height := pj_height |}.
#[global] Instance Coin_Rect : Rect Coin :=
  {| x := co_x; y := co_y; width := co_width; height := co_height |}.
#[global] Instance PowerUp_Rect : Rect PowerUp :=
  {| x := pu_x; y := pu_y; width := pu_width; height := pu_height |}.

(** Comparisons of numbers as booleans. *)
Definition Rltb (a b : R) : bool := if Rlt_dec a b then true else false.
Definition Rleb (a b : R) : bool := if Rle_dec a b then true else false.

(** [checkCollision] (lines 687-694) *)
Definition checkCollision {A B : Type} `{Rect A} `{Rect B}
    (rect1 : A) (rect2 : B) : bool :=
  Rltb (x rect1) (x rect2 + width rect2) &&
  Rltb (x rect2) (x rect1 + width rect1) &&
  Rltb (y rect1) (y rect2 + height rect2) &&
  Rltb (y rect2) (y rect1 + height rect1).

(** ** Constants (lines 148-152) *)

Definition CANVAS_WIDTH : R := 800.
Definition CANVAS_HEIGHT : R := 400.
Definition GRAVITY : R := 0.8.
Definition JUMP_FORCE : R := -15.
Definition GAME_SPEED : R := 4.

(** [getMobileSpeed]; whether the device is mobile is an input. *)
Definition getMobileSpeed (mobile : bool) : R :=
  if mobile then GAME_SPEED * 0.7 else GAME_SPEED.

(** ** Session state *)

Record ShipBoosts : Type := mkShipBoosts {
  speedMultiplier : R;
  extraLives : R;
  coinMagnetRange : R;
  startingLives : R
}.

Record GameState : Type := mkGameState {
  isPlaying : bool;
  isPaused : bool;
  score : Z;
  coins : Z;
  lives : R;
  gameSpeed : R;
  shipBoosts : ShipBoosts;
  currentCatchphrase : string;
  levelSeed : Z
}.

(** ** Controls (lines 541-569)

    [player] and [gameState] are the values the callback closed over; [prev]
    is the state the functional updater receives. *)

Definition jump (gameState : GameState) (player prev : Player) : Player :=
  if negb (isJumping player) && isPlaying gameState then
    mkPlayer (pl_x prev) (pl_y prev) (pl_width prev) (pl_height prev)
             JUMP_FORCE true (isSliding prev) (groundY prev)
  else prev.

Definition slide (gameState : GameState) (player prev : Player) : Player :=
  if isPlaying gameState && negb (isSliding player) then
    mkPlayer (pl_x prev) (groundY prev + 16) (pl_width prev) 16
             (velocityY prev) (isJumping prev) true (groundY prev)
  else prev.

(** The callback [slide] schedules with [setTimeout(..., 500)]. *)
Definition slideRevert (prev : Player) : Player :=
  mkPlayer (pl_x prev) (groundY prev) (pl_width prev) 32
           (velocityY prev) (isJumping prev) false (groundY prev).

(** Player physics of one frame (lines 1328-1345). *)
Definition physicsStep (prev : Player) : Player :=
  let newY := pl_y prev + velocityY prev in
  let newVelocityY := velocityY prev + GRAVITY in
  if Rleb (groundY prev) newY then
    mkPlayer (pl_x prev) (groundY prev) (pl_width prev) (pl_height prev)
             0 false (isSliding prev) (groundY prev)
  else
    mkPlayer (pl_x prev) newY (pl_width prev) (pl_height prev)
             newVelocityY (isJumping prev) (isSliding prev) (groundY prev).

(** ** Coin magnet (lines 696-718) and the coin store update (1476-1494) *)

Definition checkCoinMagnet (player : Player) (gameState : GameState)
    (coin : Coin) : R * R :=
  let magnetRange := 50 + coinMagnetRange (shipBoosts gameState) in
  let distance :=
    sqrt ((x player + width player / 2 - (x coin + width coin / 2)) ^ 2 +
          (y player + height player / 2 - (y coin + height coin / 2)) ^ 2) in
  if Rltb distance magnetRange && Rltb 20 distance then
    let pullStrength := 0.3 in
    let dx := x player + width player / 2 - (x coin + width coin / 2) in
    let dy := y player + height player / 2 - (y coin + height coin / 2) in
    (x coin + dx * pullStrength * 0.1, y coin + dy * pullStrength * 0.1)
  else (x coin, y coin).

(** The [map] callback of the coin update: magnet, then scroll. *)
Definition moveCoin (player : Player) (gameState : GameState) (coin : Coin)
    : Coin :=
  let magnetPos := checkCoinMagnet player gameState coin in
  mkCoin (fst magnetPos - gameSpeed gameState) (snd magnetPos)
         (co_width coin) (co_height coin) (co_collected coin).

(** [generateCoin] (lines 660-669), with its two draws. *)
Definition generateCoin (canvasWidth randX randY : R) : Coin :=
  mkCoin (canvasWidth + randX * 300) (200 + randY * 100) 16 16 false.

(** The updater passed to [setCoins] at line 1476.  [randSpawn] is the draw
    compared with 0.02. *)
Definition updateCoins (player : Player) (gameState : GameState)
    (canvasWidth randSpawn randX randY : R) (prev : list Coin) : list Coin :=
  let updated :=
    filter (fun coin => Rltb (- width coin) (x coin) && negb (co_collected coin))
           (map (moveCoin player gameState) prev) in
  if Rltb randSpawn 0.02 then (updated ++ [generateCoin canvasWidth randX randY])%list
  else updated.

(** ** Persistent profile *)

Inductive EffectType : Type :=
  | EffSpeed | EffLives | EffCoinMagnet | EffStartingLives.

Record Effect : Type := mkEffect {
  eff_type : EffectType;
  eff_value : R
}.

Record ShipUpgrade : Type := mkShipUpgrade {
  su_id : string;
  su_name : string;
  su_description : string;
  su_cost : Z;
  maxLevel : Z;
  currentLevel : Z;
  effect : Effect
}.

Inductive ChallengeType : Type :=
  | ChCoins | ChScore | ChSurvival | ChEnemies.

Definition ChallengeType_eqb (a b : ChallengeType) : bool :=
  match a, b with
  | ChCoins, ChCoins | ChScore, ChScore
  | ChSurvival, ChSurvival | ChEnemies, ChEnemies => true
  | _, _ => false
  end.

Record DailyChallenge : Type := mkDailyChallenge {
  dc_id : string;
  dc_name : string;
  dc_description : string;
  target : Z;
  progress : Z;
  reward : Z;
  completed : bool;
  dc_type : ChallengeType
}.

Record OutfitParts : Type := mkOutfitParts {
  hat : option string;
  beard : option string;
  shirt : option string;
  accessory : option string
}.

Record PirateOutfit : Type := mkPirateOutfit {
  po_id : string;
  po_name : string;
  po_description : string;
  po_cost : Z;
  unlocked : bool;
  parts : OutfitParts
}.

Record PlayerProgress : Type := mkPlayerProgress {
  totalCoins : Z;
  shipUpgrades : list ShipUpgrade;
  gamesPlayed : Z;
  bestScore : Z;
  dailyChallenges : list DailyChallenge;
  lastChallengeReset : string;
  pirateOutfits : list PirateOutfit;
  selectedOutfit : string;
  totalEnemiesDefeated : Z;
  totalSurvivalTime : Z
}.

(** *** [generateDailyChallenges] (lines 281-332) *)

Record ChallengeTemplate : Type := mkChallengeTemplate {
  ct_id : string;
  ct_name : string;
  ct_description : string;
  ct_target : Z;
  ct_type : ChallengeType;
  ct_reward : Z
}.

Definition challenges : list ChallengeTemplate :=
  [ mkChallengeTemplate "coins-50" "Treasure Hunter" "Collect 50 coins in one run" 50 ChCoins 25;
    mkChallengeTemplate "score-1000" "Distance Runner" "Reach a score of 1000" 1000 ChScore 50;
    mkChallengeTemplate "survival-120" "Sea Survivor" "Survive for 2 minutes" 120 ChSurvival 40;
    mkChallengeTemplate "enemies-10" "Enemy Slayer" "Defeat 10 enemies" 10 ChEnemies 30;
    mkChallengeTemplate "coins-100" "Gold Rush" "Collect 100 coins total" 100 ChCoins 75 ]%string%Z.

(** [shuffled] is the array as [challenges.sort(() => 0.5 - Math.random())]
    leaves it: some rearrangement of [challenges], chosen by the draws. *)
Definition generateDailyChallenges (shuffled : list ChallengeTemplate)
    : list DailyChallenge :=
  map (fun challenge =>
         mkDailyChallenge (ct_id challenge) (ct_name challenge)
           (ct_description challenge) (ct_target challenge) 0%Z
           (ct_reward challenge) false (ct_type challenge))
      (firstn 3 shuffled).

(** *** [generatePirateOutfits] (lines 334-369) *)

Definition generatePirateOutfits : list PirateOutfit :=
  [ mkPirateOutfit "default" "Classic Pirate" "The traditional pirate look" 0 true
      (mkOutfitParts (Some "black") (Some "brown") (Some "red") (Some "sword"));
    mkPirateOutfit "fancy" "Fancy Captain" "For the distinguished pirate" 100 false
      (mkOutfitParts (Some "feathered") (Some "white") (Some "blue") (Some "telescope"));
    mkPirateOutfit "ghost" "Ghost Pirate" "Spooky and mysterious" 200 false
      (mkOutfitParts (Some "tattered") (Some "wispy") (Some "ghostly") (Some "lantern"));
    mkPirateOutfit "royal" "Pirate King" "Rule the seven seas in style" 500 false
      (mkOutfitParts (Some "crown") (Some "golden") (Some "royal") (Some "scepter")) ]%string%Z.

(** *** The initial profile (lines 375-446) *)

Definition defaultShipUpgrades : list ShipUpgrade :=
  [ mkShipUpgrade "hull" "Reinforced Hull" "Start with extra lives" 50 3 0
      (mkEffect EffStartingLives 1);
    mkShipUpgrade "sails" "Swift Sails" "Increase movement speed" 75 3 0
      (mkEffect EffSpeed 0.2);
    mkShipUpgrade "compass" "Magnetic Compass" "Attract coins from further away" 100 3 0
      (mkEffect EffCoinMagnet 20);
    mkShipUpgrade "crew" "Lucky Crew" "Extra life during gameplay" 150 2 0
      (mkEffect EffLives 1) ]%string%Z.

(** What [JSON.parse] yields for a saved profile.  The fields introduced by
    later versions may be missing from an older save. *)
Record StoredProgress : Type := mkStoredProgress {
  st_totalCoins : Z;
  st_shipUpgrades : list ShipUpgrade;
  st_gamesPlayed : Z;
  st_bestScore : Z;
  st_dailyChallenges : list DailyChallenge;
  st_lastChallengeReset : string;
  st_outfits : option (list PirateOutfit * string);
  st_totalEnemiesDefeated : option Z;
  st_totalSurvivalTime : option Z
}.

(** [JSON.stringify(playerProgress)] followed by [JSON.parse]. *)
Definition storeProgress (p : PlayerProgress) : StoredProgress :=
  mkStoredProgress (totalCoins p) (shipUpgrades p) (gamesPlayed p)
    (bestScore p) (dailyChallenges p) (lastChallengeReset p)
    (Some (pirateOutfits p, selectedOutfit p))
    (Some (totalEnemiesDefeated p)) (Some (totalSurvivalTime p)).

(** [!v] then [v = 0] for an optional number: missing and 0 both give 0. *)
Definition orZero (v : option Z) : Z :=
  match v with Some n => n | None => 0%Z end.

(** The [useState] initialiser of [playerProgress].  [saved] is the content
    of local storage, [today] is [new Date().toDateString()], [shuffled] the
    shuffle used if challenges are generated. *)
Definition initialPlayerProgress (saved : option StoredProgress)
    (today : string) (shuffled : list ChallengeTemplate) : PlayerProgress :=
  match saved with
  | Some progress =>
      let reset := negb (String.eqb (st_lastChallengeReset progress) today) in
      let outfits :=
        match st_outfits progress with
        | Some o => o
        | None => (generatePirateOutfits, "default"%string)
        end in
      mkPlayerProgress
        (st_totalCoins progress) (st_shipUpgrades progress)
        (st_gamesPlayed progress) (st_bestScore progress)
        (if reset then generateDailyChallenges shuffled
         else st_dailyChallenges progress)
        (if reset then today else st_lastChallengeReset progress)
        (fst outfits) (snd outfits)
        (orZero (st_totalEnemiesDefeated progress))
        (orZero (st_totalSurvivalTime progress))
  | None =>
      mkPlayerProgress 0 defaultShipUpgrades 0 0
        (generateDailyChallenges shuffled) today
        generatePirateOutfits "default" 0 0
  end.

(** *** [calculateShipBoosts] (lines 469-498) *)

Definition calculateShipBoosts (upgrades : list ShipUpgrade) : ShipBoosts :=
  fold_left
    (fun boosts upgrade =>
       let effectValue := IZR (currentLevel upgrade) * eff_value (effect upgrade) in
       match eff_type (effect upgrade) with
       | EffSpeed =>
           mkShipBoosts (speedMultiplier boosts + effectValue) (extraLives boosts)
             (coinMagnetRange boosts) (startingLives boosts)
       | EffLives =>
           mkShipBoosts (speedMultiplier boosts) (extraLives boosts + effectValue)
             (coinMagnetRange boosts) (startingLives boosts)
       | EffCoinMagnet =>
           mkShipBoosts (speedMultiplier boosts) (extraLives boosts)
             (coinMagnetRange boosts + effectValue) (startingLives boosts)
       | EffStartingLives =>
           mkShipBoosts (speedMultiplier boosts) (extraLives boosts)
             (coinMagnetRange boosts) (startingLives boosts + effectValue)
       end)
    upgrades
    (mkShipBoosts 1 0 0 0).

(** *** Purchases and challenge progress (lines 752-808) *)

Definition purchaseUpgrade (upgradeId : string) (prev : PlayerProgress)
    : PlayerProgress :=
  match find (fun u => String.eqb (su_id u) upgradeId) (shipUpgrades prev) with
  | None => prev
  | Some upgrade =>
      if (maxLevel upgrade <=? currentLevel upgrade)%Z then prev
      else
        let cost := (su_cost upgrade * (currentLevel upgrade + 1))%Z in
        if (totalCoins prev <? cost)%Z then prev
        else
          let newUpgrades :=
            map (fun u =>
                   if String.eqb (su_id u) upgradeId then
                     mkShipUpgrade (su_id u) (su_name u) (su_description u)
                       (su_cost u) (maxLevel u) (currentLevel u + 1)%Z (effect u)
                   else u)
                (shipUpgrades prev) in
          mkPlayerProgress (totalCoins prev - cost)%Z newUpgrades
            (gamesPlayed prev) (bestScore prev) (dailyChallenges prev)
            (lastChallengeReset prev) (pirateOutfits prev) (selectedOutfit prev)
            (totalEnemiesDefeated prev) (totalSurvivalTime prev)
  end.

Definition updateChallengeProgress (type : ChallengeType) (amount : Z)
    (prev : PlayerProgress) : PlayerProgress :=
  mkPlayerProgress (totalCoins prev) (shipUpgrades prev)
    (gamesPlayed prev) (bestScore prev)
    (map (fun challenge =>
            if ChallengeType_eqb (dc_type challenge) type
               && negb (completed challenge) then
              let newProgress := (progress challenge + amount)%Z in
              let completed' := (target challenge <=? newProgress)%Z in
              if completed' && negb (completed challenge) then
                mkDailyChallenge (dc_id challenge) (dc_name challenge)
                  (dc_description challenge) (target challenge) newProgress
                  (reward challenge) true (dc_type challenge)
              else
                mkDailyChallenge (dc_id challenge) (dc_name challenge)
                  (dc_description challenge) (target challenge) newProgress
                  (reward challenge) (completed challenge) (dc_type challenge)
            else challenge)
         (dailyChallenges prev))
    (lastChallengeReset prev) (pirateOutfits prev) (selectedOutfit prev)
    (totalEnemiesDefeated prev) (totalSurvivalTime prev).

Definition purchaseOutfit (outfitId : string) (prev : PlayerProgress)
    : PlayerProgress :=
  match find (fun o => String.eqb (po_id o) outfitId) (pirateOutfits prev) with
  | None => prev
  | Some outfit =>
      if unlocked outfit || (totalCoins prev <? po_cost outfit)%Z then prev
      else
        mkPlayerProgress (totalCoins prev - po_cost outfit)%Z (shipUpgrades prev)
          (gamesPlayed prev) (bestScore prev) (dailyChallenges prev)
          (lastChallengeReset prev)
          (map (fun o =>
                  if String.eqb (po_id o) outfitId then
                    mkPirateOutfit (po_id o) (po_name o) (po_description o)
                      (po_cost o) true (parts o)
                  else o)
               (pirateOutfits prev))
          (selectedOutfit prev)
          (totalEnemiesDefeated prev) (totalSurvivalTime prev)
  end.

Definition selectOutfit (outfitId : string) (prev : PlayerProgress)
    : PlayerProgress :=
  mkPlayerProgress (totalCoins prev) (shipUpgrades prev)
    (gamesPlayed prev) (bestScore prev) (dailyChallenges prev)
    (lastChallengeReset prev) (pirateOutfits prev) outfitId
    (totalEnemiesDefeated prev) (totalSurvivalTime prev).

(** ** The game loop's updates of the session state (lines 1526-1615)

    [gameLoop] queues functional updaters with [setGameState]; React applies
    them in order to the pending state.  Each updater of the source is a
    function here, and a frame contributes the list of the updaters it
    queues. *)

(** [{ ...prev, lives: Math.max(1, prev.lives - 1) }]
    (lines 1531, 1541 and 1550). *)
Definition loseLife (prev : GameState) : GameState :=
  mkGameState (isPlaying prev) (isPaused prev) (score prev) (coins prev)
    (Rmax 1 (lives prev - 1)) (gameSpeed prev) (shipBoosts prev)
    (currentCatchphrase prev) (levelSeed prev).

(** [{ ...prev, coins: prev.coins + c, score: prev.score + s }]
    (line 1535 with 5 and 50, line 1560 with 1 and 10; lines 1579, 1583 and
    1604 change the score alone). *)
Definition addCoinsScore (c s : Z) (prev : GameState) : GameState :=
  mkGameState (isPlaying prev) (isPaused prev) (score prev + s)%Z
    (coins prev + c)%Z (lives prev) (gameSpeed prev) (shipBoosts prev)
    (currentCatchphrase prev) (levelSeed prev).

(** [{ ...prevState, lives: Math.min(prevState.lives + 1, 5),
       score: prevState.score + 50 }] (line 1586). *)
Definition extraLife (prev : GameState) : GameState :=
  mkGameState (isPlaying prev) (isPaused prev) (score prev + 50)%Z
    (coins prev) (Rmin (lives prev + 1) 5) (gameSpeed prev) (shipBoosts prev)
    (currentCatchphrase prev) (levelSeed prev).

(** [{ ...prev, isPlaying: false }] (lines 1608 and 1738). *)
Definition stopPlaying (prev : GameState) : GameState :=
  mkGameState false (isPaused prev) (score prev) (coins prev) (lives prev)
    (gameSpeed prev) (shipBoosts prev) (currentCatchphrase prev)
    (levelSeed prev).

Definition isGap (t : ObstacleType) : bool := ObstacleType_eqb t Gap.
Definition isTreasureChest (t : ObstacleType) : bool :=
  ObstacleType_eqb t TreasureChest.

(** The body of [obstacles.forEach] (lines 1526-1544). *)
Definition obstacleCollision (player : Player) (obstacle : Obstacle)
    : list (GameState -> GameState) :=
  if checkCollision player obstacle then
    if isGap (ob_type obstacle)
       && Rleb (y obstacle) (y player + height player) then
      [loseLife]
    else if isTreasureChest (ob_type obstacle) then
      [addCoinsScore 5 50]
    else if negb (isGap (ob_type obstacle)) then
      [loseLife]
    else []
  else [].

(** The body of [projectiles.forEach] (lines 1547-1553). *)
Definition projectileCollision (player : Player) (projectile : Projectile)
    : list (GameState -> GameState) :=
  if checkCollision player projectile then [loseLife] else [].

(** The session update made while mapping over the coins (lines 1556-1569). *)
Definition coinCollision (player : Player) (coin : Coin)
    : list (GameState -> GameState) :=
  if negb (co_collected coin) && checkCollision player coin then
    [addCoinsScore 1 10]
  else [].

(** The session update made while mapping over the power-ups
    (lines 1571-1598). *)
Definition powerUpCollision (player : Player) (powerUp : PowerUp)
    : list (GameState -> GameState) :=
  if negb (pu_collected powerUp) && checkCollision player powerUp then
    match pu_type powerUp with
    | SpeedBoost => [addCoinsScore 0 25]
    | CoinMagnet => [addCoinsScore 0 25]
    | ExtraLife => [extraLife]
    end
  else [].

(** The life-deducting collisions of a frame: obstacles, then projectiles. *)
Definition collisionDeductions (player : Player) (obstacles : list Obstacle)
    (projectiles : list Projectile) : list (GameState -> GameState) :=
  (flat_map (obstacleCollision player) obstacles
   ++ flat_map (projectileCollision player) projectiles)%list.

(** All session updaters a frame queues.  [gameState], [player],
    [obstacles] and [projectiles] are the values of the render the callback
    closed over; [coinsPrev] and [powerUpsPrev] are the stores the pick-up
    updaters receive.  The pick-up updaters are queued from inside the
    [setCoins] and [setPowerUps] updaters, which React runs while
    rendering, after the updaters queued directly by the callback. *)
Definition gameLoopUpdaters (gameState : GameState) (player : Player)
    (obstacles : list Obstacle) (projectiles : list Projectile)
    (coinsPrev : list Coin) (powerUpsPrev : list PowerUp)
    : list (GameState -> GameState) :=
  (collisionDeductions player obstacles projectiles
   ++ [addCoinsScore 0 1]
   ++ (if Rleb (lives gameState) 1 then [stopPlaying] else [])
   ++ flat_map (coinCollision player) coinsPrev
   ++ flat_map (powerUpCollision player) powerUpsPrev)%list.

Definition applyUpdaters {S : Type} (updaters : list (S -> S)) (prev : S) : S :=
  fold_left (fun s u => u s) updaters prev.

(** Line 1269: the callback returns at once unless playing and not paused. *)
Definition gameLoopRuns (gameState : GameState) : bool :=
  isPlaying gameState && negb (isPaused gameState).

Definition gameLoop_gameState (gameState : GameState) (player : Player)
    (obstacles : list Obstacle) (projectiles : list Projectile)
    (coinsPrev : list Coin) (powerUpsPrev : list PowerUp)
    (prev : GameState) : GameState :=
  if gameLoopRuns gameState then
    applyUpdaters
      (gameLoopUpdaters gameState player obstacles projectiles
         coinsPrev powerUpsPrev) prev
  else prev.

(** The profile update of the "Check game over" block (lines 1606-1615). *)
Definition gameLoop_playerProgress (gameState : GameState)
    (prev : PlayerProgress) : PlayerProgress :=
  if gameLoopRuns gameState && Rleb (lives gameState) 1 then
    mkPlayerProgress
      (totalCoins prev + coins gameState)%Z
      (shipUpgrades prev)
      (gamesPlayed prev + 1)%Z
      (Z.max (bestScore prev) (totalCoins prev + coins gameState))%Z
      (dailyChallenges prev) (lastChallengeReset prev)
      (pirateOutfits prev) (selectedOutfit prev)
      (totalEnemiesDefeated prev) (totalSurvivalTime prev)
  else prev.

(** ** Starting and ending a run (lines 1658-1727) *)

(** The [useState] initialiser of [gameState] (lines 453-467). *)
Definition initialGameState (playerProgress : PlayerProgress) (mobile : bool)
    (seed : Z) (catchphrase : string) : GameState :=
  let shipBoosts := calculateShipBoosts (shipUpgrades playerProgress) in
  let baseSpeed := getMobileSpeed mobile in
  mkGameState false false 0 0
    (Rmax 1 (3 + startingLives shipBoosts))
    (baseSpeed * speedMultiplier shipBoosts)
    shipBoosts catchphrase seed.

(** [startGame]: the session state it sets.  [newLevelSeed] and
    [catchphrase] are what the two random choices return. *)
Definition startGame (playerProgress : PlayerProgress) (mobile : bool)
    (newLevelSeed : Z) (catchphrase : string) : GameState :=
  let shipBoosts := calculateShipBoosts (shipUpgrades playerProgress) in
  let baseSpeed := getMobileSpeed mobile in
  mkGameState true false 0 0
    (Rmax 1 (3 + startingLives shipBoosts + extraLives shipBoosts))
    (baseSpeed * speedMultiplier shipBoosts)
    shipBoosts catchphrase newLevelSeed.

(** [startGame]: the player it sets. *)
Definition startPlayer : Player := mkPlayer 100 300 32 32 0 false false 300.

(** [completedChallenges] of [handleGameOver] (lines 1709-1715). *)
Definition completedChallenges (gameState : GameState)
    (playerProgress : PlayerProgress) : list DailyChallenge :=
  filter
    (fun c =>
       negb (completed c) &&
       ((ChallengeType_eqb (dc_type c) ChScore
           && (target c <=? score gameState)%Z)
        || (ChallengeType_eqb (dc_type c) ChCoins
              && (target c <=? coins gameState)%Z)
        || (ChallengeType_eqb (dc_type c) ChSurvival
              && (target c <=? score gameState / 10)%Z)))
    (dailyChallenges playerProgress).

Definition challengeRewards (gameState : GameState)
    (playerProgress : PlayerProgress) : Z :=
  fold_left (fun total challenge => (total + reward challenge)%Z)
    (completedChallenges gameState playerProgress) 0%Z.

(** [handleGameOver] on the profile.  [gameState] and [playerProgress] are
    the closure's values; [prev] is the profile the queued updaters are
    applied to. *)
Definition handleGameOver (gameState : GameState)
    (playerProgress : PlayerProgress) (prev : PlayerProgress)
    : PlayerProgress :=
  let p1 := updateChallengeProgress ChScore (score gameState) prev in
  let p2 := updateChallengeProgress ChCoins (coins gameState) p1 in
  let p3 := updateChallengeProgress ChSurvival (score gameState / 10)%Z p2 in
  mkPlayerProgress
    (totalCoins p3 + coins gameState
       + challengeRewards gameState playerProgress)%Z
    (shipUpgrades p3)
    (gamesPlayed p3 + 1)%Z
    (Z.max (bestScore p3) (score gameState))
    (dailyChallenges p3) (lastChallengeReset p3)
    (pirateOutfits p3) (selectedOutfit p3)
    (totalEnemiesDefeated p3)
    (totalSurvivalTime p3 + score gameState / 10)%Z.

(** [handleGameOver] on the session: the new catchphrase. *)
Definition setCatchphrase (newCatchphrase : string) (prev : GameState)
    : GameState :=
  mkGameState (isPlaying prev) (isPaused prev) (score prev) (coins prev)
    (lives prev) (gameSpeed prev) (shipBoosts prev) newCatchphrase
    (levelSeed prev).

(** [pauseGame] (line 1754). *)
Definition pauseGame (prev : GameState) : GameState :=
  mkGameState (isPlaying prev) (negb (isPaused prev)) (score prev) (coins prev)
    (lives prev) (gameSpeed prev) (shipBoosts prev) (currentCatchphrase prev)
    (levelSeed prev).

(** ** The component as an event-driven machine

    Time is the wall clock in milliseconds.  Between events nothing
    changes; an event is an animation frame, the expiry of the game-over
    timer, or a user action.  After every event the game-over effect
    (lines 1729-1752) runs on the committed state. *)

(** A pending [setTimeout] of the game-over effect.  Its callback calls the
    [handleGameOver] of the render that armed it, which closed over that
    render's [gameState] and [playerProgress]. *)
Record Timer : Type := mkTimer {
  deadline : Z;
  closureGameState : GameState;
  closureProgress : PlayerProgress
}.

Record World : Type := mkWorld {
  now : Z;
  w_gameState : GameState;
  w_playerProgress : PlayerProgress;
  w_gameOverTimer : option Timer
}.

(** The effect body: while [lives <= 1 && isPlaying] any existing timer is
    cleared and a new one is armed 2000 ms ahead.  Otherwise the body does
    nothing; the cleanup clears only the timer of the previous render, which
    the body has already cleared or which has fired. *)
Definition graceTimerEffect (w : World) : World :=
  if Rleb (lives (w_gameState w)) 1 && isPlaying (w_gameState w) then
    mkWorld (now w) (w_gameState w) (w_playerProgress w)
      (Some (mkTimer (now w + 2000)%Z (w_gameState w) (w_playerProgress w)))
  else w.

(** The timer callback (lines 1737-1741). *)
Definition timerCallback (t : Timer) (newCatchphrase : string) (w : World)
    : World :=
  mkWorld (deadline t)
    (setCatchphrase newCatchphrase (stopPlaying (w_gameState w)))
    (handleGameOver (closureGameState t) (closureProgress t)
       (w_playerProgress w))
    None.

Inductive Event : Type :=
  | AnimationFrame (dt : Z) (player : Player) (obstacles : list Obstacle)
      (projectiles : list Projectile) (coinsPrev : list Coin)
      (powerUpsPrev : list PowerUp)
  | TimerExpires (newCatchphrase : string)
  | StartGame (dt : Z) (mobile : bool) (newLevelSeed : Z) (catchphrase : string)
  | PauseGame (dt : Z)
  | PurchaseUpgrade (dt : Z) (upgradeId : string)
  | PurchaseOutfit (dt : Z) (outfitId : string)
  | SelectOutfit (dt : Z) (outfitId : string)
  | Reload (dt : Z) (today : string) (shuffled : list ChallengeTemplate)
      (mobile : bool) (seed : Z) (catchphrase : string).

(** The clock advances by [dt]; an event cannot overtake a pending timer,
    whose expiry is an event of its own. *)
Definition elapse (dt : Z) (w : World) : option World :=
  if (dt <? 0)%Z then None
  else
    match w_gameOverTimer w with
    | Some t =>
        if (deadline t <=? now w + dt)%Z then None
        else Some (mkWorld (now w + dt)%Z (w_gameState w)
                     (w_playerProgress w) (w_gameOverTimer w))
    | None =>
        Some (mkWorld (now w + dt)%Z (w_gameState w)
                (w_playerProgress w) (w_gameOverTimer w))
    end.

(** The handler of an event, on a world whose clock is at the event. *)
Definition handle (e : Event) (w : World) : option World :=
  match e with
  | AnimationFrame _ player obstacles projectiles coinsPrev powerUpsPrev =>
      Some (mkWorld (now w)
              (gameLoop_gameState (w_gameState w) player obstacles
                 projectiles coinsPrev powerUpsPrev (w_gameState w))
              (gameLoop_playerProgress (w_gameState w) (w_playerProgress w))
              (w_gameOverTimer w))
  | TimerExpires newCatchphrase =>
      match w_gameOverTimer w with
      | Some t => Some (timerCallback t newCatchphrase w)
      | None => None
      end
  | StartGame _ mobile newLevelSeed catchphrase =>
      (* the start controls are offered only while not playing; a pending
         timer is cleared (lines 1693-1696) *)
      if isPlaying (w_gameState w) then None
      else Some (mkWorld (now w)
                   (startGame (w_playerProgress w) mobile newLevelSeed catchphrase)
                   (w_playerProgress w) None)
  | PauseGame _ =>
      if isPlaying (w_gameState w) then
        Some (mkWorld (now w) (pauseGame (w_gameState w))
                (w_playerProgress w) (w_gameOverTimer w))
      else None
  | PurchaseUpgrade _ upgradeId =>
      Some (mkWorld (now w) (w_gameState w)
              (purchaseUpgrade upgradeId (w_playerProgress w))
              (w_gameOverTimer w))
  | PurchaseOutfit _ outfitId =>
      Some (mkWorld (now w) (w_gameState w)
              (purchaseOutfit outfitId (w_playerProgress w))
              (w_gameOverTimer w))
  | SelectOutfit _ outfitId =>
      Some (mkWorld (now w) (w_gameState w)
              (selectOutfit outfitId (w_playerProgress w))
              (w_gameOverTimer w))
  | Reload _ today shuffled mobile seed catchphrase =>
      (* the page is loaded again: state is rebuilt from local storage and
         the timers of the old page are gone *)
      let progress :=
        initialPlayerProgress (Some (storeProgress (w_playerProgress w)))
          today shuffled in
      Some (mkWorld (now w) (initialGameState progress mobile seed catchphrase)
              progress None)
  end.

Definition eventDelay (e : Event) : option Z :=
  match e with
  | AnimationFrame dt _ _ _ _ _ | StartGame dt _ _ _ | PauseGame dt
  | PurchaseUpgrade dt _ | PurchaseOutfit dt _ | SelectOutfit dt _
  | Reload dt _ _ _ _ _ => Some dt
  | TimerExpires _ => None
  end.

Definition step (w : World) (e : Event) : option World :=
  match eventDelay e with
  | Some dt =>
      match elapse dt w with
      | Some w1 =>
          match handle e w1 with
          | Some w2 => Some (graceTimerEffect w2)
          | None => None
          end
      | None => None
      end
  | None =>
      match handle e w with
      | Some w2 => Some (graceTimerEffect w2)
      | None => None
      end
  end.

Fixpoint run (w : World) (es : list Event) : option World :=
  match es with
  | [] => Some w
  | e :: rest =>
      match step w e with
      | Some w' => run w' rest
      | None => None
      end
  end.

(** The world of a first visit: nothing in local storage. *)
Definition freshWorld (today : string) (shuffled : list ChallengeTemplate)
    (mobile : bool) (seed : Z) (catchphrase : string) : World :=
  let progress := initialPlayerProgress None today shuffled in
  mkWorld 0 (initialGameState progress mobile seed catchphrase) progress None.

Inductive Reachable : World -> Prop :=
  | Reachable_fresh today shuffled mobile seed catchphrase :
      Reachable (freshWorld today shuffled mobile seed catchphrase)
  | Reachable_step w e w' :
      Reachable w -> step w e = Some w' -> Reachable w'.

(** ** Vocabulary of the statements *)

(** The sum of the first [k] weights in enumeration order. *)
Definition cumulative (entries : Weights) (k : nat) : R :=
  totalWeight (firstn k entries).

(** A distribution whose weights have drifted below a total of 1, in the
    enumeration order of "Gap Gauntlet". *)
Definition driftedWeights : Weights :=
  [(Gap, 0.35); (Barrel, 0.25); (Crab, 0.1); (Parrot, 0.05);
   (MoonwalkCrab, 0.01); (TreasureChest, 0.01)].

(** The store holds the objects of the [LEVEL_PATTERNS] literal, as the
    module created them, followed by whatever was allocated since. *)
Definition heapExtends (base h : Heap) : Prop :=
  exists later, h = (base ++ later)%list.

(** What the [forEach] of [generateAILevelPattern] does to the copy, told
    without the store: each key in turn is read and reassigned. *)
Definition perturbObject (seed : Z) (obj : Weights) (key : ObstacleType)
    : Weights :=
  match getWeight obj key with
  | Some v => setWeight obj key (Rmax 0.01 (v + adjustment seed key))
  | None => obj
  end.

Definition perturbed (seed : Z) (baseWeights : Weights) : Weights :=
  fold_left (perturbObject seed) (map fst baseWeights) baseWeights.

(** The vector from the coin's centre to the player's centre, its length,
    and the magnet range of a session. *)
Definition centerDx (player : Player) (coin : Coin) : R :=
  x player + width player / 2 - (x coin + width coin / 2).

Definition centerDy (player : Player) (coin : Coin) : R :=
  y player + height player / 2 - (y coin + height coin / 2).

Definition centerDistance (player : Player) (coin : Coin) : R :=
  sqrt (centerDx player coin ^ 2 + centerDy player coin ^ 2).

Definition magnetRange (gameState : GameState) : R :=
  50 + coinMagnetRange (shipBoosts gameState).

(** A session without upgrades and a coin whose centre is 30 to the right
    of the centre of the player at its starting place. *)
Definition plainSession : GameState :=
  mkGameState true false 0 0 3 4 (mkShipBoosts 1 0 0 0) "" 0.

Definition nearbyCoin : Coin := mkCoin 138 308 16 16 false.

(** An updater that keeps the lives at or above the floor of 1. *)
Definition keepsFloor (u : GameState -> GameState) : Prop :=
  forall s, 1 <= lives s -> 1 <= lives (u s).

(** A collision of the pass that costs a life: the player touches a water
    gap it has fallen to, or an obstacle that is neither gap nor chest. *)
Definition lifeDeducting (player : Player) (obstacle : Obstacle) : bool :=
  checkCollision player obstacle
  && ((isGap (ob_type obstacle)
       && Rleb (y obstacle) (y player + height player))
      || (negb (isGap (ob_type obstacle))
          && negb (isTreasureChest (ob_type obstacle)))).

(** The number of life-deducting collisions of a pass: obstacles, then
    projectiles. *)
Definition deductions (player : Player) (obstacles : list Obstacle)
    (projectiles : list Projectile) : nat :=
  (List.length (filter (lifeDeducting player) obstacles)
   + List.length (filter (fun projectile => checkCollision player projectile)
                    projectiles))%nat.

(** A crab standing where the player starts. *)
Definition crabAtPlayer : Obstacle := mkObstacle 110 300 32 32 Crab None.

(** A player in mid-jump: above the ground and still rising. *)
Definition airbornePlayer : Player := mkPlayer 100 180 32 32 (-5) true false 300.

(** The four upgrades of the initial profile at given levels. *)
Definition upgradesAtLevels (hull sails compass crew : Z) : list ShipUpgrade :=
  [ mkShipUpgrade "hull" "Reinforced Hull" "Start with extra lives" 50 3 hull
      (mkEffect EffStartingLives 1);
    mkShipUpgrade "sails" "Swift Sails" "Increase movement speed" 75 3 sails
      (mkEffect EffSpeed 0.2);
    mkShipUpgrade "compass" "Magnetic Compass" "Attract coins from further away" 100 3 compass
      (mkEffect EffCoinMagnet 20);
    mkShipUpgrade "crew" "Lucky Crew" "Extra life during gameplay" 150 2 crew
      (mkEffect EffLives 1) ]%string%Z.

(** Every upgrade bought up to its maximum level. *)
Definition maxedShipUpgrades : list ShipUpgrade := upgradesAtLevels 3 3 3 2.

(** A profile with a bank and upgrades as given, otherwise as on a first
    visit without challenges. *)
Definition profileWith (bank : Z) (upgrades : list ShipUpgrade) : PlayerProgress :=
  mkPlayerProgress bank upgrades 0 0 [] "" generatePirateOutfits "default" 0 0.

(** The upgrade one level up. *)
Definition levelUp (u : ShipUpgrade) : ShipUpgrade :=
  mkShipUpgrade (su_id u) (su_name u) (su_description u) (su_cost u)
    (maxLevel u) (currentLevel u + 1)%Z (effect u).

Definition upgradesWithinMax (upgrades : list ShipUpgrade) : Prop :=
  Forall (fun u => (currentLevel u <= maxLevel u)%Z) upgrades.

Definition hullUpgrade : ShipUpgrade :=
  mkShipUpgrade "hull" "Reinforced Hull" "Start with extra lives" 50 3 0
    (mkEffect EffStartingLives 1).

(** No enemies-type challenge of the profile has advanced, and no enemy
    has been counted. *)
Definition enemiesUntouched (p : PlayerProgress) : Prop :=
  Forall (fun c => dc_type c = ChEnemies ->
                   progress c = 0%Z /\ completed c = false)
         (dailyChallenges p)
  /\ totalEnemiesDefeated p = 0%Z.

(** A first visit on which the shuffle puts "Defeat 10 enemies" first. *)
Definition enemiesFirst : list ChallengeTemplate :=
  [ mkChallengeTemplate "enemies-10" "Enemy Slayer" "Defeat 10 enemies" 10 ChEnemies 30;
    mkChallengeTemplate "coins-50" "Treasure Hunter" "Collect 50 coins in one run" 50 ChCoins 25;
    mkChallengeTemplate "score-1000" "Distance Runner" "Reach a score of 1000" 1000 ChScore 50;
    mkChallengeTemplate "survival-120" "Sea Survivor" "Survive for 2 minutes" 120 ChSurvival 40;
    mkChallengeTemplate "coins-100" "Gold Rush" "Collect 100 coins total" 100 ChCoins 75 ]%string%Z.

(** One of the updaters the game loop queues. *)
Definition isSessionUpdater (u : GameState -> GameState) : Prop :=
  u = loseLife \/ (exists c s, u = addCoinsScore c s)
  \/ u = extraLife \/ u = stopPlaying.

(** A first visit, the run started on it, and the states of that run. *)
Definition firstProfile : PlayerProgress :=
  initialPlayerProgress None "Mon Nov 02 2026" challenges.

Definition firstVisit : World :=
  freshWorld "Mon Nov 02 2026" challenges false 0 "Arrr".

Definition firstRun : GameState := startGame firstProfile false 7 "Arrr".

Definition sessionAt (playing : bool) (score coins : Z) (lives : R) : GameState :=
  mkGameState playing false score coins lives (gameSpeed firstRun)
    (shipBoosts firstRun) (currentCatchphrase firstRun) (levelSeed firstRun).

Definition coinAtPlayer : Coin := mkCoin 110 310 16 16 false.

(** The first run 32 ms in: a coin picked up and two hits by a crab have
    left one life, and the game-over timer has just been armed. *)
Definition atFloor : World :=
  mkWorld 32 (sessionAt true 12 1 1) firstProfile
    (Some (mkTimer 2032 (sessionAt true 12 1 1) firstProfile)).

(** A first visit on which "Defeat 10 enemies" is among the three
    challenges of the day, and that challenge as generated. *)
Definition enemiesVisit : World :=
  freshWorld "Mon Nov 02 2026" enemiesFirst false 0 "Arrr".

Definition enemiesChallenge : DailyChallenge :=
  mkDailyChallenge "enemies-10" "Enemy Slayer" "Defeat 10 enemies" 10 0 30
    false ChEnemies.

(** A whole run on that visit.  Ten chests under the player and a crab in
    the first frame, a crab in the second: 50 coins, a score of 502 and one
    life left 32 ms in; then the timer expires and the run ends. *)
Definition enemiesProfile : PlayerProgress :=
  initialPlayerProgress None "Mon Nov 02 2026" enemiesFirst.

Definition enemiesAtFloor : World :=
  mkWorld 32 (sessionAt true 502 50 1) enemiesProfile
    (Some (mkTimer 2032 (sessionAt true 502 50 1) enemiesProfile)).

Definition enemiesRunEnd : World :=
  timerCallback (mkTimer 2032 (sessionAt true 502 50 1) enemiesProfile)
    "Blimey" enemiesAtFloor.

(** The coin challenge of that day after the run: completed at 50 of 50. *)
Definition coinsChallengeDone : DailyChallenge :=
  mkDailyChallenge "coins-50" "Treasure Hunter" "Collect 50 coins in one run"
    50 50 25 true ChCoins.

(** ** Entity stores of the game loop (lines 1351-1514)

    The loop removes a hit chest and a hit projectile by comparing object
    identities ([obs !== obstacle]).  An object of a store is therefore a
    value together with an identity; [{ ...obstacle }] and an object literal
    make an object of a new identity.  [next] is the first identity not yet
    in use. *)

Definition Ident : Type := nat.

Record Obj (A : Type) : Type := mkObj {
  ident : Ident;
  value : A
}.

Arguments mkObj {A} _ _.
Arguments ident {A} _.
Arguments value {A} _.

(** Every identity of the store was allocated before [next]. *)
Definition allocatedBefore {A : Type} (next : Ident) (store : list (Obj A)) : Prop :=
  Forall (fun o => (ident o < next)%nat) store.

(** [prev.filter((obs) => obs !== target)] *)
Definition removeObj {A : Type} (target : Ident) (prev : list (Obj A))
    : list (Obj A) :=
  filter (fun o => negb (Nat.eqb (ident o) target)) prev.

(** The [map] callback of the obstacle update (lines 1353-1386), without the
    banana it may queue: the copy with its new position.

    Coordinates are reals, which have no NaN.  For a parrot whose
    [behavior] record lacks [frequency] or [amplitude] the source computes
    [y = NaN] and goes on with that object; such an object has no
    counterpart here, and the result is [None]: the store is then outside
    this model, it is not a failure of the source.  [generateObstacle], the
    only place that makes obstacles, gives every parrot both numbers, and
    the move keeps the record, so no store of the game holds such a parrot
    ([wellBehaved] below); the statements about the update that need a
    result assume it of the store. *)
Definition moveObstacle (gameState : GameState) (animationFrame : Z)
    (obstacle : Obstacle) : option Obstacle :=
  match ob_type obstacle with
  | MoonwalkCrab =>
      Some (mkObstacle (ob_x obstacle - gameSpeed gameState * 0.7) (ob_y obstacle)
              (ob_width obstacle) (ob_height obstacle) (ob_type obstacle)
              (behavior obstacle))
  | Parrot =>
      match behavior obstacle with
      | Some b =>
          match frequency b, amplitude b with
          | Some f, Some a =>
              Some (mkObstacle (ob_x obstacle - gameSpeed gameState)
                      (ob_y obstacle + sin (IZR animationFrame * f) * a)
                      (ob_width obstacle) (ob_height obstacle)
                      (ob_type obstacle) (behavior obstacle))
          | _, _ => None
          end
      | None =>
          Some (mkObstacle (ob_x obstacle - gameSpeed gameState) (ob_y obstacle)
                  (ob_width obstacle) (ob_height obstacle) (ob_type obstacle)
                  (behavior obstacle))
      end
  | _ =>
      Some (mkObstacle (ob_x obstacle - gameSpeed gameState) (ob_y obstacle)
              (ob_width obstacle) (ob_height obstacle) (ob_type obstacle)
              (behavior obstacle))
  end.

(** The banana a parrot queues while being moved (lines 1368-1380).  [rand]
    is the draw compared with 0.02, [randVy] the draw for the velocity. *)
Definition parrotThrows (obstacle : Obstacle) (rand randVy : R)
    : list Projectile :=
  match ob_type obstacle with
  | Parrot =>
      if Rltb rand 0.02 && Rltb (ob_x obstacle) CANVAS_WIDTH
         && Rltb 0 (ob_x obstacle) then
        [mkProjectile (ob_x obstacle) (ob_y obstacle + 16) (-3)
           (randVy * 4 - 2) 8 4]
      else []
  | _ => []
  end.

(** [prev.map(...)]: the copies, in order, with identities from [next];
    [None] when one of the obstacles is outside the model. *)
Fixpoint moveObstacles (gameState : GameState) (animationFrame : Z)
    (next : Ident) (prev : list (Obj Obstacle)) : option (list (Obj Obstacle)) :=
  match prev with
  | [] => Some []
  | o :: rest =>
      match moveObstacle gameState animationFrame (value o),
            moveObstacles gameState animationFrame (S next) rest with
      | Some o', Some rest' => Some (mkObj next o' :: rest')
      | _, _ => None
      end
  end.

(** [updated.length === 0 || updated[updated.length - 1].x < CANVAS_WIDTH - 200] *)
Definition needsObstacle (updated : list (Obj Obstacle)) : bool :=
  match rev updated with
  | [] => true
  | lastObstacle :: _ => Rltb (ob_x (value lastObstacle)) (CANVAS_WIDTH - 200)
  end.

(** The updater passed to [setObstacles] at line 1351: the new store, the
    next free identity and the store of weights objects. *)
Definition updateObstacles (gameState : GameState) (animationFrame : Z)
    (canvasWidth rand randX randY : R) (next : Ident) (h : Heap)
    (prev : list (Obj Obstacle))
    : option (list (Obj Obstacle) * Ident * Heap) :=
  match moveObstacles gameState animationFrame next prev with
  | None => None
  | Some moved =>
      let updated :=
        filter (fun o => Rltb (- ob_width (value o)) (ob_x (value o))) moved in
      let next' := (next + List.length prev)%nat in
      if needsObstacle updated then
        match generateObstacle (levelSeed gameState) (score gameState)
                canvasWidth rand randX randY h with
        | Some (obstacle, h') =>
            Some ((updated ++ [mkObj next' obstacle])%list, S next', h')
        | None => None
        end
      else Some (updated, next', h)
  end.



(** The [map] callback of the projectile update (lines 1435-1440). *)
Definition moveProjectile (projectile : Projectile) : Projectile :=
  mkProjectile (pj_x projectile + pj_velocityX projectile)
    (pj_y projectile + pj_velocityY projectile)
    (pj_velocityX projectile) (pj_velocityY projectile + 0.2)
    (pj_width projectile) (pj_height projectile).

Fixpoint allocate {A : Type} (next : Ident) (values : list A) : list (Obj A) :=
  match values with
  | [] => []
  | v :: rest => mkObj next v :: allocate (S next) rest
  end.

Definition projectileOnScreen (projectile : Projectile) : bool :=
  Rltb (- pj_width projectile) (pj_x projectile)
  && Rltb (pj_x projectile) (CANVAS_WIDTH + pj_width projectile)
  && Rltb (pj_y projectile) CANVAS_HEIGHT.

(** The updater passed to [setProjectiles] at line 1433. *)
Definition updateProjectiles (next : Ident) (prev : list (Obj Projectile))
    : list (Obj Projectile) :=
  filter (fun o => projectileOnScreen (value o))
    (allocate next (map (fun o => moveProjectile (value o)) prev)).

Definition projectileHits (player : Player) (projectiles : list (Obj Projectile))
    : list Ident :=
  map ident (filter (fun o => checkCollision player (value o)) projectiles).

(** The projectile store after a frame: the update of line 1433, the
    removals of line 1551, and then the bananas queued while the obstacle
    updater ran. *)
Definition frameProjectiles (next : Ident) (player : Player)
    (bananas : list Projectile) (projectiles : list (Obj Projectile))
    : list (Obj Projectile) :=
  (fold_left (fun store target => removeObj target store)
     (projectileHits player projectiles)
     (updateProjectiles next projectiles)
   ++ allocate (next + List.length projectiles)%nat bananas)%list.

(** [generatePowerUp] (lines 672-684): [types[Math.floor(Math.random() * 3)]]
    and the two draws for the place.  [None] when the index is outside the
    array. *)
Definition powerUpTypes : list PowerUpType := [SpeedBoost; CoinMagnet; ExtraLife].

Definition pickIndex {A : Type} (items : list A) (rand : R) : option A :=
  let i := Zfloor (rand * INR (List.length items)) in
  if (i <? 0)%Z then None else nth_error items (Z.to_nat i).

Definition generatePowerUp (canvasWidth randType randX randY : R)
    : option PowerUp :=
  match pickIndex powerUpTypes randType with
  | Some type =>
      Some (mkPowerUp (canvasWidth + randX * 400) (220 + randY * 80) 20 20
              type false)
  | None => None
  end.

(** The first updater passed to [setPowerUps] (lines 1453-1467); [spawned]
    is the power-up generated when the draw is below 0.005. *)
Definition updatePowerUps (gameState : GameState) (randSpawn : R)
    (spawned : PowerUp) (prev : list PowerUp) : list PowerUp :=
  let updated :=
    filter (fun powerUp => Rltb (- width powerUp) (x powerUp)
                           && negb (pu_collected powerUp))
      (map (fun powerUp =>
              mkPowerUp (pu_x powerUp - gameSpeed gameState) (pu_y powerUp)
                (pu_width powerUp) (pu_height powerUp) (pu_type powerUp)
                (pu_collected powerUp))
           prev) in
  if Rltb randSpawn 0.005 then (updated ++ [spawned])%list else updated.

(** The store side of the coin pick-up (lines 1556-1569). *)
Definition collectCoins (player : Player) (prev : list Coin) : list Coin :=
  map (fun coin =>
         if negb (co_collected coin) && checkCollision player coin then
           mkCoin (co_x coin) (co_y coin) (co_width coin) (co_height coin) true
         else coin)
      prev.

(** The store side of the power-up pick-up (lines 1571-1598). *)
Definition collectPowerUps (player : Player) (prev : list PowerUp)
    : list PowerUp :=
  map (fun powerUp =>
         if negb (pu_collected powerUp) && checkCollision player powerUp then
           mkPowerUp (pu_x powerUp) (pu_y powerUp) (pu_width powerUp)
             (pu_height powerUp) (pu_type powerUp) true
         else powerUp)
      prev.

(** *** Particles (lines 735-750 and 1504-1514) *)

Record Particle : Type := mkParticle {
  pa_x : R;
  pa_y : R;
  pa_velocityX : R;
  pa_velocityY : R;
  life : Z;
  maxLife : Z;
  color : string;
  size : R
}.

(** The five draws of one particle, in program order. *)
Record ParticleDraws : Type := mkParticleDraws {
  drawX : R;
  drawY : R;
  drawVelocityX : R;
  drawVelocityY : R;
  drawSize : R
}.

(** [addParticles]: [count] is the number of draws supplied. *)
Definition addParticles (px py : R) (particleColor : string)
    (draws : list ParticleDraws) (prev : list Particle) : list Particle :=
  (prev ++ map (fun d =>
                  mkParticle (px + drawX d * 20 - 10) (py + drawY d * 20 - 10)
                    ((drawVelocityX d - 0.5) * 8)
                    ((drawVelocityY d - 0.5) * 8 - 2)
                    60 60 particleColor (2 + drawSize d * 3))
               draws)%list.

(** The updater passed to [setParticles] at line 1504. *)
Definition updateParticles (prev : list Particle) : list Particle :=
  filter (fun particle => (0 <? life particle)%Z)
    (map (fun particle =>
            mkParticle (pa_x particle + pa_velocityX particle)
              (pa_y particle + pa_velocityY particle)
              (pa_velocityX particle) (pa_velocityY particle + 0.2)
              (life particle - 1)%Z (maxLife particle) (color particle)
              (size particle))
         prev).

(** ** Catchphrases (lines 207-255) *)

Definition PIRATE_CATCHPHRASES : list string :=
  [ "Arrr, me boots are soggy!";
    "Shiver me timbers, that was embarrassing!";
    "Blimey! The sea be callin' me name!";
    "Batten down the hatches, I'm all wet!";
    "Yo ho ho, what a landlubber I be!";
    "Avast! Me sea legs need more practice!";
    "Scurvy dogs got the better of me!";
    "By Blackbeard's ghost, I'll get ye next time!";
    "Pieces of eight ain't worth drownin' for!";
    "Keelhaul me sideways, that stung!";
    "Dead men tell no tales, but wet pirates do!";
    "Splice the mainbrace, I need a drink!";
    "Barnacles! Me treasure map is all soggy!";
    "Walk the plank? I already fell off it!";
    "Fifteen men on a dead man's chest... and I ain't one of 'em!" ]%string.

(** [generateAICatchphrase]; [None] stands for [undefined]. *)
Definition generateAICatchphrase (rand : R) : option string :=
  pickIndex PIRATE_CATCHPHRASES rand.

(** ** Canvas size (lines 155-205) *)

(** What the functions read from [window] and [navigator]. *)
Record Window : Type := mkWindow {
  innerWidth : R;
  innerHeight : R;
  userAgentMobile : bool
}.

(** [isMobile]; [None] is the case [typeof window === 'undefined']. *)
Definition isMobile (window : option Window) : bool :=
  match window with
  | None => false
  | Some w => Rleb (innerWidth w) 768 || userAgentMobile w
  end.

Definition getResponsiveCanvasSize (window : option Window) : R * R :=
  match window with
  | None => (CANVAS_WIDTH, CANVAS_HEIGHT)
  | Some w =>
      let mobile := isMobile window in
      let screenWidth := innerWidth w in
      let screenHeight := innerHeight w in
      if mobile then
        let padding := 16 in
        let maxWidth :=
          if Rleb screenWidth 480 then Rmin (screenWidth - padding) 280
          else if Rleb screenWidth 768 then Rmin (screenWidth - padding) 320
          else Rmin (screenWidth - padding) 400 in
        let maxHeight :=
          if Rleb screenWidth 480 then screenHeight * 0.15
          else if Rleb screenWidth 768 then screenHeight * 0.2
          else screenHeight * 0.25 in
        let aspectRatio := CANVAS_WIDTH / CANVAS_HEIGHT in
        let width := maxWidth in
        let height := width / aspectRatio in
        if Rltb maxHeight height then
          (IZR (Zfloor (maxHeight * aspectRatio)), IZR (Zfloor maxHeight))
        else (IZR (Zfloor width), IZR (Zfloor height))
      else (CANVAS_WIDTH, CANVAS_HEIGHT)
  end.

(** ** States of the player

    The player a session can show: placed by [startGame], then changed by
    the controls, the slide timer and the physics of a frame. *)
Inductive PlayerReachable : Player -> Prop :=
  | PlayerReachable_start : PlayerReachable startPlayer
  | PlayerReachable_jump gameState player prev :
      PlayerReachable prev -> PlayerReachable (jump gameState player prev)
  | PlayerReachable_slide gameState player prev :
      PlayerReachable prev -> PlayerReachable (slide gameState player prev)
  | PlayerReachable_revert prev :
      PlayerReachable prev -> PlayerReachable (slideRevert prev)
  | PlayerReachable_physics prev :
      PlayerReachable prev -> PlayerReachable (physicsStep prev).

(** An obstacle after some frames of movement. *)
Inductive MovedFrom (obstacle : Obstacle) : Obstacle -> Prop :=
  | MovedFrom_now : MovedFrom obstacle obstacle
  | MovedFrom_frame gameState animationFrame o o' :
      MovedFrom obstacle o ->
      moveObstacle gameState animationFrame o = Some o' ->
      MovedFrom obstacle o'.

(** States reached when every shuffle of the daily challenges returns a
    rearrangement of the five challenges of the source. *)
Definition shuffleOf (e : Event) : option (list ChallengeTemplate) :=
  match e with
  | Reload _ _ shuffled _ _ _ => Some shuffled
  | _ => None
  end.

Inductive Played : World -> Prop :=
  | Played_fresh today shuffled mobile seed catchphrase :
      Permutation challenges shuffled ->
      Played (freshWorld today shuffled mobile seed catchphrase)
  | Played_step w e w' :
      Played w ->
      (forall shuffled, shuffleOf e = Some shuffled ->
                        Permutation challenges shuffled) ->
      step w e = Some w' ->
      Played w'.

(** The boost a list of upgrades gives through effects of one type. *)
Definition boostOf (type : EffectType) (upgrades : list ShipUpgrade) : R :=
  fold_right
    (fun u acc =>
       (match type, eff_type (effect u) with
        | EffSpeed, EffSpeed | EffLives, EffLives
        | EffCoinMagnet, EffCoinMagnet
        | EffStartingLives, EffStartingLives =>
            IZR (currentLevel u) * eff_value (effect u)
        | _, _ => 0
        end) + acc)
    0 upgrades.

(** A parrot with a behaviour record has the two numbers the movement
    reads from it. *)
Definition wellBehaved (obstacle : Obstacle) : Prop :=
  ob_type obstacle = Parrot ->
  forall b, behavior obstacle = Some b ->
            frequency b <> None /\ amplitude b <> None.

(** A chest the starting player overlaps, and a banana on the player. *)
Definition chestAtPlayer : Obstacle := mkObstacle 110 300 40 28 TreasureChest None.

Definition bananaAtPlayer : Projectile := mkProjectile 110 310 (-3) 0 8 4.

(** A water gap as the generator places it, under the player. *)
Definition gapUnderPlayer : Obstacle := mkObstacle 90 332 60 68 Gap None.

(** The coin at the place the magnet alone gives it. *)
Definition pulledCoin (player : Player) (gameState : GameState) (coin : Coin)
    : Coin :=
  mkCoin (fst (checkCoinMagnet player gameState coin))
         (snd (checkCoinMagnet player gameState coin))
         (co_width coin) (co_height coin) (co_collected coin).

(** An updater that lowers neither the score nor the coins of the run. *)
Definition grows (u : GameState -> GameState) : Prop :=
  forall s, (score s <= score (u s))%Z /\ (coins s <= coins (u s))%Z.

Definition rewardsNonneg (p : PlayerProgress) : Prop :=
  Forall (fun c => (0 <= reward c)%Z) (dailyChallenges p).

(** The bank, the counters of the run and the rewards on offer are not
    negative, also in what a pending timer closed over. *)
Definition bankInvariant (w : World) : Prop :=
  (0 <= totalCoins (w_playerProgress w))%Z
  /\ (0 <= coins (w_gameState w))%Z
  /\ (0 <= score (w_gameState w))%Z
  /\ rewardsNonneg (w_playerProgress w)
  /\ match w_gameOverTimer w with
     | Some t => (0 <= coins (closureGameState t))%Z
                 /\ rewardsNonneg (closureProgress t)
     | None => True
     end.

(** What a finished run counts towards a challenge of a type. *)
Definition runAmount (gameState : GameState) (type : ChallengeType) : Z :=
  match type with
  | ChScore => score gameState
  | ChCoins => coins gameState
  | ChSurvival => (score gameState / 10)%Z
  | ChEnemies => 0%Z
  end.

(** The challenge after an update that completes it. *)
Definition completedBy (amount : Z) (c : DailyChallenge) : DailyChallenge :=
  mkDailyChallenge (dc_id c) (dc_name c) (dc_description c) (target c)
    (progress c + amount)%Z (reward c) true (dc_type c).

(** A profile whose score challenge stands at 600 of 1000, and a run that
    ended with a score of 500. *)
Definition scoreChallengeAt600 : DailyChallenge :=
  mkDailyChallenge "score-1000" "Distance Runner" "Reach a score of 1000"
    1000 600 50 false ChScore.

Definition profileAt600 : PlayerProgress :=
  mkPlayerProgress 0 defaultShipUpgrades 1 600 [scoreChallengeAt600]
    "Mon Nov 02 2026" generatePirateOutfits "default" 0 60.

Definition runOf500 : GameState :=
  mkGameState false false 500 0 1 4 (mkShipBoosts 1 0 0 0) "" 0.

(** * Properties *)

(** ** Numbers *)

Lemma Rltb_true (a b : R) : Rltb a b = true <-> a < b.
Proof. unfold Rltb; destruct (Rlt_dec a b); split; intros; try discriminate; tauto. Qed.

Lemma Rltb_false (a b : R) : Rltb a b = false <-> b <= a.
Proof.
  unfold Rltb; destruct (Rlt_dec a b); split; intros; try discriminate; try lra;
    reflexivity.
Qed.

Lemma Rleb_true (a b : R) : Rleb a b = true <-> a <= b.
Proof. unfold Rleb; destruct (Rle_dec a b); split; intros; try discriminate; tauto. Qed.

Lemma Rleb_false (a b : R) : Rleb a b = false <-> b < a.
Proof.
  unfold Rleb; destruct (Rle_dec a b); split; intros; try discriminate; try lra;
    reflexivity.
Qed.

Lemma ObstacleType_eqb_eq (a b : ObstacleType) :
  ObstacleType_eqb a b = true <-> a = b.
Proof. destruct a, b; simpl; split; congruence. Qed.

Lemma ObstacleType_eqb_refl (a : ObstacleType) : ObstacleType_eqb a a = true.
Proof. destruct a; reflexivity. Qed.

(** Evaluate the comparisons of concrete numbers that block a computation. *)
Ltac decide_cmp :=
  repeat match goal with
         | |- context [Rle_dec ?a ?b] => destruct (Rle_dec a b); try lra
         | |- context [Rlt_dec ?a ?b] => destruct (Rlt_dec a b); try lra
         end.

(** ** The weighted selector *)

Lemma cumulative_cons (t : ObstacleType) (w : R) (rest : Weights) (k : nat) :
  cumulative ((t, w) :: rest) (S k) = w + cumulative rest k.
Proof. reflexivity. Qed.

Lemma cumulative_0 (entries : Weights) : cumulative entries 0 = 0.
Proof. reflexivity. Qed.

Section Selector.

Variable rand : R.

(** The scan started with a running sum [acc]: the first entry whose
    running sum reaches the draw is returned. *)
Lemma scanWeights_first (entries : Weights) :
  forall (acc : R) (dflt : ObstacleType) (k : nat) (t : ObstacleType) (w : R),
    nth_error entries k = Some (t, w) ->
    rand <= acc + cumulative entries (S k) ->
    (forall j, (j < k)%nat -> acc + cumulative entries (S j) < rand) ->
    scanWeights entries rand acc dflt = t.
Proof.
  induction entries as [|[t0 w0] rest IH]; intros acc dflt k t w Hnth Hreach Hbelow.
  - destruct k; discriminate.
  - simpl. destruct k as [|k].
    + injection Hnth as -> ->.
      unfold cumulative in Hreach; simpl in Hreach.
      destruct (Rle_dec rand (acc + w)); [reflexivity | lra].
    + pose proof (Hbelow 0%nat (Nat.lt_0_succ k)) as H0.
      unfold cumulative in H0; simpl in H0.
      destruct (Rle_dec rand (acc + w0)); [lra |].
      apply (IH (acc + w0) dflt k t w Hnth).
      * unfold cumulative in *; simpl in Hreach; simpl; lra.
      * intros j Hj. specialize (Hbelow (S j) (proj1 (Nat.succ_lt_mono j k) Hj)).
        unfold cumulative in *; simpl in Hbelow; simpl; lra.
Qed.

(** If no running sum reaches the draw, the initial value survives. *)
Lemma scanWeights_none (entries : Weights) :
  forall (acc : R) (dflt : ObstacleType),
    (forall j, (j < List.length entries)%nat ->
               acc + cumulative entries (S j) < rand) ->
    scanWeights entries rand acc dflt = dflt.
Proof.
  induction entries as [|[t0 w0] rest IH]; intros acc dflt Hbelow; [reflexivity|].
  simpl.
  pose proof (Hbelow 0%nat (Nat.lt_0_succ _)) as H0.
  unfold cumulative in H0; simpl in H0.
  destruct (Rle_dec rand (acc + w0)); [lra |].
  apply IH. intros j Hj.
  specialize (Hbelow (S j) (proj1 (Nat.succ_lt_mono _ _) Hj)).
  unfold cumulative in *; simpl in Hbelow; simpl; lra.
Qed.

End Selector.

Lemma totalWeight_firstn_le (entries : Weights) :
  (forall e, In e entries -> 0 <= snd e) ->
  forall k, cumulative entries k <= totalWeight entries.
Proof.
  unfold cumulative.
  induction entries as [|[t w] rest IH]; intros Hpos k.
  - destruct k; simpl; lra.
  - destruct k; simpl.
    + assert (0 <= totalWeight rest).
      { specialize (IH (fun e He => Hpos e (or_intror He)) 0%nat). simpl in IH. exact IH. }
      specialize (Hpos (t, w) (or_introl eq_refl)). simpl in Hpos. lra.
    + specialize (IH (fun e He => Hpos e (or_intror He)) k). lra.
Qed.

Lemma scanWeights_cases (rand : R) (entries : Weights) :
  forall (acc : R) (dflt : ObstacleType),
    (exists k t w,
        nth_error entries k = Some (t, w) /\
        rand <= acc + cumulative entries (S k) /\
        (forall j, (j < k)%nat -> acc + cumulative entries (S j) < rand) /\
        scanWeights entries rand acc dflt = t)
    \/ ((forall j, (j < List.length entries)%nat ->
                   acc + cumulative entries (S j) < rand) /\
        scanWeights entries rand acc dflt = dflt).
Proof.
  induction entries as [|[t0 w0] rest IH]; intros acc dflt.
  - right. split; [intros j Hj; inversion Hj | reflexivity].
  - simpl. destruct (Rle_dec rand (acc + w0)) as [Hle|Hgt].
    + left. exists 0%nat, t0, w0. repeat split.
      * rewrite cumulative_cons, cumulative_0; lra.
      * intros j Hj; inversion Hj.
    + destruct (IH (acc + w0) dflt) as [(k & t & w & Hnth & Hreach & Hbelow & Hres)|[Hbelow Hres]].
      * left. exists (S k), t, w. repeat split; auto.
        -- rewrite cumulative_cons; lra.
        -- intros [|j] Hj; rewrite cumulative_cons.
           ++ rewrite cumulative_0; lra.
           ++ specialize (Hbelow j (proj2 (Nat.succ_lt_mono j k) Hj)). lra.
      * right. split; auto.
        intros [|j] Hj; rewrite cumulative_cons.
        -- rewrite cumulative_0; lra.
        -- specialize (Hbelow j (proj2 (Nat.succ_lt_mono _ _) Hj)). lra.
Qed.

(** C2, as amended.  The selector returns one type: scanning the weights in
    enumeration order, the type of the first entry whose cumulative sum
    reaches the draw ([rand <= sum]).  If no cumulative sum reaches the
    draw, and so whenever the weights are non-negative and the draw exceeds
    their total, the result is the initial value ["crab"], whatever the last
    enumerated type is. *)
Theorem selectObstacleType_first_reaching_else_crab
    (weights : Weights) (rand : R) :
  ((exists k t w,
       nth_error weights k = Some (t, w) /\
       rand <= cumulative weights (S k) /\
       (forall j, (j < k)%nat -> cumulative weights (S j) < rand) /\
       selectObstacleType weights rand = t)
   \/ ((forall j, (j < List.length weights)%nat ->
                  cumulative weights (S j) < rand) /\
       selectObstacleType weights rand = Crab))
  /\ ((forall e, In e weights -> 0 <= snd e) ->
      totalWeight weights < rand ->
      selectObstacleType weights rand = Crab).
Proof.
  split.
  - destruct (scanWeights_cases rand weights 0 Crab)
      as [(k & t & w & Hnth & Hreach & Hbelow & Hres)|[Hbelow Hres]].
    + left. exists k, t, w. repeat split; auto; try lra.
      intros j Hj. specialize (Hbelow j Hj). lra.
    + right. split; auto. intros j Hj. specialize (Hbelow j Hj). lra.
  - intros Hpos Htotal. apply scanWeights_none.
    intros j _. pose proof (totalWeight_firstn_le weights Hpos (S j)). lra.
Qed.

Lemma driftedWeights_nonneg : forall e, In e driftedWeights -> 0 <= snd e.
Proof.
  intros e He. unfold driftedWeights in He. simpl in He.
  repeat (destruct He as [<-|He]; [simpl; lra|]). contradiction.
Qed.

Lemma driftedWeights_total : totalWeight driftedWeights < 0.9.
Proof. unfold driftedWeights, totalWeight; simpl; lra. Qed.

(** The amended C2 at a drifted distribution and the draw 0.9. *)
Lemma selectObstacleType_first_reaching_else_crab_witness :
  selectObstacleType driftedWeights 0.9 = Crab.
Proof.
  exact (proj2 (selectObstacleType_first_reaching_else_crab driftedWeights 0.9)
           driftedWeights_nonneg driftedWeights_total).
Defined.

(** C2 as stated fails: the weights are non-negative, the draw lies in
    [0,1) and exceeds their total, and the selector returns ["crab"] while
    the last enumerated type is ["treasure-chest"]. *)
Lemma selectObstacleType_fallback_is_not_last :
  (forall e, In e driftedWeights -> 0 <= snd e) /\
  0 <= 0.9 < 1 /\
  totalWeight driftedWeights < 0.9 /\
  lastType driftedWeights = TreasureChest /\
  selectObstacleType driftedWeights 0.9 = Crab /\
  selectObstacleType driftedWeights 0.9 <> lastType driftedWeights.
Proof.
  assert (Hsel : selectObstacleType driftedWeights 0.9 = Crab).
  { unfold selectObstacleType, driftedWeights; simpl. decide_cmp. reflexivity. }
  split; [exact driftedWeights_nonneg|].
  split; [lra|].
  split; [exact driftedWeights_total|].
  split; [reflexivity|].
  split; [exact Hsel|].
  rewrite Hsel. unfold lastType, driftedWeights; simpl. discriminate.
Qed.

(** ** The pattern generator and the store *)

Lemma heapGet_old (h later : Heap) (r : Ref) :
  (r < List.length h)%nat -> heapGet (h ++ later)%list r = heapGet h r.
Proof. intros Hr. unfold heapGet. apply nth_error_app1. exact Hr. Qed.

Lemma heapGet_new (h : Heap) (obj : Weights) :
  heapGet (h ++ [obj])%list (List.length h) = Some obj.
Proof.
  unfold heapGet. rewrite nth_error_app2 by apply Nat.le_refl.
  rewrite Nat.sub_diag. reflexivity.
Qed.

Lemma heapSet_new (h : Heap) (obj obj' : Weights) :
  heapSet (h ++ [obj])%list (List.length h) obj' = (h ++ [obj'])%list.
Proof. induction h as [|o h IH]; simpl; [reflexivity | now rewrite IH]. Qed.

(** An assignment to the copy leaves every older object as it was. *)
Lemma perturbKey_new (seed : Z) (h : Heap) (obj : Weights) (key : ObstacleType) :
  perturbKey seed (List.length h) (h ++ [obj])%list key
  = (h ++ [perturbObject seed obj key])%list.
Proof.
  unfold perturbKey, perturbObject. rewrite heapGet_new.
  destruct (getWeight obj key); [apply heapSet_new | reflexivity].
Qed.

Lemma fold_perturbKey_new (seed : Z) (h : Heap) (keys : list ObstacleType) :
  forall obj,
    fold_left (perturbKey seed (List.length h)) keys (h ++ [obj])%list
    = (h ++ [fold_left (perturbObject seed) keys obj])%list.
Proof.
  induction keys as [|key keys IH]; intros obj; simpl; [reflexivity|].
  rewrite perturbKey_new. apply IH.
Qed.

(** The call in closed form: the result refers to a new object placed after
    the store it was given, and the store is otherwise the same. *)
Lemma generateAILevelPattern_eq (seed : Z) (h : Heap)
    (basePattern : LevelPattern) (baseWeights : Weights) :
  patternAt (Z.rem seed (Z.of_nat (List.length LEVEL_PATTERNS))) = Some basePattern ->
  heapGet h (weights basePattern) = Some baseWeights ->
  generateAILevelPattern seed h
  = Some (mkLevelPattern
            (name basePattern ++ " (Variant "
               ++ string_of_Z (Zfloor (jsRem1 (IZR seed * 0.1) * 10)) ++ ")")%string
            (List.length h),
          (h ++ [perturbed seed baseWeights])%list).
Proof.
  intros Hp Hw. unfold generateAILevelPattern. rewrite Hp, Hw.
  unfold heapAlloc. rewrite fold_perturbKey_new. reflexivity.
Qed.

(** The table only refers to the six objects of the literal. *)
Lemma patternAt_ref (i : Z) (basePattern : LevelPattern) :
  patternAt i = Some basePattern ->
  (weights basePattern < List.length initialHeap)%nat.
Proof.
  unfold patternAt. destruct (i <? 0)%Z; [discriminate|].
  intros H. apply nth_error_In in H. simpl in H.
  unfold initialHeap.
  repeat (destruct H as [<-|H]; [simpl; lia|]). contradiction.
Qed.

Lemma heapGet_base (h : Heap) (i : Z) (basePattern : LevelPattern) :
  heapExtends initialHeap h ->
  patternAt i = Some basePattern ->
  exists baseWeights,
    heapGet initialHeap (weights basePattern) = Some baseWeights /\
    heapGet h (weights basePattern) = Some baseWeights.
Proof.
  intros [later ->] Hp. pose proof (patternAt_ref i basePattern Hp) as Hr.
  rewrite heapGet_old by exact Hr.
  destruct (heapGet initialHeap (weights basePattern)) as [w|] eqn:E.
  - exists w; split; reflexivity.
  - unfold heapGet in E. apply nth_error_None in E. lia.
Qed.

Lemma patternAt_nonneg (seed : Z) :
  (0 <= seed)%Z ->
  patternAt (Z.rem seed (Z.of_nat (List.length LEVEL_PATTERNS))) <> None.
Proof.
  intros Hs. unfold patternAt.
  change (Z.of_nat (List.length LEVEL_PATTERNS)) with 6%Z.
  assert (Hb : (0 <= Z.rem seed 6 < 6)%Z) by (apply Z.rem_bound_pos; lia).
  destruct (Z.ltb_spec (Z.rem seed 6) 0); [lia|].
  intros E. apply nth_error_None in E.
  change (List.length LEVEL_PATTERNS) with 6%nat in E. lia.
Qed.

Lemma heapExtends_refl (h : Heap) : heapExtends h h.
Proof. exists []. now rewrite app_nil_r. Qed.

Lemma heapExtends_trans (a b c : Heap) :
  heapExtends a b -> heapExtends b c -> heapExtends a c.
Proof. intros [l1 ->] [l2 ->]. exists (l1 ++ l2)%list. now rewrite app_assoc. Qed.

(** Objects of an extended store are where and what they were. *)
Lemma heapExtends_frame (h h' : Heap) (r : Ref) (obj : Weights) :
  heapExtends h h' -> heapGet h r = Some obj -> heapGet h' r = Some obj.
Proof.
  intros [later ->] Hr. rewrite heapGet_old; [exact Hr|].
  apply nth_error_Some. unfold heapGet in Hr. congruence.
Qed.

(** C5.  The pattern generator has no hidden state.  On any two stores that
    still begin with the objects of the [LEVEL_PATTERNS] literal (whatever
    calls have been made before), two calls with the same seed either both
    throw, or both return the same label and weights objects of the same
    content; each call leaves every existing object untouched, so the same
    holds for the calls that follow.  A non-negative seed always returns. *)
Theorem generateAILevelPattern_pure (seed : Z) (h1 h2 : Heap) :
  heapExtends initialHeap h1 ->
  heapExtends initialHeap h2 ->
  match generateAILevelPattern seed h1, generateAILevelPattern seed h2 with
  | Some (p1, h1'), Some (p2, h2') =>
      name p1 = name p2
      /\ (exists w, heapGet h1' (weights p1) = Some w
                    /\ heapGet h2' (weights p2) = Some w)
      /\ heapExtends h1 h1' /\ heapExtends h2 h2'
  | None, None => ~ (0 <= seed)%Z
  | _, _ => False
  end.
Proof.
  intros He1 He2.
  destruct (patternAt (Z.rem seed (Z.of_nat (List.length LEVEL_PATTERNS))))
    as [basePattern|] eqn:Hp.
  - destruct (heapGet_base h1 _ _ He1 Hp) as (w1 & Hi1 & Hw1).
    destruct (heapGet_base h2 _ _ He2 Hp) as (w2 & Hi2 & Hw2).
    assert (w2 = w1) by congruence. subst w2.
    rewrite (generateAILevelPattern_eq seed h1 basePattern w1 Hp Hw1).
    rewrite (generateAILevelPattern_eq seed h2 basePattern w1 Hp Hw2).
    simpl. split; [reflexivity|]. split.
    + exists (perturbed seed w1). split; apply heapGet_new.
    + split; eexists; reflexivity.
  - unfold generateAILevelPattern. rewrite Hp.
    intros Hs. exact (patternAt_nonneg seed Hs Hp).
Qed.

(** C5 at seed 0, on the initial store and on a store with one more
    object. *)
Lemma generateAILevelPattern_pure_witness :
  match generateAILevelPattern 0 initialHeap,
        generateAILevelPattern 0 (initialHeap ++ [driftedWeights])%list with
  | Some (p1, h1'), Some (p2, h2') =>
      name p1 = name p2
      /\ (exists w, heapGet h1' (weights p1) = Some w
                    /\ heapGet h2' (weights p2) = Some w)
      /\ heapExtends initialHeap h1'
      /\ heapExtends (initialHeap ++ [driftedWeights])%list h2'
  | None, None => ~ (0 <= 0)%Z
  | _, _ => False
  end.
Proof.
  apply (generateAILevelPattern_pure 0 initialHeap
           (initialHeap ++ [driftedWeights])%list).
  - exists []. reflexivity.
  - exists [driftedWeights]. reflexivity.
Defined.

(** The HUD and the spawner call the generator with the same argument, so
    for one level seed and score they show and scan the same pattern. *)
Lemma display_and_spawner_agree (levelSeed score : Z) (canvasWidth rand randX randY : R)
    (h1 h2 : Heap) :
  heapExtends initialHeap h1 ->
  heapExtends initialHeap h2 ->
  (0 <= patternSeed levelSeed score)%Z ->
  exists basePattern baseWeights label obstacle,
    patternAt (Z.rem (patternSeed levelSeed score)
                 (Z.of_nat (List.length LEVEL_PATTERNS))) = Some basePattern
    /\ heapGet initialHeap (weights basePattern) = Some baseWeights
    /\ displayedPatternName levelSeed score h1
       = Some (label, (h1 ++ [perturbed (patternSeed levelSeed score) baseWeights])%list)
    /\ generateObstacle levelSeed score canvasWidth rand randX randY h2
       = Some (obstacle, (h2 ++ [perturbed (patternSeed levelSeed score) baseWeights])%list)
    /\ ob_type obstacle
       = selectObstacleType (perturbed (patternSeed levelSeed score) baseWeights) rand.
Proof.
  intros He1 He2 Hs.
  destruct (patternAt (Z.rem (patternSeed levelSeed score)
                         (Z.of_nat (List.length LEVEL_PATTERNS))))
    as [basePattern|] eqn:Hp; [|exfalso; exact (patternAt_nonneg _ Hs Hp)].
  destruct (heapGet_base h1 _ _ He1 Hp) as (w1 & Hi1 & Hw1).
  destruct (heapGet_base h2 _ _ He2 Hp) as (w2 & Hi2 & Hw2).
  assert (w2 = w1) by congruence. subst w2.
  exists basePattern, w1.
  unfold displayedPatternName, generateObstacle.
  rewrite (generateAILevelPattern_eq _ h1 basePattern w1 Hp Hw1).
  rewrite (generateAILevelPattern_eq _ h2 basePattern w1 Hp Hw2).
  cbn [weights name]. rewrite heapGet_new.
  eexists. eexists. split; [reflexivity|]. split; [exact Hi1|].
  split; [reflexivity|]. split; [reflexivity|].
  destruct (selectObstacleType (perturbed (patternSeed levelSeed score) w1) rand);
    reflexivity.
Qed.

(** ** The coin magnet *)

Lemma checkCoinMagnet_in_band (player : Player) (gameState : GameState) (coin : Coin) :
  20 < centerDistance player coin < magnetRange gameState ->
  checkCoinMagnet player gameState coin
  = (x coin + 0.03 * centerDx player coin, y coin + 0.03 * centerDy player coin).
Proof.
  intros [Hlo Hhi]. unfold checkCoinMagnet.
  change (sqrt _) with (centerDistance player coin).
  change (50 + _) with (magnetRange gameState).
  rewrite (proj2 (Rltb_true _ _) Hhi), (proj2 (Rltb_true _ _) Hlo). simpl.
  unfold centerDx, centerDy; simpl. f_equal; lra.
Qed.

Lemma checkCoinMagnet_out_of_band (player : Player) (gameState : GameState) (coin : Coin) :
  centerDistance player coin <= 20 \/ magnetRange gameState <= centerDistance player coin ->
  checkCoinMagnet player gameState coin = (x coin, y coin).
Proof.
  intros Hout. unfold checkCoinMagnet.
  change (sqrt _) with (centerDistance player coin).
  change (50 + _) with (magnetRange gameState).
  destruct Hout as [Hlo|Hhi].
  - rewrite (proj2 (Rltb_false _ _) Hlo), andb_false_r. reflexivity.
  - rewrite (proj2 (Rltb_false _ _) Hhi). reflexivity.
Qed.

Lemma centerDistance_zero (player : Player) (coin : Coin) :
  centerDx player coin = 0 -> centerDy player coin = 0 ->
  centerDistance player coin = 0.
Proof.
  intros Hx Hy. unfold centerDistance. rewrite Hx, Hy.
  replace (0 ^ 2 + 0 ^ 2) with 0 by (simpl; lra). apply sqrt_0.
Qed.

(** The coin store after the update of a frame: the moved copies of the
    uncollected coins that are still on the screen, in the order of the old
    store, followed by the new coin when the draw is below 0.02. *)
Lemma updateCoins_members (player : Player) (gameState : GameState)
    (canvasWidth randSpawn randX randY : R) (prev : list Coin) (coin' : Coin) :
  In coin' (updateCoins player gameState canvasWidth randSpawn randX randY prev)
  <-> (exists coin, In coin prev /\ co_collected coin = false
                    /\ coin' = moveCoin player gameState coin
                    /\ - width coin < x coin')
      \/ (randSpawn < 0.02 /\ coin' = generateCoin canvasWidth randX randY).
Proof.
  unfold updateCoins.
  assert (Hmoved : forall c,
             In c (filter (fun coin => Rltb (- width coin) (x coin)
                                       && negb (co_collected coin))
                     (map (moveCoin player gameState) prev))
             <-> exists coin, In coin prev /\ co_collected coin = false
                              /\ c = moveCoin player gameState coin
                              /\ - width coin < x c).
  { intros c. rewrite filter_In, in_map_iff. split.
    - intros [(coin & <- & Hcoin) Hkeep].
      apply andb_prop in Hkeep. destruct Hkeep as [Hx Hk].
      exists coin. split; [exact Hcoin|]. split; [|split; [reflexivity|]].
      + simpl in Hk. destruct (co_collected coin); [discriminate | reflexivity].
      + apply Rltb_true in Hx. exact Hx.
    - intros (coin & Hcoin & Hc & -> & Hx). split.
      + exists coin. split; [reflexivity | exact Hcoin].
      + apply andb_true_intro. split.
        * apply Rltb_true. exact Hx.
        * simpl. rewrite Hc. reflexivity. }
  destruct (Rltb randSpawn 0.02) eqn:Es.
  - rewrite in_app_iff, Hmoved. apply Rltb_true in Es. split.
    + intros [H|[<-|[]]]; [left; exact H | right; split; [exact Es | reflexivity]].
    + intros [H|[_ ->]]; [left; exact H | right; left; reflexivity].
  - rewrite Hmoved. apply Rltb_false in Es. split.
    + intros H. left. exact H.
    + intros [H|[Hlt _]]; [exact H | lra].
Qed.

(** C6.  The magnet moves a coin by 0.03 (= 0.3 * 0.1) of the vector from
    the coin's centre to the player's centre exactly when the distance of
    the centres is strictly between 20 and the range 50 + bonus; the frame's
    coin update then subtracts the scroll speed from [x].  A coin at
    distance at most 20 or at least the range is not moved by the magnet
    and moves by the scroll speed alone.  So it is in the store of the
    frame: an uncollected coin of the old store is in the new store at
    exactly that place while it is on the screen, and the new store holds
    nothing but such coins and the coin the frame may add. *)
Theorem moveCoin_magnet_band (player : Player) (gameState : GameState) (coin : Coin) :
  (20 < centerDistance player coin < magnetRange gameState ->
     checkCoinMagnet player gameState coin
     = (x coin + 0.03 * centerDx player coin, y coin + 0.03 * centerDy player coin)
     /\ x (moveCoin player gameState coin)
        = x coin + 0.03 * centerDx player coin - gameSpeed gameState
     /\ y (moveCoin player gameState coin) = y coin + 0.03 * centerDy player coin)
  /\ (centerDistance player coin <= 20
      \/ magnetRange gameState <= centerDistance player coin ->
     checkCoinMagnet player gameState coin = (x coin, y coin)
     /\ x (moveCoin player gameState coin) = x coin - gameSpeed gameState
     /\ y (moveCoin player gameState coin) = y coin)
  /\ (checkCoinMagnet player gameState coin <> (x coin, y coin)
      <-> 20 < centerDistance player coin < magnetRange gameState)
  /\ (forall canvasWidth randSpawn randX randY prev,
        In coin prev ->
        co_collected coin = false ->
        (20 < centerDistance player coin < magnetRange gameState ->
         - width coin < x coin + 0.03 * centerDx player coin - gameSpeed gameState ->
         In (mkCoin (x coin + 0.03 * centerDx player coin - gameSpeed gameState)
               (y coin + 0.03 * centerDy player coin)
               (width coin) (height coin) false)
            (updateCoins player gameState canvasWidth randSpawn randX randY prev))
        /\ (centerDistance player coin <= 20
            \/ magnetRange gameState <= centerDistance player coin ->
            - width coin < x coin - gameSpeed gameState ->
            In (mkCoin (x coin - gameSpeed gameState) (y coin)
                  (width coin) (height coin) false)
               (updateCoins player gameState canvasWidth randSpawn randX randY prev)))
  /\ (forall canvasWidth randSpawn randX randY prev coin',
        In coin' (updateCoins player gameState canvasWidth randSpawn randX randY prev)
        <-> (exists old, In old prev /\ co_collected old = false
                         /\ coin' = moveCoin player gameState old
                         /\ - width old < x coin')
            \/ (randSpawn < 0.02 /\ coin' = generateCoin canvasWidth randX randY)).
Proof.
  split; [|split; [|split; [|split]]].
  - intros Hin. pose proof (checkCoinMagnet_in_band _ _ _ Hin) as E.
    split; [exact E|]. unfold moveCoin. rewrite E. simpl. split; reflexivity.
  - intros Hout. pose proof (checkCoinMagnet_out_of_band _ _ _ Hout) as E.
    split; [exact E|]. unfold moveCoin. rewrite E. simpl. split; reflexivity.
  - split.
    + intros Hmoved.
      destruct (Rlt_dec 20 (centerDistance player coin)) as [Hlo|Hlo];
        [destruct (Rlt_dec (centerDistance player coin) (magnetRange gameState))
           as [Hhi|Hhi]|].
      * split; assumption.
      * exfalso. apply Hmoved. apply checkCoinMagnet_out_of_band. right. lra.
      * exfalso. apply Hmoved. apply checkCoinMagnet_out_of_band. left. lra.
    + intros Hin Heq. rewrite (checkCoinMagnet_in_band _ _ _ Hin) in Heq.
      injection Heq as Hx Hy.
      assert (centerDistance player coin = 0)
        by (apply centerDistance_zero; lra).
      lra.
  - intros canvasWidth randSpawn randX randY prev Hcoin Hc. split.
    + intros Hin Hx. apply updateCoins_members. left. exists coin.
      split; [exact Hcoin|]. split; [exact Hc|]. split; [|exact Hx].
      unfold moveCoin. rewrite (checkCoinMagnet_in_band _ _ _ Hin), Hc.
      reflexivity.
    + intros Hout Hx. apply updateCoins_members. left. exists coin.
      split; [exact Hcoin|]. split; [exact Hc|]. split; [|exact Hx].
      unfold moveCoin. rewrite (checkCoinMagnet_out_of_band _ _ _ Hout), Hc.
      reflexivity.
  - intros canvasWidth randSpawn randX randY prev coin'.
    apply updateCoins_members.
Qed.

Lemma nearbyCoin_distance : centerDistance startPlayer nearbyCoin = 30.
Proof.
  unfold centerDistance, centerDx, centerDy; simpl.
  replace ((100 + 32 / 2 - (138 + 16 / 2)) * ((100 + 32 / 2 - (138 + 16 / 2)) * 1)
           + (300 + 32 / 2 - (308 + 16 / 2)) * ((300 + 32 / 2 - (308 + 16 / 2)) * 1))
    with (30 * 30) by lra.
  apply sqrt_square. lra.
Qed.

(** C6 at a coin 30 away from the player of a session without upgrades:
    the frame's store holds it 0.03 * 30 nearer and 4 to the left. *)
Lemma moveCoin_magnet_band_witness :
  20 < centerDistance startPlayer nearbyCoin < magnetRange plainSession
  /\ x (moveCoin startPlayer plainSession nearbyCoin)
     = x nearbyCoin + 0.03 * centerDx startPlayer nearbyCoin - gameSpeed plainSession
  /\ In (mkCoin (x nearbyCoin + 0.03 * centerDx startPlayer nearbyCoin
                 - gameSpeed plainSession)
           (y nearbyCoin + 0.03 * centerDy startPlayer nearbyCoin)
           (width nearbyCoin) (height nearbyCoin) false)
        (updateCoins startPlayer plainSession 800 0.5 0.5 0.5 [nearbyCoin]).
Proof.
  assert (Hin : 20 < centerDistance startPlayer nearbyCoin < magnetRange plainSession).
  { rewrite nearbyCoin_distance. unfold magnetRange, plainSession; simpl. lra. }
  pose proof (moveCoin_magnet_band startPlayer plainSession nearbyCoin)
    as (Hband & _ & _ & Hstore & _).
  split; [exact Hin|]. split; [exact (proj1 (proj2 (Hband Hin)))|].
  apply (proj1 (Hstore 800 0.5 0.5 0.5 [nearbyCoin] (or_introl eq_refl) eq_refl));
    [exact Hin|].
  unfold centerDx, plainSession, startPlayer, nearbyCoin; simpl. lra.
Defined.

(** ** Lives and the floor *)

Lemma loseLife_lives (s : GameState) : lives (loseLife s) = Rmax 1 (lives s - 1).
Proof. reflexivity. Qed.

Lemma loseLife_keepsFloor : keepsFloor loseLife.
Proof. intros s _. simpl. apply Rmax_l. Qed.

Lemma addCoinsScore_keepsFloor (c s : Z) : keepsFloor (addCoinsScore c s).
Proof. intros g Hg. exact Hg. Qed.

Lemma stopPlaying_keepsFloor : keepsFloor stopPlaying.
Proof. intros g Hg. exact Hg. Qed.

Lemma extraLife_keepsFloor : keepsFloor extraLife.
Proof.
  intros g Hg. simpl. unfold Rmin. destruct (Rle_dec (lives g + 1) 5); lra.
Qed.

Lemma Forall_firstn {A : Type} (P : A -> Prop) (l : list A) :
  Forall P l -> forall k, Forall P (firstn k l).
Proof.
  induction 1 as [|a l Ha _ IH]; intros [|k]; simpl; constructor; auto.
Qed.

Lemma applyUpdaters_app {S : Type} (us vs : list (S -> S)) (s : S) :
  applyUpdaters (us ++ vs)%list s = applyUpdaters vs (applyUpdaters us s).
Proof. unfold applyUpdaters. apply fold_left_app. Qed.

Lemma applyUpdaters_keepsFloor (updaters : list (GameState -> GameState)) :
  Forall keepsFloor updaters ->
  forall s, 1 <= lives s -> 1 <= lives (applyUpdaters updaters s).
Proof.
  unfold applyUpdaters.
  induction 1 as [|u us Hu _ IH]; intros s Hs; simpl; [exact Hs|].
  apply IH. apply Hu. exact Hs.
Qed.

(** A list of at most one updater that keeps the floor. *)
Ltac floor_single :=
  first [ apply Forall_nil
        | apply Forall_cons;
          [ first [ apply loseLife_keepsFloor | apply addCoinsScore_keepsFloor
                  | apply stopPlaying_keepsFloor | apply extraLife_keepsFloor ]
          | apply Forall_nil ] ].

Lemma obstacleCollision_keepsFloor (player : Player) (obstacle : Obstacle) :
  Forall keepsFloor (obstacleCollision player obstacle).
Proof.
  unfold obstacleCollision.
  destruct (checkCollision player obstacle); [|floor_single].
  destruct (isGap (ob_type obstacle) && _); [floor_single|].
  destruct (isTreasureChest (ob_type obstacle)); [floor_single|].
  destruct (negb _); floor_single.
Qed.

Lemma projectileCollision_keepsFloor (player : Player) (projectile : Projectile) :
  Forall keepsFloor (projectileCollision player projectile).
Proof.
  unfold projectileCollision.
  destruct (checkCollision player projectile); floor_single.
Qed.

Lemma coinCollision_keepsFloor (player : Player) (coin : Coin) :
  Forall keepsFloor (coinCollision player coin).
Proof. unfold coinCollision. destruct (negb _ && _); floor_single. Qed.

Lemma powerUpCollision_keepsFloor (player : Player) (powerUp : PowerUp) :
  Forall keepsFloor (powerUpCollision player powerUp).
Proof.
  unfold powerUpCollision. destruct (negb _ && _); [|floor_single].
  destruct (pu_type powerUp); floor_single.
Qed.

Lemma collisionDeductions_keepsFloor (player : Player)
    (obstacles : list Obstacle) (projectiles : list Projectile) :
  Forall keepsFloor (collisionDeductions player obstacles projectiles).
Proof.
  unfold collisionDeductions. apply Forall_app. split; apply Forall_flat_map.
  - apply Forall_forall. intros o _. apply obstacleCollision_keepsFloor.
  - apply Forall_forall. intros p _. apply projectileCollision_keepsFloor.
Qed.

Lemma gameLoopUpdaters_keepsFloor (gameState : GameState) (player : Player)
    (obstacles : list Obstacle) (projectiles : list Projectile)
    (coinsPrev : list Coin) (powerUpsPrev : list PowerUp) :
  Forall keepsFloor
    (gameLoopUpdaters gameState player obstacles projectiles coinsPrev powerUpsPrev).
Proof.
  unfold gameLoopUpdaters.
  apply Forall_app; split; [apply collisionDeductions_keepsFloor|].
  apply Forall_app; split; [floor_single|].
  apply Forall_app; split; [destruct (Rleb _ _); floor_single|].
  apply Forall_app; split; apply Forall_flat_map, Forall_forall.
  - intros c _. apply coinCollision_keepsFloor.
  - intros p _. apply powerUpCollision_keepsFloor.
Qed.

(** Whatever order the queued updaters of a frame are applied in, the floor
    holds after each of them. *)
Lemma frame_keeps_floor (gameState : GameState) (player : Player)
    (obstacles : list Obstacle) (projectiles : list Projectile)
    (coinsPrev : list Coin) (powerUpsPrev : list PowerUp) (prev : GameState) :
  1 <= lives prev ->
  1 <= lives (gameLoop_gameState gameState player obstacles projectiles
                coinsPrev powerUpsPrev prev).
Proof.
  intros Hp. unfold gameLoop_gameState.
  destruct (gameLoopRuns gameState); [|exact Hp].
  apply applyUpdaters_keepsFloor; [apply gameLoopUpdaters_keepsFloor | exact Hp].
Qed.

(** One deduction after another: [n] deductions from [l >= 1] lives leave
    [max(1, l - n)]. *)
Lemma deductions_closed_form (n : nat) (l : R) :
  1 <= l ->
  Nat.iter n (fun l' => Rmax 1 (l' - 1)) l = Rmax 1 (l - INR n).
Proof.
  intros Hl. induction n as [|n IH].
  - simpl. unfold Rmax. destruct (Rle_dec 1 (l - 0)); lra.
  - rewrite Nat.iter_succ, IH, S_INR. unfold Rmax.
    destruct (Rle_dec 1 (l - INR n)); destruct (Rle_dec 1 (l - (INR n + 1)));
      destruct (Rle_dec 1 (l - INR n - 1)); destruct (Rle_dec 1 (1 - 1)); lra.
Qed.

Lemma obstacleCollision_lives (player : Player) (obstacle : Obstacle)
    (s : GameState) :
  lives (applyUpdaters (obstacleCollision player obstacle) s)
  = if lifeDeducting player obstacle then Rmax 1 (lives s - 1) else lives s.
Proof.
  unfold obstacleCollision, lifeDeducting.
  destruct (checkCollision player obstacle); [|reflexivity]. cbn [andb].
  destruct (Rleb (y obstacle) (y player + height player));
    destruct (ob_type obstacle); reflexivity.
Qed.

Lemma projectileCollision_lives (player : Player) (projectile : Projectile)
    (s : GameState) :
  lives (applyUpdaters (projectileCollision player projectile) s)
  = if checkCollision player projectile then Rmax 1 (lives s - 1) else lives s.
Proof.
  unfold projectileCollision.
  destruct (checkCollision player projectile); reflexivity.
Qed.

Lemma obstacle_pass_lives (player : Player) (obstacles : list Obstacle) :
  forall s,
    lives (applyUpdaters (flat_map (obstacleCollision player) obstacles) s)
    = Nat.iter (List.length (filter (lifeDeducting player) obstacles))
        (fun l => Rmax 1 (l - 1)) (lives s).
Proof.
  induction obstacles as [|o rest IH]; intros s; [reflexivity|].
  cbn [flat_map filter]. rewrite applyUpdaters_app, IH, obstacleCollision_lives.
  destruct (lifeDeducting player o); [|reflexivity].
  cbn [List.length]. rewrite Nat.iter_succ_r. reflexivity.
Qed.

Lemma projectile_pass_lives (player : Player) (projectiles : list Projectile) :
  forall s,
    lives (applyUpdaters (flat_map (projectileCollision player) projectiles) s)
    = Nat.iter
        (List.length (filter (fun projectile => checkCollision player projectile)
                        projectiles))
        (fun l => Rmax 1 (l - 1)) (lives s).
Proof.
  induction projectiles as [|p rest IH]; intros s; [reflexivity|].
  cbn [flat_map filter]. rewrite applyUpdaters_app, IH, projectileCollision_lives.
  destruct (checkCollision player p); [|reflexivity].
  cbn [List.length]. rewrite Nat.iter_succ_r. reflexivity.
Qed.

(** C3.  In the collision pass of a frame, a water gap the player has
    fallen to, an obstacle that is neither gap nor chest, and a projectile
    each queue the updater that sets lives to [max(1, lives - 1)], and
    nothing else of the pass touches the lives: starting from lives of at
    least 1, lives are at least 1 after every updater of the pass, and
    after the pass they are [max(1, lives - n)], where [n] is the number of
    life-deducting collisions among the obstacles and projectiles of the
    frame. *)
Theorem collision_deduction_floor (player : Player)
    (obstacles : list Obstacle) (projectiles : list Projectile)
    (prev : GameState) :
  1 <= lives prev ->
  (forall obstacle,
      checkCollision player obstacle = true ->
      ob_type obstacle = Gap ->
      y obstacle <= y player + height player ->
      obstacleCollision player obstacle = [loseLife])
  /\ (forall obstacle,
        checkCollision player obstacle = true ->
        ob_type obstacle <> Gap ->
        ob_type obstacle <> TreasureChest ->
        obstacleCollision player obstacle = [loseLife])
  /\ (forall projectile,
        checkCollision player projectile = true ->
        projectileCollision player projectile = [loseLife])
  /\ (forall s, lives (loseLife s) = Rmax 1 (lives s - 1))
  /\ (forall s, 1 <= lives (loseLife s))
  /\ (forall k,
        1 <= lives (applyUpdaters
                      (firstn k (collisionDeductions player obstacles projectiles))
                      prev))
  /\ lives (applyUpdaters (collisionDeductions player obstacles projectiles) prev)
     = Rmax 1 (lives prev - INR (deductions player obstacles projectiles)).
Proof.
  intros Hp. split; [|split; [|split; [|split; [|split; [|split]]]]].
  - intros o Hc Ht Hy. unfold obstacleCollision. rewrite Hc, Ht.
    rewrite (proj2 (Rleb_true _ _) Hy). reflexivity.
  - intros o Hc Hg Ht. unfold obstacleCollision. rewrite Hc.
    destruct (ob_type o); try contradiction; reflexivity.
  - intros p Hc. unfold projectileCollision. rewrite Hc. reflexivity.
  - intros s. reflexivity.
  - intros s. simpl. apply Rmax_l.
  - intros k. apply applyUpdaters_keepsFloor; [|exact Hp].
    apply Forall_firstn, collisionDeductions_keepsFloor.
  - unfold collisionDeductions, deductions.
    rewrite applyUpdaters_app, projectile_pass_lives, obstacle_pass_lives.
    rewrite <- Nat.iter_add, Nat.add_comm.
    apply deductions_closed_form. exact Hp.
Qed.

Lemma crabAtPlayer_collides : checkCollision startPlayer crabAtPlayer = true.
Proof.
  unfold checkCollision, Rltb; simpl. decide_cmp; reflexivity.
Qed.

Lemma crabAtPlayer_deducts : lifeDeducting startPlayer crabAtPlayer = true.
Proof. unfold lifeDeducting. rewrite crabAtPlayer_collides. reflexivity. Qed.

Lemma bananaAtPlayer_collides : checkCollision startPlayer bananaAtPlayer = true.
Proof.
  unfold checkCollision, Rltb; simpl. decide_cmp; reflexivity.
Qed.

(** C3 at the starting player and three lives.  One crab: the hit is a
    life deduction and leaves 2 lives.  Two crabs and a banana: three
    deductions, and the floor leaves 1 life where 3 - 3 is 0. *)
Lemma collision_deduction_floor_witness :
  1 <= lives plainSession
  /\ obstacleCollision startPlayer crabAtPlayer = [loseLife]
  /\ lives (applyUpdaters (collisionDeductions startPlayer [crabAtPlayer] [])
              plainSession) = 2
  /\ lives (applyUpdaters
              (collisionDeductions startPlayer [crabAtPlayer; crabAtPlayer]
                 [bananaAtPlayer])
              plainSession) = 1.
Proof.
  assert (Hp : 1 <= lives plainSession) by (simpl; lra).
  pose proof (collision_deduction_floor startPlayer [crabAtPlayer] [] plainSession Hp)
    as (_ & Hhit & _ & _ & _ & _ & Hone).
  pose proof (collision_deduction_floor startPlayer [crabAtPlayer; crabAtPlayer]
                [bananaAtPlayer] plainSession Hp)
    as (_ & _ & _ & _ & _ & _ & Hthree).
  split; [exact Hp|]. split; [|split].
  - apply Hhit; [exact crabAtPlayer_collides | discriminate | discriminate].
  - rewrite Hone. unfold deductions. cbn [filter].
    rewrite crabAtPlayer_deducts. cbn [List.length Nat.add INR lives plainSession].
    unfold Rmax. destruct (Rle_dec 1 (3 - 1)); lra.
  - rewrite Hthree. unfold deductions. cbn [filter].
    rewrite crabAtPlayer_deducts, bananaAtPlayer_collides.
    cbn [List.length Nat.add INR lives plainSession].
    unfold Rmax. destruct (Rle_dec 1 (3 - (1 + 1 + 1))); lra.
Defined.

(** ** Controls *)

(** C8.  While the session is playing, a slide is accepted whenever the
    player is not sliding, whatever [isJumping] and the altitude are: height
    becomes 16 and [y] becomes [groundY + 16], the jump state being kept.
    It is refused only when already sliding.  A jump is accepted whenever
    the player is not jumping, whatever [isSliding] is, and refused only
    when already jumping. *)
Theorem slide_accepted_midair (gameState : GameState) :
  isPlaying gameState = true ->
  (forall player,
      isSliding player = false ->
      height (slide gameState player player) = 16
      /\ y (slide gameState player player) = groundY player + 16
      /\ isSliding (slide gameState player player) = true
      /\ isJumping (slide gameState player player) = isJumping player
      /\ velocityY (slide gameState player player) = velocityY player
      /\ x (slide gameState player player) = x player
      /\ width (slide gameState player player) = width player
      /\ groundY (slide gameState player player) = groundY player)
  /\ (forall player,
        isSliding player = true -> slide gameState player player = player)
  /\ (forall player,
        isJumping player = false ->
        velocityY (jump gameState player player) = JUMP_FORCE
        /\ isJumping (jump gameState player player) = true
        /\ isSliding (jump gameState player player) = isSliding player
        /\ y (jump gameState player player) = y player
        /\ height (jump gameState player player) = height player)
  /\ (forall player,
        isJumping player = true -> jump gameState player player = player).
Proof.
  intros Hplay.
  split; [|split; [|split]]; intros player Hflag; unfold slide, jump;
    rewrite Hplay, Hflag; simpl; repeat split; reflexivity.
Qed.

(** C8 at a player in mid-jump, 120 above the ground. *)
Lemma slide_accepted_midair_witness :
  isJumping airbornePlayer = true
  /\ y airbornePlayer = 180
  /\ height (slide plainSession airbornePlayer airbornePlayer) = 16
  /\ y (slide plainSession airbornePlayer airbornePlayer) = 300 + 16.
Proof.
  split; [reflexivity|]. split; [reflexivity|].
  destruct (proj1 (slide_accepted_midair plainSession eq_refl)
              airbornePlayer eq_refl) as (Hh & Hy & _).
  split; [exact Hh | exact Hy].
Defined.

(** ** Lives at the start of a run *)

Lemma calculateShipBoosts_levels (hull sails compass crew : Z) :
  startingLives (calculateShipBoosts (upgradesAtLevels hull sails compass crew))
  = IZR hull
  /\ extraLives (calculateShipBoosts (upgradesAtLevels hull sails compass crew))
     = IZR crew.
Proof. unfold calculateShipBoosts, upgradesAtLevels; simpl. split; lra. Qed.

Lemma Rmax_above (a b : R) : a <= b -> Rmax a b = b.
Proof. intros H. unfold Rmax. destruct (Rle_dec a b); lra. Qed.

(** C10.  [startGame] sets lives to [max(1, 3 + startingLives + extraLives)]
    and nothing bounds it from above: with hull at level [h] and crew at
    level [c] a run begins with [3 + h + c] lives, 8 when both are at their
    maximum.  The cap of 5 is in the extra-life pick-up alone, which sets
    lives to [min(lives + 1, 5)]. *)
Theorem startGame_lives_uncapped :
  (forall playerProgress mobile newLevelSeed catchphrase,
      lives (startGame playerProgress mobile newLevelSeed catchphrase)
      = Rmax 1 (3 + startingLives (calculateShipBoosts (shipUpgrades playerProgress))
                  + extraLives (calculateShipBoosts (shipUpgrades playerProgress))))
  /\ (forall bank hull sails compass crew mobile newLevelSeed catchphrase,
        (0 <= hull)%Z -> (0 <= crew)%Z ->
        lives (startGame (profileWith bank (upgradesAtLevels hull sails compass crew))
                 mobile newLevelSeed catchphrase)
        = 3 + IZR hull + IZR crew)
  /\ (forall bank mobile newLevelSeed catchphrase,
        lives (startGame (profileWith bank maxedShipUpgrades)
                 mobile newLevelSeed catchphrase) = 8
        /\ 5 < lives (startGame (profileWith bank maxedShipUpgrades)
                        mobile newLevelSeed catchphrase))
  /\ (forall s, lives (extraLife s) = Rmin (lives s + 1) 5
                /\ lives (extraLife s) <= 5)
  /\ (forall player powerUp,
        pu_collected powerUp = false ->
        checkCollision player powerUp = true ->
        pu_type powerUp = ExtraLife ->
        powerUpCollision player powerUp = [extraLife]).
Proof.
  assert (Hlevels : forall bank hull sails compass crew mobile newLevelSeed catchphrase,
             (0 <= hull)%Z -> (0 <= crew)%Z ->
             lives (startGame (profileWith bank (upgradesAtLevels hull sails compass crew))
                      mobile newLevelSeed catchphrase)
             = 3 + IZR hull + IZR crew).
  { intros bank hull sails compass crew mobile seed c Hh Hc.
    unfold startGame, profileWith. cbn [shipUpgrades lives].
    destruct (calculateShipBoosts_levels hull sails compass crew) as [-> ->].
    apply Rmax_above. apply IZR_le in Hh, Hc. lra. }
  split; [reflexivity|]. split; [exact Hlevels|]. split; [|split].
  - intros bank mobile seed c. unfold maxedShipUpgrades.
    rewrite Hlevels by lia. split; lra.
  - intros s. simpl. split; [reflexivity|]. apply Rmin_r.
  - intros player powerUp Hc Hhit Ht. unfold powerUpCollision.
    rewrite Hc, Hhit, Ht. reflexivity.
Qed.

(** C10 at hull level 3 and crew level 2. *)
Lemma startGame_lives_uncapped_witness :
  lives (startGame (profileWith 0 (upgradesAtLevels 3 0 0 2)) false 0 "")
  = 3 + IZR 3 + IZR 2.
Proof.
  apply (proj1 (proj2 startGame_lives_uncapped) 0%Z 3%Z 0%Z 0%Z 2%Z false 0%Z ""%string);
    lia.
Defined.

(** ** Ship upgrades *)

Lemma find_by_id (upgradeId : string) (upgrades : list ShipUpgrade) (upgrade : ShipUpgrade) :
  NoDup (map su_id upgrades) ->
  In upgrade upgrades ->
  su_id upgrade = upgradeId ->
  find (fun u => String.eqb (su_id u) upgradeId) upgrades = Some upgrade.
Proof.
  induction upgrades as [|u rest IH]; intros Hnd Hin Hid; [contradiction|].
  simpl in Hnd. inversion Hnd as [|? ? Hnotin Hnd']; subst.
  simpl. destruct (String.eqb_spec (su_id u) (su_id upgrade)) as [E|E].
  - destruct Hin as [->|Hin]; [reflexivity|].
    exfalso. apply Hnotin. rewrite E. apply in_map. exact Hin.
  - destruct Hin as [->|Hin]; [contradiction|]. apply IH; auto.
Qed.

Lemma find_unknown_id (upgradeId : string) (upgrades : list ShipUpgrade) :
  ~ In upgradeId (map su_id upgrades) ->
  find (fun u => String.eqb (su_id u) upgradeId) upgrades = None.
Proof.
  induction upgrades as [|u rest IH]; intros Hnotin; [reflexivity|].
  simpl. destruct (String.eqb_spec (su_id u) upgradeId) as [E|E].
  - exfalso. apply Hnotin. left. exact E.
  - apply IH. intros H. apply Hnotin. right. exact H.
Qed.

(** An unknown identifier buys nothing. *)
Lemma purchaseUpgrade_unknown (upgradeId : string) (prev : PlayerProgress) :
  ~ In upgradeId (map su_id (shipUpgrades prev)) ->
  purchaseUpgrade upgradeId prev = prev.
Proof.
  intros H. unfold purchaseUpgrade. rewrite (find_unknown_id _ _ H). reflexivity.
Qed.

(** The [map] of a purchase keeps every identifier. *)
Lemma levelUp_ids (upgradeId : string) (upgrades : list ShipUpgrade) :
  map su_id
    (map (fun u => if String.eqb (su_id u) upgradeId then levelUp u else u) upgrades)
  = map su_id upgrades.
Proof.
  induction upgrades as [|u rest IH]; simpl; [reflexivity|].
  rewrite IH. destruct (String.eqb (su_id u) upgradeId); reflexivity.
Qed.

(** The successful branch of a purchase, in one equation. *)
Lemma purchaseUpgrade_bought (upgradeId : string) (prev : PlayerProgress)
    (upgrade : ShipUpgrade) :
  find (fun u => String.eqb (su_id u) upgradeId) (shipUpgrades prev) = Some upgrade ->
  (currentLevel upgrade < maxLevel upgrade)%Z ->
  (su_cost upgrade * (currentLevel upgrade + 1) <= totalCoins prev)%Z ->
  purchaseUpgrade upgradeId prev
  = mkPlayerProgress
      (totalCoins prev - su_cost upgrade * (currentLevel upgrade + 1))%Z
      (map (fun u => if String.eqb (su_id u) upgradeId then levelUp u else u)
           (shipUpgrades prev))
      (gamesPlayed prev) (bestScore prev) (dailyChallenges prev)
      (lastChallengeReset prev) (pirateOutfits prev) (selectedOutfit prev)
      (totalEnemiesDefeated prev) (totalSurvivalTime prev).
Proof.
  intros Hf Hlvl Hcost. unfold purchaseUpgrade. rewrite Hf.
  destruct (Z.leb_spec (maxLevel upgrade) (currentLevel upgrade)); [lia|].
  destruct (Z.ltb_spec (totalCoins prev)
              (su_cost upgrade * (currentLevel upgrade + 1))); [lia|].
  reflexivity.
Qed.

(** C7.  In a profile whose upgrades have distinct identifiers, buying the
    upgrade [upgrade] by its identifier returns the profile itself when the
    upgrade is at its maximum level or the bank is below
    [cost * (currentLevel + 1)].  Otherwise the bank decreases by exactly
    that cost, the upgrade is replaced by itself one level up, every other
    upgrade and every other field of the profile is unchanged, and levels
    within their maxima stay within them. *)
Theorem purchaseUpgrade_spec (upgradeId : string) (prev : PlayerProgress)
    (upgrade : ShipUpgrade) :
  NoDup (map su_id (shipUpgrades prev)) ->
  In upgrade (shipUpgrades prev) ->
  su_id upgrade = upgradeId ->
  ((maxLevel upgrade <= currentLevel upgrade)%Z
   \/ (totalCoins prev < su_cost upgrade * (currentLevel upgrade + 1))%Z ->
   purchaseUpgrade upgradeId prev = prev)
  /\ ((currentLevel upgrade < maxLevel upgrade)%Z ->
      (su_cost upgrade * (currentLevel upgrade + 1) <= totalCoins prev)%Z ->
      totalCoins (purchaseUpgrade upgradeId prev)
      = (totalCoins prev - su_cost upgrade * (currentLevel upgrade + 1))%Z
      /\ (forall i u,
             nth_error (shipUpgrades prev) i = Some u ->
             (u = upgrade
              /\ nth_error (shipUpgrades (purchaseUpgrade upgradeId prev)) i
                 = Some (levelUp upgrade))
             \/ (su_id u <> upgradeId
                 /\ nth_error (shipUpgrades (purchaseUpgrade upgradeId prev)) i
                    = Some u))
      /\ List.length (shipUpgrades (purchaseUpgrade upgradeId prev))
         = List.length (shipUpgrades prev)
      /\ currentLevel (levelUp upgrade) = (currentLevel upgrade + 1)%Z
      /\ (currentLevel (levelUp upgrade) <= maxLevel (levelUp upgrade))%Z
      /\ (upgradesWithinMax (shipUpgrades prev) ->
          upgradesWithinMax (shipUpgrades (purchaseUpgrade upgradeId prev)))
      /\ gamesPlayed (purchaseUpgrade upgradeId prev) = gamesPlayed prev
      /\ bestScore (purchaseUpgrade upgradeId prev) = bestScore prev
      /\ dailyChallenges (purchaseUpgrade upgradeId prev) = dailyChallenges prev
      /\ lastChallengeReset (purchaseUpgrade upgradeId prev) = lastChallengeReset prev
      /\ pirateOutfits (purchaseUpgrade upgradeId prev) = pirateOutfits prev
      /\ selectedOutfit (purchaseUpgrade upgradeId prev) = selectedOutfit prev
      /\ totalEnemiesDefeated (purchaseUpgrade upgradeId prev)
         = totalEnemiesDefeated prev
      /\ totalSurvivalTime (purchaseUpgrade upgradeId prev) = totalSurvivalTime prev).
Proof.
  intros Hnd Hin Hid.
  pose proof (find_by_id upgradeId _ upgrade Hnd Hin Hid) as Hf.
  split.
  - intros Hno. unfold purchaseUpgrade. rewrite Hf.
    destruct (Z.leb_spec (maxLevel upgrade) (currentLevel upgrade)); [reflexivity|].
    destruct (Z.ltb_spec (totalCoins prev)
                (su_cost upgrade * (currentLevel upgrade + 1))); [reflexivity|].
    lia.
  - intros Hlvl Hcost.
    rewrite (purchaseUpgrade_bought upgradeId prev upgrade Hf Hlvl Hcost).
    cbn [totalCoins shipUpgrades gamesPlayed bestScore dailyChallenges
         lastChallengeReset pirateOutfits selectedOutfit totalEnemiesDefeated
         totalSurvivalTime].
    split; [reflexivity|]. split.
    { intros i u Hi. rewrite nth_error_map, Hi. simpl.
      destruct (String.eqb_spec (su_id u) upgradeId) as [E|E].
      - left. assert (u = upgrade); [|subst u; split; reflexivity].
        apply nth_error_In in Hi.
        pose proof (find_by_id upgradeId _ u Hnd Hi E) as Hf'. congruence.
      - right. split; [exact E | reflexivity]. }
    split; [apply length_map|].
    split; [reflexivity|]. split; [simpl; lia|]. split.
    { intros Hmax. unfold upgradesWithinMax in *.
      apply Forall_forall. intros u' Hu'. apply in_map_iff in Hu'.
      destruct Hu' as (u & <- & Hu).
      pose proof (proj1 (Forall_forall _ _) Hmax u Hu) as Hle.
      destruct (String.eqb_spec (su_id u) upgradeId) as [E|E]; [|exact Hle].
      assert (u = upgrade).
      { pose proof (find_by_id upgradeId _ u Hnd Hu E) as Hf'. congruence. }
      subst u. simpl. lia. }
    repeat split; reflexivity.
Qed.

Lemma defaultShipUpgrades_ids : NoDup (map su_id defaultShipUpgrades).
Proof.
  unfold defaultShipUpgrades; simpl.
  repeat (apply NoDup_cons; [simpl; intuition discriminate|]). apply NoDup_nil.
Qed.

(** C7 on the initial upgrades with 60 coins banked: the hull costs 50 at
    level 0, so the purchase leaves 10 coins; with 40 coins it is refused. *)
Lemma purchaseUpgrade_spec_witness :
  totalCoins (purchaseUpgrade "hull" (profileWith 60 defaultShipUpgrades)) = 10%Z
  /\ purchaseUpgrade "hull" (profileWith 40 defaultShipUpgrades)
     = profileWith 40 defaultShipUpgrades.
Proof.
  split.
  - apply (proj2 (purchaseUpgrade_spec "hull" (profileWith 60 defaultShipUpgrades)
                    hullUpgrade defaultShipUpgrades_ids
                    (or_introl eq_refl) eq_refl));
      simpl; lia.
  - apply (proj1 (purchaseUpgrade_spec "hull" (profileWith 40 defaultShipUpgrades)
                    hullUpgrade defaultShipUpgrades_ids
                    (or_introl eq_refl) eq_refl)).
    right. simpl. lia.
Defined.

(** ** Challenges of type "enemies" *)

Lemma generateDailyChallenges_fresh (shuffled : list ChallengeTemplate) :
  Forall (fun c => dc_type c = ChEnemies -> progress c = 0%Z /\ completed c = false)
         (generateDailyChallenges shuffled).
Proof.
  unfold generateDailyChallenges. apply Forall_forall. intros c Hc.
  apply in_map_iff in Hc. destruct Hc as (t & <- & _). simpl. auto.
Qed.

(** An update of another type passes over an enemies challenge. *)
Lemma updateChallengeProgress_enemies (type : ChallengeType) (amount : Z)
    (prev : PlayerProgress) :
  type <> ChEnemies ->
  enemiesUntouched prev ->
  enemiesUntouched (updateChallengeProgress type amount prev).
Proof.
  intros Ht [Hch Hdef]. split; [|exact Hdef].
  unfold updateChallengeProgress. cbn [dailyChallenges].
  apply Forall_forall. intros c' Hc'. apply in_map_iff in Hc'.
  destruct Hc' as (c & <- & Hc).
  pose proof (proj1 (Forall_forall _ _) Hch c Hc) as Hinv.
  destruct (ChallengeType_eqb (dc_type c) type) eqn:E; simpl; [|exact Hinv].
  assert (dc_type c <> ChEnemies).
  { intros Hc0. rewrite Hc0 in E. destruct type; simpl in E; congruence. }
  destruct (negb (completed c)); simpl; [|exact Hinv].
  destruct (target c <=? progress c + amount)%Z; simpl; intros; contradiction.
Qed.

Lemma updateChallengeProgress_fields (type : ChallengeType) (amount : Z)
    (prev : PlayerProgress) :
  totalCoins (updateChallengeProgress type amount prev) = totalCoins prev
  /\ gamesPlayed (updateChallengeProgress type amount prev) = gamesPlayed prev
  /\ bestScore (updateChallengeProgress type amount prev) = bestScore prev
  /\ shipUpgrades (updateChallengeProgress type amount prev) = shipUpgrades prev
  /\ totalEnemiesDefeated (updateChallengeProgress type amount prev)
     = totalEnemiesDefeated prev
  /\ totalSurvivalTime (updateChallengeProgress type amount prev)
     = totalSurvivalTime prev.
Proof. repeat split; reflexivity. Qed.

Lemma handleGameOver_enemies (gameState : GameState)
    (playerProgress prev : PlayerProgress) :
  enemiesUntouched prev ->
  enemiesUntouched (handleGameOver gameState playerProgress prev).
Proof.
  intros H.
  assert (H3 : enemiesUntouched
                 (updateChallengeProgress ChSurvival (score gameState / 10)%Z
                    (updateChallengeProgress ChCoins (coins gameState)
                       (updateChallengeProgress ChScore (score gameState) prev)))).
  { repeat (apply updateChallengeProgress_enemies; [discriminate|]). exact H. }
  destruct H3 as [Hch Hdef]. split; [exact Hch | exact Hdef].
Qed.

Lemma purchaseUpgrade_challenges (upgradeId : string) (prev : PlayerProgress) :
  dailyChallenges (purchaseUpgrade upgradeId prev) = dailyChallenges prev
  /\ totalEnemiesDefeated (purchaseUpgrade upgradeId prev) = totalEnemiesDefeated prev.
Proof.
  unfold purchaseUpgrade.
  destruct (find _ _) as [u|]; [|split; reflexivity].
  destruct (maxLevel u <=? currentLevel u)%Z; [split; reflexivity|].
  destruct (totalCoins prev <? _)%Z; split; reflexivity.
Qed.

Lemma purchaseOutfit_challenges (outfitId : string) (prev : PlayerProgress) :
  dailyChallenges (purchaseOutfit outfitId prev) = dailyChallenges prev
  /\ totalEnemiesDefeated (purchaseOutfit outfitId prev) = totalEnemiesDefeated prev.
Proof.
  unfold purchaseOutfit.
  destruct (find _ _) as [o|]; [|split; reflexivity].
  destruct (unlocked o || _); split; reflexivity.
Qed.

Lemma gameLoop_playerProgress_challenges (gameState : GameState) (prev : PlayerProgress) :
  dailyChallenges (gameLoop_playerProgress gameState prev) = dailyChallenges prev
  /\ totalEnemiesDefeated (gameLoop_playerProgress gameState prev)
     = totalEnemiesDefeated prev.
Proof.
  unfold gameLoop_playerProgress. destruct (_ && _); split; reflexivity.
Qed.

Lemma reload_enemies (p : PlayerProgress) (today : string)
    (shuffled : list ChallengeTemplate) :
  enemiesUntouched p ->
  enemiesUntouched (initialPlayerProgress (Some (storeProgress p)) today shuffled).
Proof.
  intros [Hch Hdef]. unfold initialPlayerProgress, storeProgress, enemiesUntouched.
  cbn. split; [|exact Hdef].
  destruct (negb _); [apply generateDailyChallenges_fresh | exact Hch].
Qed.

Lemma graceTimerEffect_progress (w : World) :
  w_playerProgress (graceTimerEffect w) = w_playerProgress w.
Proof. unfold graceTimerEffect. destruct (_ && _); reflexivity. Qed.

Lemma graceTimerEffect_gameState (w : World) :
  w_gameState (graceTimerEffect w) = w_gameState w.
Proof. unfold graceTimerEffect. destruct (_ && _); reflexivity. Qed.

Lemma graceTimerEffect_now (w : World) : now (graceTimerEffect w) = now w.
Proof. unfold graceTimerEffect. destruct (_ && _); reflexivity. Qed.

Lemma elapse_fields (dt : Z) (w w1 : World) :
  elapse dt w = Some w1 ->
  w_playerProgress w1 = w_playerProgress w
  /\ w_gameState w1 = w_gameState w
  /\ w_gameOverTimer w1 = w_gameOverTimer w
  /\ now w1 = (now w + dt)%Z.
Proof.
  unfold elapse. destruct (dt <? 0)%Z; [discriminate|].
  destruct (w_gameOverTimer w) as [t|] eqn:E.
  - destruct (deadline t <=? now w + dt)%Z; [discriminate|].
    intros [= <-]. simpl. auto.
  - intros [= <-]. simpl. auto.
Qed.

(** What an event's handler does to the profile. *)
Lemma handle_enemies (e : Event) (w w2 : World) :
  handle e w = Some w2 ->
  enemiesUntouched (w_playerProgress w) ->
  enemiesUntouched (w_playerProgress w2).
Proof.
  intros Hh Hinv. destruct e; simpl in Hh.
  - injection Hh as <-. cbn [w_playerProgress].
    destruct (gameLoop_playerProgress_challenges (w_gameState w) (w_playerProgress w))
      as [E1 E2].
    destruct Hinv as [Hc Hd]. split; [rewrite E1 | rewrite E2]; assumption.
  - destruct (w_gameOverTimer w) as [t|]; [|discriminate].
    injection Hh as <-. cbn [timerCallback w_playerProgress].
    apply handleGameOver_enemies. exact Hinv.
  - destruct (isPlaying (w_gameState w)); [discriminate|].
    injection Hh as <-. exact Hinv.
  - destruct (isPlaying (w_gameState w)); [|discriminate].
    injection Hh as <-. exact Hinv.
  - injection Hh as <-. cbn [w_playerProgress].
    destruct (purchaseUpgrade_challenges upgradeId (w_playerProgress w)) as [E1 E2].
    destruct Hinv as [Hc Hd]. split; [rewrite E1 | rewrite E2]; assumption.
  - injection Hh as <-. cbn [w_playerProgress].
    destruct (purchaseOutfit_challenges outfitId (w_playerProgress w)) as [E1 E2].
    destruct Hinv as [Hc Hd]. split; [rewrite E1 | rewrite E2]; assumption.
  - injection Hh as <-. exact Hinv.
  - injection Hh as <-. cbn [w_playerProgress]. apply reload_enemies. exact Hinv.
Qed.

(** A step is an optional delay, the handler, then the effect. *)
Lemma step_inv (w w' : World) (e : Event) :
  step w e = Some w' ->
  exists w1 w2,
    w_playerProgress w1 = w_playerProgress w
    /\ w_gameState w1 = w_gameState w
    /\ w_gameOverTimer w1 = w_gameOverTimer w
    /\ handle e w1 = Some w2
    /\ w' = graceTimerEffect w2.
Proof.
  unfold step. destruct (eventDelay e) as [dt|].
  - destruct (elapse dt w) as [w1|] eqn:E1; [|discriminate].
    destruct (handle e w1) as [w2|] eqn:E2; [|discriminate].
    intros [= <-]. exists w1, w2.
    destruct (elapse_fields dt w w1 E1) as (H1 & H2 & H3 & _). auto.
  - destruct (handle e w) as [w2|] eqn:E2; [|discriminate].
    intros [= <-]. exists w, w2. auto.
Qed.

Lemma step_enemies (w w' : World) (e : Event) :
  step w e = Some w' ->
  enemiesUntouched (w_playerProgress w) ->
  enemiesUntouched (w_playerProgress w').
Proof.
  intros Hs Hinv.
  destruct (step_inv w w' e Hs) as (w1 & w2 & Hp & _ & _ & Hh & ->).
  rewrite graceTimerEffect_progress.
  apply (handle_enemies e w1 w2 Hh). rewrite Hp. exact Hinv.
Qed.

(** No handler writes the count of defeated enemies. *)
Lemma handle_enemiesDefeated (e : Event) (w w2 : World) :
  handle e w = Some w2 ->
  totalEnemiesDefeated (w_playerProgress w2)
  = totalEnemiesDefeated (w_playerProgress w).
Proof.
  intros Hh. destruct e; simpl in Hh.
  - injection Hh as <-. cbn [w_playerProgress].
    apply gameLoop_playerProgress_challenges.
  - destruct (w_gameOverTimer w) as [t|]; [|discriminate].
    injection Hh as <-. reflexivity.
  - destruct (isPlaying (w_gameState w)); [discriminate|].
    injection Hh as <-. reflexivity.
  - destruct (isPlaying (w_gameState w)); [|discriminate].
    injection Hh as <-. reflexivity.
  - injection Hh as <-. cbn [w_playerProgress]. apply purchaseUpgrade_challenges.
  - injection Hh as <-. cbn [w_playerProgress]. apply purchaseOutfit_challenges.
  - injection Hh as <-. reflexivity.
  - injection Hh as <-. reflexivity.
Qed.

Lemma step_enemiesDefeated (w w' : World) (e : Event) :
  step w e = Some w' ->
  totalEnemiesDefeated (w_playerProgress w')
  = totalEnemiesDefeated (w_playerProgress w).
Proof.
  intros Hs.
  destruct (step_inv w w' e Hs) as (w1 & w2 & Hp & _ & _ & Hh & ->).
  rewrite graceTimerEffect_progress, (handle_enemiesDefeated e w1 w2 Hh), Hp.
  reflexivity.
Qed.

Lemma fresh_enemies (today : string) (shuffled : list ChallengeTemplate)
    (mobile : bool) (seed : Z) (catchphrase : string) :
  enemiesUntouched
    (w_playerProgress (freshWorld today shuffled mobile seed catchphrase)).
Proof. split; [apply generateDailyChallenges_fresh | reflexivity]. Qed.

Lemma reachable_enemies (w : World) :
  Reachable w -> enemiesUntouched (w_playerProgress w).
Proof.
  induction 1 as [today shuffled mobile seed c | w e w' _ IH Hs].
  - apply fresh_enemies.
  - exact (step_enemies w w' e Hs IH).
Qed.

Lemma completedChallenges_types (gameState : GameState)
    (playerProgress : PlayerProgress) (c : DailyChallenge) :
  In c (completedChallenges gameState playerProgress) -> dc_type c <> ChEnemies.
Proof.
  unfold completedChallenges. intros Hc. apply filter_In in Hc.
  destruct Hc as [_ Hf]. intros Ht. rewrite Ht in Hf.
  destruct (completed c); simpl in Hf; discriminate.
Qed.

(** C9.  In every state the game can reach from a first visit, each
    challenge of type "enemies" has progress 0 and is not completed, and
    the count of defeated enemies is 0; the challenges [handleGameOver]
    rewards never include one of type "enemies"; the progress updates
    [handleGameOver] issues are of the types "score", "coins" and
    "survival" only; and no event changes the count of defeated enemies. *)
Theorem enemies_challenge_never_advances :
  (forall w, Reachable w ->
     (forall c, In c (dailyChallenges (w_playerProgress w)) ->
                dc_type c = ChEnemies ->
                progress c = 0%Z /\ completed c = false)
     /\ totalEnemiesDefeated (w_playerProgress w) = 0%Z)
  /\ (forall gameState playerProgress c,
        In c (completedChallenges gameState playerProgress) ->
        dc_type c <> ChEnemies)
  /\ (forall gameState playerProgress prev,
        dailyChallenges (handleGameOver gameState playerProgress prev)
        = dailyChallenges
            (updateChallengeProgress ChSurvival (score gameState / 10)%Z
               (updateChallengeProgress ChCoins (coins gameState)
                  (updateChallengeProgress ChScore (score gameState) prev))))
  /\ (forall w e w',
        step w e = Some w' ->
        totalEnemiesDefeated (w_playerProgress w')
        = totalEnemiesDefeated (w_playerProgress w)).
Proof.
  split; [|split; [|split]].
  - intros w Hw. destruct (reachable_enemies w Hw) as [Hch Hdef].
    split; [|exact Hdef].
    intros c Hc. exact (proj1 (Forall_forall _ _) Hch c Hc).
  - exact completedChallenges_types.
  - reflexivity.
  - intros w e w'. apply step_enemiesDefeated.
Qed.

(** ** A first run down to one life *)

Lemma firstRun_lives : lives firstRun = 3.
Proof.
  unfold firstRun, startGame, firstProfile.
  cbn [lives initialPlayerProgress shipUpgrades].
  change defaultShipUpgrades with (upgradesAtLevels 0 0 0 0).
  destruct (calculateShipBoosts_levels 0 0 0 0) as [-> ->].
  rewrite Rmax_above by lra. lra.
Qed.

Lemma crabAtPlayer_hit : obstacleCollision startPlayer crabAtPlayer = [loseLife].
Proof. unfold obstacleCollision. rewrite crabAtPlayer_collides. reflexivity. Qed.

Lemma coinAtPlayer_hit : coinCollision startPlayer coinAtPlayer = [addCoinsScore 1 10].
Proof.
  unfold coinCollision.
  assert (E : checkCollision startPlayer coinAtPlayer = true).
  { unfold checkCollision, Rltb; simpl. decide_cmp; reflexivity. }
  rewrite E. reflexivity.
Qed.

(** The session after a frame of a run with [l > 1] lives in which the crab
    hits, and after a further pick-up of the coin. *)
Lemma sessionAt_hit (sc co : Z) (l : R) :
  addCoinsScore 0 1 (loseLife (sessionAt true sc co l))
  = sessionAt true (sc + 1) (co + 0) (Rmax 1 (l - 1)).
Proof. reflexivity. Qed.

Lemma graceTimerEffect_above (w : World) :
  1 < lives (w_gameState w) -> graceTimerEffect w = w.
Proof.
  intros H. unfold graceTimerEffect.
  rewrite (proj2 (Rleb_false _ _) H). reflexivity.
Qed.

Lemma graceTimerEffect_stopped (w : World) :
  isPlaying (w_gameState w) = false -> graceTimerEffect w = w.
Proof.
  intros H. unfold graceTimerEffect. rewrite H, andb_false_r. reflexivity.
Qed.

Lemma graceTimerEffect_armed (w : World) :
  lives (w_gameState w) <= 1 ->
  isPlaying (w_gameState w) = true ->
  graceTimerEffect w
  = mkWorld (now w) (w_gameState w) (w_playerProgress w)
      (Some (mkTimer (now w + 2000)%Z (w_gameState w) (w_playerProgress w))).
Proof.
  intros Hl Hp. unfold graceTimerEffect.
  rewrite (proj2 (Rleb_true _ _) Hl), Hp. reflexivity.
Qed.

Lemma step_start :
  step firstVisit (StartGame 0 false 7 "Arrr")
  = Some (mkWorld 0 firstRun firstProfile None).
Proof.
  unfold step, firstVisit, freshWorld. cbn [eventDelay].
  unfold elapse.
  cbn [Z.ltb Z.compare w_gameOverTimer now w_gameState w_playerProgress Z.add].
  cbn [handle w_gameState initialGameState isPlaying now w_playerProgress].
  fold firstProfile. fold firstRun.
  rewrite graceTimerEffect_above; [reflexivity|].
  cbn [w_gameState]. rewrite firstRun_lives. lra.
Qed.

Lemma step_first_hit :
  step (mkWorld 0 firstRun firstProfile None)
       (AnimationFrame 16 startPlayer [crabAtPlayer] [] [coinAtPlayer] [])
  = Some (mkWorld 16 (sessionAt true 11 1 2) firstProfile None).
Proof.
  unfold step. cbn [eventDelay]. unfold elapse.
  cbn [Z.ltb Z.compare w_gameOverTimer now w_gameState w_playerProgress Z.add].
  cbn [handle w_gameState now w_playerProgress w_gameOverTimer].
  unfold gameLoop_gameState, gameLoop_playerProgress, gameLoopUpdaters,
    collisionDeductions.
  change (gameLoopRuns firstRun) with true. cbn [andb flat_map app].
  rewrite crabAtPlayer_hit, coinAtPlayer_hit, firstRun_lives.
  rewrite (proj2 (Rleb_false 3 1)) by lra.
  cbn [app applyUpdaters fold_left].
  change firstRun with (sessionAt true 0 0 (lives firstRun)).
  rewrite sessionAt_hit.
  change (lives (sessionAt true 0 0 (lives firstRun))) with (lives firstRun).
  rewrite firstRun_lives.
  replace (Rmax 1 (3 - 1)) with 2 by (rewrite Rmax_above; lra).
  rewrite graceTimerEffect_above by (simpl; lra).
  reflexivity.
Qed.

Lemma step_second_hit :
  step (mkWorld 16 (sessionAt true 11 1 2) firstProfile None)
       (AnimationFrame 16 startPlayer [crabAtPlayer] [] [] [])
  = Some atFloor.
Proof.
  unfold step. cbn [eventDelay]. unfold elapse.
  cbn [Z.ltb Z.compare w_gameOverTimer now w_gameState w_playerProgress Z.add].
  cbn [handle w_gameState now w_playerProgress w_gameOverTimer].
  unfold gameLoop_gameState, gameLoop_playerProgress, gameLoopUpdaters,
    collisionDeductions.
  change (gameLoopRuns (sessionAt true 11 1 2)) with true.
  cbn [andb flat_map app lives sessionAt].
  rewrite crabAtPlayer_hit.
  rewrite (proj2 (Rleb_false 2 1)) by lra.
  cbn [app applyUpdaters fold_left].
  fold (sessionAt true 11 1 2).
  rewrite sessionAt_hit.
  replace (Rmax 1 (2 - 1)) with 1 by (rewrite Rmax_above; lra).
  rewrite graceTimerEffect_armed by (simpl; first [lra | reflexivity]).
  reflexivity.
Qed.

Lemma atFloor_reachable : Reachable atFloor.
Proof.
  eapply Reachable_step; [|exact step_second_hit].
  eapply Reachable_step; [|exact step_first_hit].
  eapply Reachable_step; [|exact step_start].
  apply Reachable_fresh.
Qed.

(** ** The end of a run *)

(** While the run is at the floor, the timer armed by the last commit is
    pending, due 2000 ms after that commit. *)
Lemma reachable_timer_armed (w : World) :
  Reachable w ->
  lives (w_gameState w) <= 1 ->
  isPlaying (w_gameState w) = true ->
  w_gameOverTimer w
  = Some (mkTimer (now w + 2000)%Z (w_gameState w) (w_playerProgress w)).
Proof.
  intros Hr Hl Hp. destruct Hr as [today shuffled mobile seed c | w0 e w Hr Hs].
  - discriminate Hp.
  - destruct (step_inv w0 w e Hs) as (w1 & w2 & _ & _ & _ & _ & ->).
    rewrite graceTimerEffect_gameState in Hl, Hp.
    rewrite (graceTimerEffect_armed w2 Hl Hp). reflexivity.
Qed.

Ltac updater_single :=
  first [ apply Forall_nil
        | apply Forall_cons;
          [ unfold isSessionUpdater;
            first [ left; reflexivity
                  | right; left; eexists; eexists; reflexivity
                  | right; right; left; reflexivity
                  | right; right; right; reflexivity ]
          | apply Forall_nil ] ].

Lemma gameLoopUpdaters_known (gameState : GameState) (player : Player)
    (obstacles : list Obstacle) (projectiles : list Projectile)
    (coinsPrev : list Coin) (powerUpsPrev : list PowerUp) :
  Forall isSessionUpdater
    (gameLoopUpdaters gameState player obstacles projectiles coinsPrev powerUpsPrev).
Proof.
  unfold gameLoopUpdaters, collisionDeductions.
  apply Forall_app; split.
  { apply Forall_app; split; apply Forall_flat_map, Forall_forall.
    - intros o _. unfold obstacleCollision.
      destruct (checkCollision player o); [|updater_single].
      destruct (isGap (ob_type o) && _); [updater_single|].
      destruct (isTreasureChest (ob_type o)); [updater_single|].
      destruct (negb _); updater_single.
    - intros p _. unfold projectileCollision.
      destruct (checkCollision player p); updater_single. }
  apply Forall_app; split; [updater_single|].
  apply Forall_app; split; [destruct (Rleb _ _); updater_single|].
  apply Forall_app; split; apply Forall_flat_map, Forall_forall.
  - intros c _. unfold coinCollision. destruct (negb _ && _); updater_single.
  - intros p _. unfold powerUpCollision.
    destruct (negb _ && _); [|updater_single].
    destruct (pu_type p); updater_single.
Qed.

(** No updater of the loop sets [isPlaying] back to true. *)
Lemma updater_stays_stopped (u : GameState -> GameState) (s : GameState) :
  isSessionUpdater u -> isPlaying s = false -> isPlaying (u s) = false.
Proof.
  intros [->|[(c & sc & ->)|[->| ->]]] Hs; simpl; auto.
Qed.

Lemma applyUpdaters_stays_stopped (updaters : list (GameState -> GameState)) :
  Forall isSessionUpdater updaters ->
  forall s, isPlaying s = false -> isPlaying (applyUpdaters updaters s) = false.
Proof.
  unfold applyUpdaters.
  induction 1 as [|u us Hu _ IH]; intros s Hs; simpl; [exact Hs|].
  apply IH. apply updater_stays_stopped; assumption.
Qed.

(** A frame whose callback sees [lives <= 1] leaves the session stopped. *)
Lemma frame_at_floor_stops (gameState : GameState) (player : Player)
    (obstacles : list Obstacle) (projectiles : list Projectile)
    (coinsPrev : list Coin) (powerUpsPrev : list PowerUp) (prev : GameState) :
  gameLoopRuns gameState = true ->
  lives gameState <= 1 ->
  isPlaying (gameLoop_gameState gameState player obstacles projectiles
               coinsPrev powerUpsPrev prev) = false.
Proof.
  intros Hrun Hl. unfold gameLoop_gameState. rewrite Hrun.
  pose proof (gameLoopUpdaters_known gameState player obstacles projectiles
                coinsPrev powerUpsPrev) as Hk.
  unfold gameLoopUpdaters in *. rewrite (proj2 (Rleb_true _ _) Hl) in *.
  rewrite !applyUpdaters_app.
  apply Forall_app in Hk; destruct Hk as [_ Hk].
  apply Forall_app in Hk; destruct Hk as [_ Hk].
  apply Forall_app in Hk; destruct Hk as [_ Hk].
  apply Forall_app in Hk; destruct Hk as [Hc Hp].
  apply applyUpdaters_stays_stopped; [exact Hp|].
  apply applyUpdaters_stays_stopped; [exact Hc|].
  reflexivity.
Qed.

Lemma gameLoop_playerProgress_at_floor (gameState : GameState) (prev : PlayerProgress) :
  gameLoopRuns gameState = true ->
  lives gameState <= 1 ->
  gameLoop_playerProgress gameState prev
  = mkPlayerProgress
      (totalCoins prev + coins gameState)%Z (shipUpgrades prev)
      (gamesPlayed prev + 1)%Z
      (Z.max (bestScore prev) (totalCoins prev + coins gameState))%Z
      (dailyChallenges prev) (lastChallengeReset prev)
      (pirateOutfits prev) (selectedOutfit prev)
      (totalEnemiesDefeated prev) (totalSurvivalTime prev).
Proof.
  intros Hrun Hl. unfold gameLoop_playerProgress.
  rewrite Hrun, (proj2 (Rleb_true _ _) Hl). reflexivity.
Qed.

(** The step of an animation frame on a run at the floor with its timer
    pending. *)
Lemma step_frame_at_floor (w : World) (t : Timer) (dt : Z) (player : Player)
    (obstacles : list Obstacle) (projectiles : list Projectile)
    (coinsPrev : list Coin) (powerUpsPrev : list PowerUp) :
  isPlaying (w_gameState w) = true ->
  isPaused (w_gameState w) = false ->
  lives (w_gameState w) <= 1 ->
  w_gameOverTimer w = Some t ->
  (0 <= dt)%Z ->
  (now w + dt < deadline t)%Z ->
  step w (AnimationFrame dt player obstacles projectiles coinsPrev powerUpsPrev)
  = Some (mkWorld (now w + dt)%Z
            (gameLoop_gameState (w_gameState w) player obstacles projectiles
               coinsPrev powerUpsPrev (w_gameState w))
            (gameLoop_playerProgress (w_gameState w) (w_playerProgress w))
            (Some t)).
Proof.
  intros Hp Hq Hl Ht Hdt Hd.
  assert (Hrun : gameLoopRuns (w_gameState w) = true)
    by (unfold gameLoopRuns; rewrite Hp, Hq; reflexivity).
  unfold step. cbn [eventDelay]. unfold elapse. rewrite Ht.
  destruct (Z.ltb_spec dt 0); [lia|].
  destruct (Z.leb_spec (deadline t) (now w + dt)); [lia|].
  cbn [handle w_gameState now w_playerProgress w_gameOverTimer].
  rewrite graceTimerEffect_stopped; [reflexivity|].
  cbn [w_gameState]. apply frame_at_floor_stops; assumption.
Qed.

(** What [handleGameOver] alone does to the profile it is applied to. *)
Lemma handleGameOver_profile (gameState : GameState)
    (playerProgress prev : PlayerProgress) :
  totalCoins (handleGameOver gameState playerProgress prev)
  = (totalCoins prev + coins gameState
     + challengeRewards gameState playerProgress)%Z
  /\ gamesPlayed (handleGameOver gameState playerProgress prev)
     = (gamesPlayed prev + 1)%Z
  /\ bestScore (handleGameOver gameState playerProgress prev)
     = Z.max (bestScore prev) (score gameState)
  /\ totalSurvivalTime (handleGameOver gameState playerProgress prev)
     = (totalSurvivalTime prev + score gameState / 10)%Z.
Proof. repeat split; reflexivity. Qed.

(** C1, what the code does instead.  In every reachable state in which the
    session is playing, not paused, with lives at the floor, the game-over
    timer is pending and due in 2000 ms; yet any animation frame within
    those 2000 ms already sets [isPlaying] to false and updates the profile
    (one more game played, the run's coins banked, best score compared with
    bank plus coins) through the "Check game over" block of the game loop,
    before the timer expires, and the timer stays pending. *)
Theorem gameLoop_ends_run_before_grace_timer (w : World) (dt : Z)
    (player : Player) (obstacles : list Obstacle)
    (projectiles : list Projectile) (coinsPrev : list Coin)
    (powerUpsPrev : list PowerUp) :
  Reachable w ->
  isPlaying (w_gameState w) = true ->
  isPaused (w_gameState w) = false ->
  lives (w_gameState w) <= 1 ->
  (0 <= dt < 2000)%Z ->
  exists w',
    step w (AnimationFrame dt player obstacles projectiles coinsPrev powerUpsPrev)
    = Some w'
    /\ w_gameOverTimer w
       = Some (mkTimer (now w + 2000)%Z (w_gameState w) (w_playerProgress w))
    /\ now w' = (now w + dt)%Z
    /\ (now w' < now w + 2000)%Z
    /\ isPlaying (w_gameState w') = false
    /\ gamesPlayed (w_playerProgress w')
       = (gamesPlayed (w_playerProgress w) + 1)%Z
    /\ totalCoins (w_playerProgress w')
       = (totalCoins (w_playerProgress w) + coins (w_gameState w))%Z
    /\ bestScore (w_playerProgress w')
       = Z.max (bestScore (w_playerProgress w))
               (totalCoins (w_playerProgress w) + coins (w_gameState w))
    /\ w_gameOverTimer w' = w_gameOverTimer w.
Proof.
  intros Hr Hp Hq Hl Hdt.
  pose proof (reachable_timer_armed w Hr Hl Hp) as Ht.
  assert (Hrun : gameLoopRuns (w_gameState w) = true)
    by (unfold gameLoopRuns; rewrite Hp, Hq; reflexivity).
  eexists. split.
  { apply (step_frame_at_floor w _ dt player obstacles projectiles coinsPrev
             powerUpsPrev Hp Hq Hl Ht); simpl; lia. }
  cbn [now w_gameState w_playerProgress w_gameOverTimer].
  rewrite (gameLoop_playerProgress_at_floor _ _ Hrun Hl).
  cbn [gamesPlayed totalCoins bestScore].
  repeat split; try reflexivity; try lia; auto.
  apply frame_at_floor_stops; assumption.
Qed.

(** C1's divergence on the first run: at 32 ms one life is left and the
    timer is due at 2032 ms; the frame at 48 ms ends the run. *)
Lemma gameLoop_ends_run_before_grace_timer_witness :
  exists w',
    step atFloor (AnimationFrame 16 startPlayer [] [] [] []) = Some w'
    /\ w_gameOverTimer atFloor
       = Some (mkTimer (now atFloor + 2000)%Z (w_gameState atFloor)
                 (w_playerProgress atFloor))
    /\ now w' = (now atFloor + 16)%Z
    /\ (now w' < now atFloor + 2000)%Z
    /\ isPlaying (w_gameState w') = false
    /\ gamesPlayed (w_playerProgress w')
       = (gamesPlayed (w_playerProgress atFloor) + 1)%Z
    /\ totalCoins (w_playerProgress w')
       = (totalCoins (w_playerProgress atFloor) + coins (w_gameState atFloor))%Z
    /\ bestScore (w_playerProgress w')
       = Z.max (bestScore (w_playerProgress atFloor))
               (totalCoins (w_playerProgress atFloor) + coins (w_gameState atFloor))
    /\ w_gameOverTimer w' = w_gameOverTimer atFloor.
Proof.
  apply (gameLoop_ends_run_before_grace_timer atFloor 16 startPlayer [] [] [] []).
  - exact atFloor_reachable.
  - reflexivity.
  - reflexivity.
  - simpl; lra.
  - lia.
Defined.

(** C4, what the code does instead.  From every reachable state in which
    the session is playing, not paused, with lives at the floor, the next
    animation frame followed by the expiry of the timer updates the profile
    twice for the one run: the game loop's own block and then
    [handleGameOver].  Games played grow by 2, the run's coins are banked
    twice (plus the challenge rewards once), and the best score is first
    compared with bank plus coins. *)
Theorem run_end_update_applied_twice (w : World) (dt : Z)
    (player : Player) (obstacles : list Obstacle)
    (projectiles : list Projectile) (coinsPrev : list Coin)
    (powerUpsPrev : list PowerUp) (newCatchphrase : string) :
  Reachable w ->
  isPlaying (w_gameState w) = true ->
  isPaused (w_gameState w) = false ->
  lives (w_gameState w) <= 1 ->
  (0 <= dt < 2000)%Z ->
  exists w',
    run w [AnimationFrame dt player obstacles projectiles coinsPrev powerUpsPrev;
           TimerExpires newCatchphrase] = Some w'
    /\ now w' = (now w + 2000)%Z
    /\ isPlaying (w_gameState w') = false
    /\ w_gameOverTimer w' = None
    /\ gamesPlayed (w_playerProgress w')
       = (gamesPlayed (w_playerProgress w) + 2)%Z
    /\ totalCoins (w_playerProgress w')
       = (totalCoins (w_playerProgress w) + 2 * coins (w_gameState w)
          + challengeRewards (w_gameState w) (w_playerProgress w))%Z
    /\ bestScore (w_playerProgress w')
       = Z.max (Z.max (bestScore (w_playerProgress w))
                      (totalCoins (w_playerProgress w) + coins (w_gameState w)))
               (score (w_gameState w))
    /\ totalSurvivalTime (w_playerProgress w')
       = (totalSurvivalTime (w_playerProgress w) + score (w_gameState w) / 10)%Z.
Proof.
  intros Hr Hp Hq Hl Hdt.
  pose proof (reachable_timer_armed w Hr Hl Hp) as Ht.
  assert (Hrun : gameLoopRuns (w_gameState w) = true)
    by (unfold gameLoopRuns; rewrite Hp, Hq; reflexivity).
  eexists. split.
  { unfold run.
    rewrite (step_frame_at_floor w _ dt player obstacles projectiles coinsPrev
               powerUpsPrev Hp Hq Hl Ht) by (simpl; lia).
    unfold step. cbn [eventDelay handle w_gameOverTimer].
    rewrite graceTimerEffect_stopped by reflexivity. reflexivity. }
  cbn [timerCallback now w_gameState w_playerProgress w_gameOverTimer deadline
       closureGameState closureProgress].
  rewrite (gameLoop_playerProgress_at_floor _ _ Hrun Hl).
  destruct (handleGameOver_profile (w_gameState w) (w_playerProgress w)
              (mkPlayerProgress
                 (totalCoins (w_playerProgress w) + coins (w_gameState w))%Z
                 (shipUpgrades (w_playerProgress w))
                 (gamesPlayed (w_playerProgress w) + 1)%Z
                 (Z.max (bestScore (w_playerProgress w))
                    (totalCoins (w_playerProgress w) + coins (w_gameState w)))
                 (dailyChallenges (w_playerProgress w))
                 (lastChallengeReset (w_playerProgress w))
                 (pirateOutfits (w_playerProgress w))
                 (selectedOutfit (w_playerProgress w))
                 (totalEnemiesDefeated (w_playerProgress w))
                 (totalSurvivalTime (w_playerProgress w))))
    as (E1 & E2 & E3 & E4).
  rewrite E1, E2, E3, E4. cbn [totalCoins gamesPlayed bestScore totalSurvivalTime].
  repeat split; try reflexivity; lia.
Qed.

(** C4's divergence on the first run: one run, ended at one life with one
    coin collected, and the profile afterwards. *)
Lemma run_end_update_applied_twice_witness :
  exists w',
    run atFloor [AnimationFrame 16 startPlayer [] [] [] [];
                 TimerExpires "Blimey"] = Some w'
    /\ now w' = (now atFloor + 2000)%Z
    /\ isPlaying (w_gameState w') = false
    /\ w_gameOverTimer w' = None
    /\ gamesPlayed (w_playerProgress w')
       = (gamesPlayed (w_playerProgress atFloor) + 2)%Z
    /\ totalCoins (w_playerProgress w')
       = (totalCoins (w_playerProgress atFloor) + 2 * coins (w_gameState atFloor)
          + challengeRewards (w_gameState atFloor) (w_playerProgress atFloor))%Z
    /\ bestScore (w_playerProgress w')
       = Z.max (Z.max (bestScore (w_playerProgress atFloor))
                      (totalCoins (w_playerProgress atFloor)
                       + coins (w_gameState atFloor)))
               (score (w_gameState atFloor))
    /\ totalSurvivalTime (w_playerProgress w')
       = (totalSurvivalTime (w_playerProgress atFloor)
          + score (w_gameState atFloor) / 10)%Z.
Proof.
  apply (run_end_update_applied_twice atFloor 16 startPlayer [] [] [] [] "Blimey").
  - exact atFloor_reachable.
  - reflexivity.
  - reflexivity.
  - simpl; lra.
  - lia.
Defined.

(** The numbers of that run: one coin collected, two games counted and two
    coins banked. *)
Lemma first_run_counted_twice :
  coins (w_gameState atFloor) = 1%Z
  /\ gamesPlayed (w_playerProgress atFloor) = 0%Z
  /\ totalCoins (w_playerProgress atFloor) = 0%Z
  /\ challengeRewards (w_gameState atFloor) (w_playerProgress atFloor) = 0%Z.
Proof. repeat split; reflexivity. Qed.

(** *** A run to its end on a day with the "enemies" challenge *)

Lemma chestAtPlayer_collides : checkCollision startPlayer chestAtPlayer = true.
Proof.
  unfold checkCollision, Rltb; simpl. decide_cmp; reflexivity.
Qed.

Lemma chestAtPlayer_coins :
  obstacleCollision startPlayer chestAtPlayer = [addCoinsScore 5 50].
Proof. unfold obstacleCollision. rewrite chestAtPlayer_collides. reflexivity. Qed.

Lemma enemies_step_start :
  step enemiesVisit (StartGame 0 false 7 "Arrr")
  = Some (mkWorld 0 firstRun enemiesProfile None).
Proof.
  unfold step, enemiesVisit, freshWorld. cbn [eventDelay].
  unfold elapse.
  cbn [Z.ltb Z.compare w_gameOverTimer now w_gameState w_playerProgress Z.add].
  cbn [handle w_gameState initialGameState isPlaying now w_playerProgress].
  fold enemiesProfile.
  change (startGame enemiesProfile false 7 "Arrr") with firstRun.
  rewrite graceTimerEffect_above; [reflexivity|].
  cbn [w_gameState]. rewrite firstRun_lives. lra.
Qed.

Lemma enemies_step_chests :
  step (mkWorld 0 firstRun enemiesProfile None)
       (AnimationFrame 16 startPlayer (crabAtPlayer :: repeat chestAtPlayer 10)
          [] [] [])
  = Some (mkWorld 16 (sessionAt true 501 50 2) enemiesProfile None).
Proof.
  unfold step. cbn [eventDelay]. unfold elapse.
  cbn [Z.ltb Z.compare w_gameOverTimer now w_gameState w_playerProgress Z.add].
  cbn [handle w_gameState now w_playerProgress w_gameOverTimer].
  unfold gameLoop_gameState, gameLoop_playerProgress, gameLoopUpdaters,
    collisionDeductions.
  change (gameLoopRuns firstRun) with true. cbn [andb flat_map app repeat].
  rewrite crabAtPlayer_hit, chestAtPlayer_coins, firstRun_lives.
  rewrite (proj2 (Rleb_false 3 1)) by lra.
  cbn [app applyUpdaters fold_left].
  change firstRun with (sessionAt true 0 0 (lives firstRun)).
  change (lives (sessionAt true 0 0 (lives firstRun))) with (lives firstRun).
  replace (mkWorld 16 _ enemiesProfile None)
    with (mkWorld 16 (sessionAt true 501 50 (Rmax 1 (lives firstRun - 1)))
            enemiesProfile None) by reflexivity.
  rewrite firstRun_lives.
  replace (Rmax 1 (3 - 1)) with 2 by (rewrite Rmax_above; lra).
  rewrite graceTimerEffect_above by (simpl; lra).
  reflexivity.
Qed.

Lemma enemies_step_floor :
  step (mkWorld 16 (sessionAt true 501 50 2) enemiesProfile None)
       (AnimationFrame 16 startPlayer [crabAtPlayer] [] [] [])
  = Some enemiesAtFloor.
Proof.
  unfold step. cbn [eventDelay]. unfold elapse.
  cbn [Z.ltb Z.compare w_gameOverTimer now w_gameState w_playerProgress Z.add].
  cbn [handle w_gameState now w_playerProgress w_gameOverTimer].
  unfold gameLoop_gameState, gameLoop_playerProgress, gameLoopUpdaters,
    collisionDeductions.
  change (gameLoopRuns (sessionAt true 501 50 2)) with true.
  cbn [andb flat_map app lives sessionAt].
  rewrite crabAtPlayer_hit.
  rewrite (proj2 (Rleb_false 2 1)) by lra.
  cbn [app applyUpdaters fold_left].
  fold (sessionAt true 501 50 2).
  rewrite sessionAt_hit.
  replace (Rmax 1 (2 - 1)) with 1 by (rewrite Rmax_above; lra).
  rewrite graceTimerEffect_armed by (simpl; first [lra | reflexivity]).
  reflexivity.
Qed.

Lemma enemies_step_end :
  step enemiesAtFloor (TimerExpires "Blimey") = Some enemiesRunEnd.
Proof.
  unfold step. cbn [eventDelay handle enemiesAtFloor w_gameOverTimer].
  rewrite graceTimerEffect_stopped; reflexivity.
Qed.

Lemma enemiesRunEnd_reachable : Reachable enemiesRunEnd.
Proof.
  eapply Reachable_step; [|exact enemies_step_end].
  eapply Reachable_step; [|exact enemies_step_floor].
  eapply Reachable_step; [|exact enemies_step_chests].
  eapply Reachable_step; [|exact enemies_step_start].
  apply Reachable_fresh.
Qed.

(** C9 after a whole run on a day whose challenges include "Defeat 10
    enemies".  The run collected 50 coins and scored 502; its end counted
    the game, completed the coin challenge and paid its reward of 25 on top
    of the 50 coins; the "enemies" challenge is still in the list as it was
    generated, at progress 0 and not completed, its reward of 30 unpaid. *)
Lemma enemies_challenge_never_advances_witness :
  gamesPlayed (w_playerProgress enemiesRunEnd) = 1%Z
  /\ totalCoins (w_playerProgress enemiesRunEnd) = (50 + 25)%Z
  /\ In coinsChallengeDone (dailyChallenges (w_playerProgress enemiesRunEnd))
  /\ In enemiesChallenge (dailyChallenges (w_playerProgress enemiesRunEnd))
  /\ (forall c, In c (dailyChallenges (w_playerProgress enemiesRunEnd)) ->
                dc_type c = ChEnemies ->
                progress c = 0%Z /\ completed c = false)
  /\ totalEnemiesDefeated (w_playerProgress enemiesRunEnd) = 0%Z.
Proof.
  destruct (proj1 enemies_challenge_never_advances enemiesRunEnd
              enemiesRunEnd_reachable) as [Hch Hdef].
  split; [reflexivity|]. split; [reflexivity|].
  split; [right; left; reflexivity|].
  split; [left; reflexivity|].
  split; [exact Hch | exact Hdef].
Defined.

(** ** Upgrades of reachable profiles *)

Lemma purchaseUpgrade_wellformed (upgradeId : string) (prev : PlayerProgress) :
  NoDup (map su_id (shipUpgrades prev)) ->
  upgradesWithinMax (shipUpgrades prev) ->
  NoDup (map su_id (shipUpgrades (purchaseUpgrade upgradeId prev)))
  /\ upgradesWithinMax (shipUpgrades (purchaseUpgrade upgradeId prev)).
Proof.
  intros Hnd Hmax. unfold purchaseUpgrade.
  destruct (find _ _) as [upgrade|] eqn:Hf; [|split; assumption].
  destruct (Z.leb_spec (maxLevel upgrade) (currentLevel upgrade)) as [|Hlvl];
    [split; assumption|].
  destruct (totalCoins prev <? _)%Z; [split; assumption|].
  cbn [shipUpgrades]. split.
  - pose proof (levelUp_ids upgradeId (shipUpgrades prev)) as Hids.
    unfold levelUp in Hids. rewrite Hids. exact Hnd.
  - unfold upgradesWithinMax in *. apply Forall_forall. intros u' Hu'.
    apply in_map_iff in Hu'. destruct Hu' as (u & <- & Hu).
    pose proof (proj1 (Forall_forall _ _) Hmax u Hu) as Hle.
    destruct (String.eqb_spec (su_id u) upgradeId) as [E|E]; [|exact Hle].
    assert (u = upgrade).
    { pose proof (find_by_id upgradeId _ u Hnd Hu E) as Hf'. congruence. }
    subst u. simpl. lia.
Qed.

Lemma handle_upgrades (e : Event) (w w2 : World) :
  handle e w = Some w2 ->
  shipUpgrades (w_playerProgress w2) = shipUpgrades (w_playerProgress w)
  \/ exists upgradeId,
       shipUpgrades (w_playerProgress w2)
       = shipUpgrades (purchaseUpgrade upgradeId (w_playerProgress w)).
Proof.
  intros Hh. destruct e; simpl in Hh.
  - injection Hh as <-. left. cbn [w_playerProgress].
    unfold gameLoop_playerProgress. destruct (_ && _); reflexivity.
  - destruct (w_gameOverTimer w) as [t|]; [|discriminate].
    injection Hh as <-. left. reflexivity.
  - destruct (isPlaying (w_gameState w)); [discriminate|].
    injection Hh as <-. left. reflexivity.
  - destruct (isPlaying (w_gameState w)); [|discriminate].
    injection Hh as <-. left. reflexivity.
  - injection Hh as <-. right. exists upgradeId. reflexivity.
  - injection Hh as <-. left. cbn [w_playerProgress]. unfold purchaseOutfit.
    destruct (find _ _) as [o|]; [|reflexivity].
    destruct (unlocked o || _); reflexivity.
  - injection Hh as <-. left. reflexivity.
  - injection Hh as <-. left. reflexivity.
Qed.

(** Every profile the game can reach has upgrades with distinct
    identifiers and levels within their maxima. *)
Lemma reachable_upgrades_wellformed (w : World) :
  Reachable w ->
  NoDup (map su_id (shipUpgrades (w_playerProgress w)))
  /\ upgradesWithinMax (shipUpgrades (w_playerProgress w)).
Proof.
  induction 1 as [today shuffled mobile seed c | w e w' _ [IHn IHm] Hs].
  - split; [exact defaultShipUpgrades_ids|].
    unfold upgradesWithinMax. cbn.
    repeat (apply Forall_cons; [simpl; lia|]). apply Forall_nil.
  - destruct (step_inv w w' e Hs) as (w1 & w2 & Hp & _ & _ & Hh & ->).
    rewrite graceTimerEffect_progress.
    destruct (handle_upgrades e w1 w2 Hh) as [E|[upgradeId E]];
      rewrite E, Hp; [split; assumption|].
    apply purchaseUpgrade_wellformed; assumption.
Qed.

(** ** The perturbation, key by key *)

Lemma getWeight_skip (pre rest : Weights) (k : ObstacleType) (v : R) :
  ~ In k (map fst pre) ->
  getWeight (pre ++ (k, v) :: rest)%list k = Some v.
Proof.
  induction pre as [|[k0 v0] pre IH]; intros Hnot; simpl.
  - rewrite ObstacleType_eqb_refl. reflexivity.
  - destruct (ObstacleType_eqb k0 k) eqn:E.
    + apply ObstacleType_eqb_eq in E. exfalso. apply Hnot. left. exact E.
    + apply IH. intros H. apply Hnot. right. exact H.
Qed.

Lemma setWeight_skip (pre rest : Weights) (k : ObstacleType) (v v' : R) :
  ~ In k (map fst pre) ->
  setWeight (pre ++ (k, v) :: rest)%list k v' = (pre ++ (k, v') :: rest)%list.
Proof.
  induction pre as [|[k0 v0] pre IH]; intros Hnot; simpl.
  - rewrite ObstacleType_eqb_refl. reflexivity.
  - destruct (ObstacleType_eqb k0 k) eqn:E.
    + apply ObstacleType_eqb_eq in E. exfalso. apply Hnot. left. exact E.
    + rewrite IH; [reflexivity|]. intros H. apply Hnot. right. exact H.
Qed.

Lemma fold_perturbObject (seed : Z) (suf : Weights) :
  forall pre : Weights,
    NoDup (map fst (pre ++ suf)%list) ->
    fold_left (perturbObject seed) (map fst suf) (pre ++ suf)%list
    = (pre ++ map (fun e => (fst e, Rmax 0.01 (snd e + adjustment seed (fst e))))
                  suf)%list.
Proof.
  induction suf as [|[k v] rest IH]; intros pre Hnd; [reflexivity|].
  assert (Hnot : ~ In k (map fst pre)).
  { rewrite map_app in Hnd. simpl in Hnd.
    apply NoDup_remove_2 in Hnd. intros H. apply Hnd. apply in_or_app. left. exact H. }
  cbn [map fold_left fst snd]. unfold perturbObject at 2.
  rewrite (getWeight_skip pre rest k v Hnot), (setWeight_skip pre rest k v _ Hnot).
  change (pre ++ (k, Rmax 0.01 (v + adjustment seed k)) :: rest)%list
    with (pre ++ [(k, Rmax 0.01 (v + adjustment seed k))] ++ rest)%list.
  rewrite app_assoc. rewrite IH.
  - rewrite <- app_assoc. reflexivity.
  - rewrite <- app_assoc. rewrite !map_app in *. exact Hnd.
Qed.

(** On an object (distinct keys) the loop adds the adjustment to every
    weight and floors it at 0.01, in place: the keys and their order are
    those of the base pattern. *)
Lemma perturbed_map (seed : Z) (baseWeights : Weights) :
  NoDup (map fst baseWeights) ->
  perturbed seed baseWeights
  = map (fun e => (fst e, Rmax 0.01 (snd e + adjustment seed (fst e)))) baseWeights.
Proof. intros Hnd. exact (fold_perturbObject seed baseWeights [] Hnd). Qed.

Lemma perturbed_positive (seed : Z) (baseWeights : Weights) :
  NoDup (map fst baseWeights) ->
  forall e, In e (perturbed seed baseWeights) -> 0.01 <= snd e.
Proof.
  intros Hnd e He. rewrite (perturbed_map seed baseWeights Hnd) in He.
  apply in_map_iff in He. destruct He as (e0 & <- & _). simpl. apply Rmax_l.
Qed.

(** ** Further checks of the embedding *)

(** A jump from the ground: the next frame moves the player up by 15 and
    leaves a vertical velocity of -15 + 0.8. *)
Lemma jump_then_physics :
  velocityY (physicsStep (jump plainSession startPlayer startPlayer)) = -15 + 0.8
  /\ y (physicsStep (jump plainSession startPlayer startPlayer)) = 300 - 15
  /\ isJumping (physicsStep (jump plainSession startPlayer startPlayer)) = true.
Proof.
  unfold jump, physicsStep, plainSession, startPlayer, JUMP_FORCE, GRAVITY.
  cbn [isJumping isPlaying negb andb pl_y velocityY groundY].
  rewrite (proj2 (Rleb_false 300 (300 + -15))) by lra.
  simpl. repeat split; lra.
Qed.

(** Seed 0 selects the first base pattern and variant 0. *)
Lemma pattern_of_seed_0 :
  exists h', generateAILevelPattern 0 initialHeap
             = Some (mkLevelPattern "Crab Invasion (Variant 0)" 6%nat, h').
Proof.
  eexists.
  rewrite (generateAILevelPattern_eq 0 initialHeap
             (mkLevelPattern "Crab Invasion" 0%nat)
             [(Crab, 0.4); (MoonwalkCrab, 0.3); (Barrel, 0.1); (Gap, 0.1);
              (Parrot, 0.05); (TreasureChest, 0.05)] eq_refl eq_refl).
  assert (E : Zfloor (jsRem1 (IZR 0 * 0.1) * 10) = 0%Z).
  { replace (IZR 0 * 0.1) with (IZR 0) by lra.
    unfold jsRem1. destruct (Rle_dec 0 (IZR 0)) as [_|Hn]; [|exfalso; lra].
    rewrite ZfloorZ. replace ((IZR 0 - IZR 0) * 10) with (IZR 0) by lra.
    apply ZfloorZ. }
  rewrite E. reflexivity.
Qed.

(** * Further properties of the code *)

(** ** Object identity in the stores *)

Lemma removeObj_absent {A : Type} (target : Ident) (store : list (Obj A)) :
  Forall (fun o => ident o <> target) store -> removeObj target store = store.
Proof.
  unfold removeObj. induction 1 as [|o rest Ho _ IH]; simpl; [reflexivity|].
  destruct (Nat.eqb_spec (ident o) target); [contradiction|].
  simpl. rewrite IH. reflexivity.
Qed.

Lemma removeAll_absent {A : Type} (targets : list Ident) (store : list (Obj A))
    (next : Ident) :
  Forall (fun t => (t < next)%nat) targets ->
  Forall (fun o => (next <= ident o)%nat) store ->
  fold_left (fun s target => removeObj target s) targets store = store.
Proof.
  intros Ht Hs. induction Ht as [|t ts Hlt _ IH]; simpl; [reflexivity|].
  rewrite removeObj_absent; [exact IH|].
  apply Forall_forall. intros o Ho.
  pose proof (proj1 (Forall_forall _ _) Hs o Ho) as Hle. cbv beta in Hle. lia.
Qed.

Lemma moveObstacles_idents (gameState : GameState) (animationFrame : Z)
    (prev : list (Obj Obstacle)) :
  forall next moved,
    moveObstacles gameState animationFrame next prev = Some moved ->
    Forall (fun o => (next <= ident o < next + List.length prev)%nat) moved.
Proof.
  induction prev as [|o rest IH]; intros next moved H; simpl in H.
  - injection H as <-. constructor.
  - destruct (moveObstacle gameState animationFrame (value o)) as [o'|];
      [|discriminate].
    destruct (moveObstacles gameState animationFrame (S next) rest) as [rest'|] eqn:E;
      [|discriminate].
    injection H as <-. constructor; [simpl; lia|].
    specialize (IH (S next) rest' E).
    apply Forall_forall. intros m Hm.
    pose proof (proj1 (Forall_forall _ _) IH m Hm) as Hle. cbv beta in Hle.
    simpl. lia.
Qed.

Lemma Forall_filter {A : Type} (P : A -> Prop) (f : A -> bool) (l : list A) :
  Forall P l -> Forall P (filter f l).
Proof.
  induction 1 as [|a l Ha _ IH]; simpl; [constructor|].
  destruct (f a); [constructor; assumption | assumption].
Qed.

Lemma updateObstacles_idents (gameState : GameState) (animationFrame : Z)
    (canvasWidth rand randX randY : R) (next : Ident) (h : Heap)
    (prev store : list (Obj Obstacle)) (next' : Ident) (h' : Heap) :
  updateObstacles gameState animationFrame canvasWidth rand randX randY next h prev
  = Some (store, next', h') ->
  Forall (fun o => (next <= ident o < next')%nat) store /\ (next <= next')%nat.
Proof.
  unfold updateObstacles.
  destruct (moveObstacles gameState animationFrame next prev) as [moved|] eqn:Em;
    [|discriminate].
  pose proof (moveObstacles_idents _ _ _ _ _ Em) as Hm.
  pose proof (Forall_filter _ (fun o => Rltb (- ob_width (value o)) (ob_x (value o)))
                _ Hm) as Hf.
  destruct (needsObstacle _).
  - destruct (generateObstacle _ _ _ _ _ _ _) as [[obstacle h1]|]; [|discriminate].
    intros [= <- <- <-]. split; [|lia].
    apply Forall_app. split.
    + apply Forall_forall. intros o Ho.
      pose proof (proj1 (Forall_forall _ _) Hf o Ho) as Hle. cbv beta in Hle. lia.
    + constructor; [simpl; lia | constructor].
  - intros [= <- <- <-]. split; [exact Hf | lia].
Qed.





Lemma allocate_idents {A : Type} (values : list A) :
  forall next,
    Forall (fun o => (next <= ident o < next + List.length values)%nat)
           (allocate next values).
Proof.
  induction values as [|v rest IH]; intros next; simpl; constructor.
  - simpl. lia.
  - apply Forall_forall. intros o Ho.
    pose proof (proj1 (Forall_forall _ _) (IH (S next)) o Ho) as Hle.
    cbv beta in Hle. simpl. lia.
Qed.

Lemma allocate_values {A : Type} (values : list A) :
  forall next, map value (allocate next values) = values.
Proof.
  induction values as [|v rest IH]; intros next; simpl; [reflexivity|].
  rewrite IH. reflexivity.
Qed.

(** X2.  The removal of a projectile that hit the player removes nothing,
    for the same reason: the frame's store is the moved and culled copies,
    followed by the new bananas.  A projectile that still overlaps the
    player in the next frame hits again. *)
Theorem projectile_removal_removes_nothing (next : Ident) (player : Player)
    (bananas : list Projectile) (projectiles : list (Obj Projectile)) :
  allocatedBefore next projectiles ->
  frameProjectiles next player bananas projectiles
  = (updateProjectiles next projectiles
     ++ allocate (next + List.length projectiles)%nat bananas)%list.
Proof.
  intros Ha. unfold frameProjectiles. f_equal.
  apply (removeAll_absent _ _ next).
  - unfold projectileHits. apply Forall_forall. intros t Ht.
    apply in_map_iff in Ht. destruct Ht as (o & <- & Ho).
    apply filter_In in Ho. destruct Ho as [Ho _].
    exact (proj1 (Forall_forall _ _) Ha o Ho).
  - unfold updateProjectiles. apply Forall_filter.
    apply Forall_forall. intros o Ho.
    pose proof (proj1 (Forall_forall _ _)
                  (allocate_idents (map (fun o => moveProjectile (value o)) projectiles)
                     next) o Ho) as Hle.
    cbv beta in Hle. lia.
Qed.

(** X2 on a store holding one banana on the player. *)
Lemma projectile_removal_removes_nothing_witness :
  projectileHits startPlayer [mkObj 0%nat bananaAtPlayer] = [0%nat]
  /\ frameProjectiles 1%nat startPlayer [] [mkObj 0%nat bananaAtPlayer]
     = (updateProjectiles 1%nat [mkObj 0%nat bananaAtPlayer]
        ++ allocate (1 + 1)%nat [])%list.
Proof.
  split.
  - unfold projectileHits. cbn [filter value].
    assert (E : checkCollision startPlayer bananaAtPlayer = true).
    { unfold checkCollision, Rltb; simpl. decide_cmp; reflexivity. }
    rewrite E. reflexivity.
  - apply projectile_removal_removes_nothing.
    unfold allocatedBefore. constructor; [simpl; lia | constructor].
Defined.

(** ** The obstacle store *)

Lemma moveObstacle_some (gameState : GameState) (animationFrame : Z)
    (obstacle : Obstacle) :
  wellBehaved obstacle ->
  exists o', moveObstacle gameState animationFrame obstacle = Some o'.
Proof.
  intros Hw. unfold moveObstacle.
  destruct (ob_type obstacle) eqn:Et; try (eexists; reflexivity).
  destruct (behavior obstacle) as [b|] eqn:Eb; [|eexists; reflexivity].
  destruct (Hw Et b Eb) as [Hf Ha].
  destruct (frequency b); [|contradiction].
  destruct (amplitude b); [|contradiction].
  eexists; reflexivity.
Qed.

(** What a move keeps and what it changes. *)
Lemma moveObstacle_keeps (gameState : GameState) (animationFrame : Z)
    (obstacle o' : Obstacle) :
  moveObstacle gameState animationFrame obstacle = Some o' ->
  ob_type o' = ob_type obstacle
  /\ behavior o' = behavior obstacle
  /\ ob_width o' = ob_width obstacle
  /\ ob_height o' = ob_height obstacle
  /\ (ob_type obstacle <> Parrot -> ob_y o' = ob_y obstacle)
  /\ (0 <= gameSpeed gameState -> ob_x o' <= ob_x obstacle).
Proof.
  unfold moveObstacle.
  destruct (ob_type obstacle) eqn:Et.
  all: try (intros [= <-]; simpl; rewrite ?Et;
            repeat split; try reflexivity; try congruence; intros; lra).
  destruct (behavior obstacle) as [b|] eqn:Eb.
  - destruct (frequency b); [|discriminate].
    destruct (amplitude b); [|discriminate].
    intros [= <-]; simpl; rewrite ?Et, ?Eb.
    repeat split; try reflexivity; try congruence; intros; lra.
  - intros [= <-]; simpl; rewrite ?Et, ?Eb.
    repeat split; try reflexivity; try congruence; intros; lra.
Qed.

Lemma moveObstacle_wellBehaved (gameState : GameState) (animationFrame : Z)
    (obstacle o' : Obstacle) :
  moveObstacle gameState animationFrame obstacle = Some o' ->
  wellBehaved obstacle -> wellBehaved o'.
Proof.
  intros Hm Hw.
  destruct (moveObstacle_keeps _ _ _ _ Hm) as (Et & Eb & _).
  unfold wellBehaved in *. rewrite Et, Eb. exact Hw.
Qed.

Lemma moveObstacles_some (gameState : GameState) (animationFrame : Z)
    (prev : list (Obj Obstacle)) :
  Forall (fun o => wellBehaved (value o)) prev ->
  forall next, exists moved,
    moveObstacles gameState animationFrame next prev = Some moved.
Proof.
  induction 1 as [|o rest Ho _ IH]; intros next; simpl; [eexists; reflexivity|].
  destruct (moveObstacle_some gameState animationFrame (value o) Ho) as [o' ->].
  destruct (IH (S next)) as [rest' ->]. eexists; reflexivity.
Qed.

(** A property of obstacles that every move keeps holds of the moved
    store. *)
Lemma moveObstacles_keep (P : Obstacle -> Prop) (gameState : GameState)
    (animationFrame : Z) :
  (forall o o', moveObstacle gameState animationFrame o = Some o' -> P o -> P o') ->
  forall prev next moved,
    Forall (fun o => P (value o)) prev ->
    moveObstacles gameState animationFrame next prev = Some moved ->
    Forall (fun o => P (value o)) moved.
Proof.
  intros Hkeep prev. induction prev as [|o rest IH]; intros next moved Hp Hm;
    simpl in Hm.
  - injection Hm as <-. constructor.
  - inversion Hp as [|? ? Ho Hrest]; subst.
    destruct (moveObstacle gameState animationFrame (value o)) as [o'|] eqn:Eo;
      [|discriminate].
    destruct (moveObstacles gameState animationFrame (S next) rest) as [rest'|] eqn:Er;
      [|discriminate].
    injection Hm as <-. constructor.
    + simpl. exact (Hkeep _ _ Eo Ho).
    + exact (IH (S next) rest' Hrest Er).
Qed.

(** The generator in closed form for a store that begins with the objects
    of the literal and a non-negative seed. *)
Lemma generateObstacle_some (levelSeed score : Z) (canvasWidth rand randX randY : R)
    (h : Heap) :
  heapExtends initialHeap h ->
  (0 <= patternSeed levelSeed score)%Z ->
  exists obstacle h',
    generateObstacle levelSeed score canvasWidth rand randX randY h
    = Some (obstacle, h')
    /\ heapExtends initialHeap h'
    /\ wellBehaved obstacle.
Proof.
  intros He Hs.
  destruct (patternAt (Z.rem (patternSeed levelSeed score)
                         (Z.of_nat (List.length LEVEL_PATTERNS))))
    as [basePattern|] eqn:Hp; [|exfalso; exact (patternAt_nonneg _ Hs Hp)].
  destruct (heapGet_base h _ _ He Hp) as (w1 & Hi1 & Hw1).
  unfold generateObstacle.
  rewrite (generateAILevelPattern_eq _ h basePattern w1 Hp Hw1).
  cbn [weights]. rewrite heapGet_new.
  eexists. eexists. split; [reflexivity|]. split.
  - apply (heapExtends_trans _ h); [exact He | eexists; reflexivity].
  - unfold wellBehaved.
    destruct (selectObstacleType (perturbed (patternSeed levelSeed score) w1) rand);
      simpl; intros Ht b Hb; try discriminate.
    injection Hb as <-. simpl. split; discriminate.
Qed.

(** Where and how the generator places an obstacle, whatever it selects. *)
Lemma generateObstacle_placed (levelSeed score : Z) (canvasWidth rand randX randY : R)
    (h h' : Heap) (obstacle : Obstacle) :
  generateObstacle levelSeed score canvasWidth rand randX randY h
  = Some (obstacle, h') ->
  ob_x obstacle = canvasWidth + randX * 200
  /\ (ob_type obstacle = Gap ->
      ob_y obstacle = 332 /\ ob_width obstacle = 60 /\ ob_height obstacle = 68)
  /\ (ob_type obstacle = TreasureChest ->
      ob_y obstacle = 300 /\ ob_width obstacle = 40 /\ ob_height obstacle = 28)
  /\ (ob_type obstacle <> Gap -> ob_type obstacle <> TreasureChest ->
      ob_width obstacle = 32 /\ ob_height obstacle = 32).
Proof.
  unfold generateObstacle.
  destruct (generateAILevelPattern _ h) as [[p h1]|]; [|discriminate].
  destruct (heapGet h1 (weights p)) as [entries|]; [|discriminate].
  destruct (selectObstacleType entries rand); intros [= <- <-]; simpl;
    repeat split; intros; try reflexivity; try discriminate; try contradiction.
Qed.

Lemma patternSeed_nonneg (levelSeed score : Z) :
  (0 <= levelSeed)%Z -> (0 <= score)%Z -> (0 <= patternSeed levelSeed score)%Z.
Proof.
  intros Hl Hs. unfold patternSeed.
  pose proof (Z.div_pos score 500 Hs). lia.
Qed.

(** X3.  On a store of the weights that begins with the [LEVEL_PATTERNS]
    objects, with non-negative level seed and score, and obstacles whose
    parrots carry their two numbers, the obstacle update returns; the new
    store is never empty, its objects have identities below the next free
    one, and the same conditions hold again for the next frame. *)
Theorem updateObstacles_never_empty (gameState : GameState) (animationFrame : Z)
    (canvasWidth rand randX randY : R) (next : Ident) (h : Heap)
    (prev : list (Obj Obstacle)) :
  heapExtends initialHeap h ->
  (0 <= levelSeed gameState)%Z ->
  (0 <= score gameState)%Z ->
  Forall (fun o => wellBehaved (value o)) prev ->
  exists store next' h',
    updateObstacles gameState animationFrame canvasWidth rand randX randY
      next h prev = Some (store, next', h')
    /\ store <> []
    /\ heapExtends initialHeap h'
    /\ Forall (fun o => wellBehaved (value o)) store
    /\ allocatedBefore next' store.
Proof.
  intros He Hl Hs Hw.
  destruct (moveObstacles_some gameState animationFrame prev Hw next) as [moved Em].
  pose proof (moveObstacles_keep wellBehaved gameState animationFrame
                (moveObstacle_wellBehaved gameState animationFrame)
                prev next moved Hw Em) as Hwm.
  pose proof (Forall_filter _ (fun o => Rltb (- ob_width (value o)) (ob_x (value o)))
                _ Hwm) as Hwf.
  destruct (generateObstacle_some (levelSeed gameState) (score gameState)
              canvasWidth rand randX randY h He
              (patternSeed_nonneg _ _ Hl Hs)) as (obstacle & h1 & Eg & He1 & Hwo).
  destruct (updateObstacles gameState animationFrame canvasWidth rand randX randY
              next h prev) as [[[store next'] h']|] eqn:E.
  - exists store, next', h'. split; [reflexivity|].
    destruct (updateObstacles_idents _ _ _ _ _ _ _ _ _ _ _ _ E) as [Hi _].
    unfold updateObstacles in E. rewrite Em in E.
    destruct (needsObstacle _) eqn:En.
    + rewrite Eg in E. injection E as <- <- <-.
      split; [intros H0; apply app_eq_nil in H0; destruct H0; discriminate|].
      split; [exact He1|]. split.
      * apply Forall_app. split; [exact Hwf | constructor; [exact Hwo | constructor]].
      * unfold allocatedBefore. apply Forall_forall. intros o Ho.
        pose proof (proj1 (Forall_forall _ _) Hi o Ho) as Hle. cbv beta in Hle. lia.
    + injection E as <- <- <-.
      split.
      { intros H0. unfold needsObstacle in En. rewrite H0 in En. discriminate. }
      split; [exact He|]. split; [exact Hwf|].
      unfold allocatedBefore. apply Forall_forall. intros o Ho.
      pose proof (proj1 (Forall_forall _ _) Hi o Ho) as Hle. cbv beta in Hle. lia.
  - exfalso. unfold updateObstacles in E. rewrite Em in E.
    destruct (needsObstacle _); [rewrite Eg in E|]; discriminate.
Qed.

(** X3 on the empty store of a run that has just started. *)
Lemma updateObstacles_never_empty_witness :
  exists store next' h',
    updateObstacles plainSession 0 800 0.5 0.5 0.5 0%nat initialHeap []
    = Some (store, next', h')
    /\ store <> []
    /\ heapExtends initialHeap h'
    /\ Forall (fun o => wellBehaved (value o)) store
    /\ allocatedBefore next' store.
Proof.
  apply (updateObstacles_never_empty plainSession 0 800 0.5 0.5 0.5 0%nat
           initialHeap []).
  - apply heapExtends_refl.
  - simpl; lia.
  - simpl; lia.
  - constructor.
Defined.




(** ** The player *)

(** What every player state of a session satisfies: the fixed place and
    ground, one of the two heights with its bound on [y], and a vertical
    velocity of at least the jump impulse. *)
Lemma player_invariant (p : Player) :
  PlayerReachable p ->
  pl_x p = 100 /\ pl_width p = 32 /\ groundY p = 300
  /\ ((pl_height p = 32 /\ pl_y p <= 300) \/ (pl_height p = 16 /\ pl_y p <= 316))
  /\ -15 <= velocityY p.
Proof.
  induction 1 as [|gs cl prev _ IH|gs cl prev _ IH|prev _ IH|prev _ IH].
  - simpl. split; [lra|]. split; [lra|]. split; [lra|]. split; [|lra].
    left. split; lra.
  - destruct IH as (Hx & Hw & Hg & Hh & Hv). unfold jump, JUMP_FORCE.
    destruct (negb (isJumping cl) && isPlaying gs); simpl; auto.
    split; [exact Hx|]. split; [exact Hw|]. split; [exact Hg|].
    split; [exact Hh | lra].
  - destruct IH as (Hx & Hw & Hg & Hh & Hv). unfold slide.
    destruct (isPlaying gs && negb (isSliding cl)); simpl; auto.
    split; [exact Hx|]. split; [exact Hw|]. split; [exact Hg|].
    split; [|exact Hv]. right. split; lra.
  - destruct IH as (Hx & Hw & Hg & Hh & Hv). unfold slideRevert. simpl.
    split; [exact Hx|]. split; [exact Hw|]. split; [exact Hg|].
    split; [|exact Hv]. left. split; lra.
  - destruct IH as (Hx & Hw & Hg & Hh & Hv). unfold physicsStep, GRAVITY.
    destruct (Rleb (groundY prev) (pl_y prev + velocityY prev)) eqn:E; simpl.
    + split; [exact Hx|]. split; [exact Hw|]. split; [exact Hg|].
      split; [|lra].
      destruct Hh as [[Hh Hy]|[Hh Hy]]; [left | right]; split; auto; lra.
    + apply Rleb_false in E.
      split; [exact Hx|]. split; [exact Hw|]. split; [exact Hg|].
      split; [|lra].
      destruct Hh as [[Hh Hy]|[Hh Hy]]; [left | right]; split; auto; lra.
Qed.

Lemma MovedFrom_gap (obstacle o' : Obstacle) :
  MovedFrom obstacle o' ->
  ob_type obstacle = Gap ->
  ob_type o' = Gap /\ ob_y o' = ob_y obstacle.
Proof.
  induction 1 as [|gs frame o o' _ IH Hm]; intros Ht; [split; [exact Ht | reflexivity]|].
  destruct (IH Ht) as [Et Ey].
  destruct (moveObstacle_keeps _ _ _ _ Hm) as (Et' & _ & _ & _ & Hy & _).
  split; [congruence|].
  rewrite Hy; [exact Ey|]. rewrite Et. discriminate.
Qed.

(** X5.  A water gap never costs a life.  The generator places every gap
    at [y = 332] and movement keeps it there, while the bottom edge of the
    player ([y + height]) never goes below 332 in any state the controls,
    the slide timer and the physics can produce; the collision test is
    strict, so the player and a gap never collide. *)
Theorem water_gap_never_hits :
  (forall levelSeed score canvasWidth rand randX randY h h' obstacle,
      generateObstacle levelSeed score canvasWidth rand randX randY h
      = Some (obstacle, h') ->
      ob_type obstacle = Gap -> ob_y obstacle = 332)
  /\ (forall player obstacle o',
        PlayerReachable player ->
        ob_type obstacle = Gap ->
        ob_y obstacle = 332 ->
        MovedFrom obstacle o' ->
        y player + height player <= 332
        /\ checkCollision player o' = false
        /\ obstacleCollision player o' = []).
Proof.
  split.
  - intros ls sc cw r rx ry h h' o Eg Ht.
    destruct (generateObstacle_placed _ _ _ _ _ _ _ _ _ Eg) as (_ & Hgap & _).
    exact (proj1 (Hgap Ht)).
  - intros player obstacle o' Hp Ht Hy Hm.
    destruct (player_invariant player Hp) as (_ & _ & _ & Hh & _).
    destruct (MovedFrom_gap _ _ Hm Ht) as [Et' Ey'].
    assert (Hb : y player + height player <= 332).
    { simpl. destruct Hh as [[-> Hle]|[-> Hle]]; lra. }
    assert (Hc : checkCollision player o' = false).
    { unfold checkCollision.
      assert (E : Rltb (y o') (y player + height player) = false).
      { apply Rltb_false. simpl in *. rewrite Ey', Hy. exact Hb. }
      rewrite E. apply andb_false_r. }
    split; [exact Hb|]. split; [exact Hc|].
    unfold obstacleCollision. rewrite Hc. reflexivity.
Qed.

(** X5 at the starting player standing over a gap. *)
Lemma water_gap_never_hits_witness :
  y startPlayer + height startPlayer <= 332
  /\ checkCollision startPlayer gapUnderPlayer = false
  /\ obstacleCollision startPlayer gapUnderPlayer = [].
Proof.
  apply (proj2 water_gap_never_hits startPlayer gapUnderPlayer gapUnderPlayer).
  - apply PlayerReachable_start.
  - reflexivity.
  - reflexivity.
  - apply MovedFrom_now.
Defined.

(** The player [n] frames into a jump from the ground, while it lasts. *)
Lemma jump_arc (p : Player) (n : nat) :
  pl_y p = groundY p ->
  (n <= 38)%nat ->
  Nat.iter n physicsStep
    (mkPlayer (pl_x p) (pl_y p) (pl_width p) (pl_height p) JUMP_FORCE true
       (isSliding p) (groundY p))
  = mkPlayer (pl_x p)
      (groundY p - 15 * INR n + 0.4 * INR n * (INR n - 1))
      (pl_width p) (pl_height p) (-15 + 0.8 * INR n) true
      (isSliding p) (groundY p).
Proof.
  intros Hy. induction n as [|n IH]; intros Hn.
  - simpl. unfold JUMP_FORCE. f_equal; lra.
  - rewrite Nat.iter_succ. rewrite IH by lia. clear IH.
    unfold physicsStep, GRAVITY. cbn [pl_x pl_y pl_width pl_height velocityY
                                      isJumping isSliding groundY].
    assert (Hb : 0 <= INR n <= 37).
    { split; [apply pos_INR|].
      replace 37 with (INR 37) by (rewrite INR_IZR_INZ; reflexivity).
      apply le_INR. lia. }
    rewrite (proj2 (Rleb_false _ _)).
    + rewrite S_INR. f_equal; lra.
    + nra.
Qed.

(** X6.  A jump from the ground lasts 39 frames: for 38 frames the player
    is above the ground and [isJumping] holds, so no second jump is
    accepted, and the 39th frame puts the player back on the ground with
    velocity 0 and [isJumping] cleared. *)
Theorem jump_lasts_39_frames (gameState : GameState) (p : Player) :
  isPlaying gameState = true ->
  isJumping p = false ->
  pl_y p = groundY p ->
  (forall n, (1 <= n <= 38)%nat ->
     isJumping (Nat.iter n physicsStep (jump gameState p p)) = true
     /\ y (Nat.iter n physicsStep (jump gameState p p)) < groundY p
     /\ jump gameState (Nat.iter n physicsStep (jump gameState p p))
          (Nat.iter n physicsStep (jump gameState p p))
        = Nat.iter n physicsStep (jump gameState p p))
  /\ Nat.iter 39 physicsStep (jump gameState p p)
     = mkPlayer (pl_x p) (groundY p) (pl_width p) (pl_height p) 0 false
         (isSliding p) (groundY p).
Proof.
  intros Hplay Hj Hy.
  assert (Ej : jump gameState p p
               = mkPlayer (pl_x p) (pl_y p) (pl_width p) (pl_height p)
                   JUMP_FORCE true (isSliding p) (groundY p)).
  { unfold jump. rewrite Hj, Hplay. reflexivity. }
  rewrite Ej. split.
  - intros n [Hn1 Hn2]. rewrite (jump_arc p n Hy Hn2).
    assert (Hb : 1 <= INR n <= 38).
    { split.
      - replace 1 with (INR 1) by (rewrite INR_IZR_INZ; reflexivity).
        apply le_INR; lia.
      - replace 38 with (INR 38) by (rewrite INR_IZR_INZ; reflexivity).
        apply le_INR; lia. }
    split; [reflexivity|]. split; [simpl; nra|].
    unfold jump. reflexivity.
  - change 39%nat with (S 38). rewrite Nat.iter_succ.
    rewrite (jump_arc p 38 Hy) by lia.
    unfold physicsStep, GRAVITY.
    cbn [pl_x pl_y pl_width pl_height velocityY isJumping isSliding groundY].
    rewrite (proj2 (Rleb_true _ _)).
    + reflexivity.
    + replace (INR 38) with 38 by (rewrite INR_IZR_INZ; reflexivity). lra.
Qed.

(** X6 at the starting player. *)
Lemma jump_lasts_39_frames_witness :
  Nat.iter 39 physicsStep (jump plainSession startPlayer startPlayer)
  = mkPlayer (pl_x startPlayer) (groundY startPlayer) (pl_width startPlayer)
      (pl_height startPlayer) 0 false (isSliding startPlayer)
      (groundY startPlayer).
Proof.
  exact (proj2 (jump_lasts_39_frames plainSession startPlayer eq_refl eq_refl
                  eq_refl)).
Defined.

(** X7.  A slide ends a jump.  Whatever the altitude and velocity of the
    player, the frame after an accepted slide puts the player on the
    ground: [y] is [groundY] again (the offset of the slide is gone),
    height stays 16, the velocity is 0 and [isJumping] is cleared. *)
Theorem slide_then_frame_lands (gameState : GameState) (player prev : Player) :
  PlayerReachable prev ->
  isPlaying gameState = true ->
  isSliding player = false ->
  physicsStep (slide gameState player prev)
  = mkPlayer (pl_x prev) (groundY prev) (pl_width prev) 16 0 false true
      (groundY prev).
Proof.
  intros Hr Hplay Hs.
  destruct (player_invariant prev Hr) as (_ & _ & _ & _ & Hv).
  unfold slide. rewrite Hplay, Hs. cbn [andb negb].
  unfold physicsStep.
  cbn [pl_x pl_y pl_width pl_height velocityY isJumping isSliding groundY].
  rewrite (proj2 (Rleb_true _ _)); [reflexivity | lra].
Qed.

(** X7 at a player that has just jumped. *)
Lemma slide_then_frame_lands_witness :
  physicsStep (slide plainSession (jump plainSession startPlayer startPlayer)
                 (jump plainSession startPlayer startPlayer))
  = mkPlayer (pl_x (jump plainSession startPlayer startPlayer))
      (groundY (jump plainSession startPlayer startPlayer))
      (pl_width (jump plainSession startPlayer startPlayer)) 16 0 false true
      (groundY (jump plainSession startPlayer startPlayer)).
Proof.
  apply slide_then_frame_lands.
  - apply PlayerReachable_jump, PlayerReachable_start.
  - reflexivity.
  - reflexivity.
Defined.

(** ** Geometry *)

(** X8.  The collision test does not depend on which box is given first,
    and boxes that only touch along an edge do not collide. *)
Theorem checkCollision_symmetric {A B : Type} `{Rect A} `{Rect B}
    (rect1 : A) (rect2 : B) :
  checkCollision rect1 rect2 = checkCollision rect2 rect1
  /\ (x rect2 = x rect1 + width rect1 -> checkCollision rect1 rect2 = false)
  /\ (y rect2 = y rect1 + height rect1 -> checkCollision rect1 rect2 = false).
Proof.
  unfold checkCollision. split; [|split].
  - destruct (Rltb (x rect1) (x rect2 + width rect2));
      destruct (Rltb (x rect2) (x rect1 + width rect1));
      destruct (Rltb (y rect1) (y rect2 + height rect2));
      destruct (Rltb (y rect2) (y rect1 + height rect1)); reflexivity.
  - intros E.
    assert (F : Rltb (x rect2) (x rect1 + width rect1) = false)
      by (apply Rltb_false; lra).
    rewrite F. rewrite andb_false_r. reflexivity.
  - intros E.
    assert (F : Rltb (y rect2) (y rect1 + height rect1) = false)
      by (apply Rltb_false; lra).
    rewrite F. apply andb_false_r.
Qed.

(** X8 at the starting player and a crab that begins where the player
    ends. *)
Lemma checkCollision_symmetric_witness :
  checkCollision startPlayer (mkObstacle 132 300 32 32 Crab None) = false.
Proof.
  apply (proj1 (proj2 (checkCollision_symmetric startPlayer
                         (mkObstacle 132 300 32 32 Crab None)))).
  simpl. lra.
Defined.

Lemma sqrt_scale (k a : R) : 0 <= k -> 0 <= a -> sqrt (k * k * a) = k * sqrt a.
Proof.
  intros Hk Ha. rewrite sqrt_mult; [|nra|exact Ha].
  rewrite sqrt_square by exact Hk. reflexivity.
Qed.

(** X9.  Inside the band the magnet shortens the distance between the
    centres by exactly 3 percent: the coin moves towards the player and
    cannot jump over it. *)
Theorem magnet_shortens_distance (player : Player) (gameState : GameState)
    (coin : Coin) :
  20 < centerDistance player coin < magnetRange gameState ->
  centerDistance player (pulledCoin player gameState coin)
  = 0.97 * centerDistance player coin
  /\ 19.4 < centerDistance player (pulledCoin player gameState coin)
  /\ centerDistance player (pulledCoin player gameState coin)
     < centerDistance player coin.
Proof.
  intros Hin.
  assert (E : centerDistance player (pulledCoin player gameState coin)
              = 0.97 * centerDistance player coin).
  { unfold pulledCoin. rewrite (checkCoinMagnet_in_band _ _ _ Hin).
    unfold centerDistance, centerDx, centerDy. cbn [fst snd x y width height
      Coin_Rect Player_Rect co_x co_y co_width co_height].
    rewrite <- sqrt_scale.
    - f_equal. unfold centerDx, centerDy. simpl. lra.
    - lra.
    - apply Rplus_le_le_0_compat; apply pow2_ge_0. }
  rewrite E. split; [reflexivity|]. lra.
Qed.

(** X9 at the coin 30 away from the starting player. *)
Lemma magnet_shortens_distance_witness :
  centerDistance startPlayer (pulledCoin startPlayer plainSession nearbyCoin)
  = 0.97 * centerDistance startPlayer nearbyCoin.
Proof.
  apply magnet_shortens_distance.
  rewrite nearbyCoin_distance. unfold magnetRange, plainSession; simpl. lra.
Defined.

(** ** Projectiles and particles *)

Lemma filter_length_le {A : Type} (f : A -> bool) (l : list A) :
  (List.length (filter f l) <= List.length l)%nat.
Proof.
  induction l as [|a l IH]; simpl; [lia|]. destruct (f a); simpl; lia.
Qed.

Lemma allocate_length {A : Type} (values : list A) :
  forall next, List.length (allocate next values) = List.length values.
Proof.
  induction values as [|v rest IH]; intros next; simpl; [reflexivity|].
  rewrite IH. reflexivity.
Qed.

Lemma allocate_in {A : Type} (values : list A) :
  forall next o, In o (allocate next values) -> In (value o) values.
Proof.
  induction values as [|v rest IH]; intros next o Ho; simpl in Ho; [contradiction|].
  destruct Ho as [<-|Ho]; [left; reflexivity | right; exact (IH _ _ Ho)].
Qed.

(** X10.  After the projectile update every projectile of the store is the
    ballistic successor of one of the previous store (position advanced by
    the velocity, vertical velocity increased by 0.2, horizontal velocity
    and size kept), lies within the culling bounds, and the store has not
    grown. *)
Theorem updateProjectiles_on_screen (next : Ident) (prev : list (Obj Projectile)) :
  (List.length (updateProjectiles next prev) <= List.length prev)%nat
  /\ forall o, In o (updateProjectiles next prev) ->
       (exists old, In old prev /\ value o = moveProjectile (value old))
       /\ - pj_width (value o) < pj_x (value o)
          < CANVAS_WIDTH + pj_width (value o)
       /\ pj_y (value o) < CANVAS_HEIGHT.
Proof.
  unfold updateProjectiles. split.
  - etransitivity; [apply filter_length_le|].
    rewrite allocate_length, length_map. lia.
  - intros o Ho. apply filter_In in Ho. destruct Ho as [Ho Hon].
    split.
    + apply allocate_in in Ho. apply in_map_iff in Ho.
      destruct Ho as (old & E & Hold). exists old. split; [exact Hold | symmetry; exact E].
    + unfold projectileOnScreen in Hon.
      apply andb_prop in Hon. destruct Hon as [Hon Hy].
      apply andb_prop in Hon. destruct Hon as [Hl Hr].
      apply Rltb_true in Hl, Hr, Hy. repeat split; assumption.
Qed.

Lemma updateParticles_life (n : Z) (prev : list Particle) :
  Forall (fun p => (life p <= n)%Z) prev ->
  Forall (fun p => (0 < life p <= n - 1)%Z) (updateParticles prev).
Proof.
  intros Hp. unfold updateParticles. apply Forall_forall. intros p Hin.
  apply filter_In in Hin. destruct Hin as [Hin Hpos].
  apply in_map_iff in Hin. destruct Hin as (q & <- & Hq).
  pose proof (proj1 (Forall_forall _ _) Hp q Hq) as Hle. cbv beta in Hle.
  simpl in *. apply Z.ltb_lt in Hpos. lia.
Qed.

Lemma iter_updateParticles_life (k : nat) :
  forall (n : Z) (prev : list Particle),
    Forall (fun p => (life p <= n)%Z) prev ->
    Forall (fun p => (0 < life p <= n - Z.of_nat k)%Z \/ k = 0%nat)
           (Nat.iter k updateParticles prev).
Proof.
  induction k as [|k IH]; intros n prev Hp.
  - simpl. apply Forall_forall. intros p _. right. reflexivity.
  - rewrite Nat.iter_succ.
    assert (Hk : Forall (fun p => (life p <= n - Z.of_nat k)%Z)
                   (Nat.iter k updateParticles prev)).
    { specialize (IH n prev Hp). apply Forall_forall. intros p Hin.
      pose proof (proj1 (Forall_forall _ _) IH p Hin) as [H0|H0]; cbv beta.
      - lia.
      - subst k. simpl in *.
        pose proof (proj1 (Forall_forall _ _) Hp p Hin) as Hle. cbv beta in Hle. lia. }
    pose proof (updateParticles_life _ _ Hk) as Hs.
    apply Forall_forall. intros p Hin. left.
    pose proof (proj1 (Forall_forall _ _) Hs p Hin) as Hle. cbv beta in Hle. lia.
Qed.

(** X11.  Particles expire: a store whose particles have at most [n] frames
    of life left is empty after [n] updates (one update at least); the
    particles [addParticles] makes are gone after 60 frames. *)
Theorem particles_expire (n : nat) (prev : list Particle) :
  (1 <= n)%nat ->
  Forall (fun p => (life p <= Z.of_nat n)%Z) prev ->
  Nat.iter n updateParticles prev = []
  /\ forall px py particleColor draws,
       Nat.iter 60 updateParticles (addParticles px py particleColor draws [])
       = [].
Proof.
  assert (Hgen : forall k ps,
             (1 <= k)%nat ->
             Forall (fun p => (life p <= Z.of_nat k)%Z) ps ->
             Nat.iter k updateParticles ps = []).
  { intros k ps Hk1 Hp.
    pose proof (iter_updateParticles_life k (Z.of_nat k) ps Hp) as Hk.
    destruct (Nat.iter k updateParticles ps) as [|p rest] eqn:E; [reflexivity|].
    exfalso. inversion Hk as [|? ? H0 _]; subst.
    destruct H0 as [H0|H0]; lia. }
  intros Hn Hp. split; [exact (Hgen n prev Hn Hp)|].
  intros px py c draws. apply (Hgen 60%nat); [lia|].
  unfold addParticles. simpl. apply Forall_forall. intros p Hin.
  apply in_map_iff in Hin. destruct Hin as (d & <- & _). simpl. lia.
Qed.

(** X11 on one particle with three frames of life. *)
Lemma particles_expire_witness :
  Nat.iter 3 updateParticles [mkParticle 0 0 1 1 3 60 "#ffd700" 2] = [].
Proof.
  apply (particles_expire 3 [mkParticle 0 0 1 1 3 60 "#ffd700" 2]).
  - lia.
  - constructor; [simpl; lia | constructor].
Defined.

(** ** Pick-ups *)

Lemma applyUpdaters_coinCollision (player : Player) (prev : list Coin) :
  forall s,
    let picked :=
      filter (fun coin => negb (co_collected coin) && checkCollision player coin)
             prev in
    coins (applyUpdaters (flat_map (coinCollision player) prev) s)
    = (coins s + Z.of_nat (List.length picked))%Z
    /\ score (applyUpdaters (flat_map (coinCollision player) prev) s)
       = (score s + 10 * Z.of_nat (List.length picked))%Z
    /\ lives (applyUpdaters (flat_map (coinCollision player) prev) s) = lives s.
Proof.
  induction prev as [|coin rest IH]; intros s; cbn zeta.
  - simpl. repeat split; lia.
  - cbn [flat_map filter]. unfold coinCollision at 1 3 5.
    destruct (negb (co_collected coin) && checkCollision player coin).
    + cbn [app]. unfold applyUpdaters in *. cbn [fold_left].
      destruct (IH (addCoinsScore 1 10 s)) as (Hc & Hs & Hl).
      rewrite Hc, Hs, Hl. cbn [List.length coins score lives addCoinsScore].
      repeat split; lia.
    + cbn [app]. exact (IH s).
Qed.

Lemma coinCollision_collected (player : Player) (prev : list Coin) :
  flat_map (coinCollision player) (collectCoins player prev) = [].
Proof.
  unfold collectCoins. induction prev as [|coin rest IH]; [reflexivity|].
  cbn [map flat_map]. rewrite IH. rewrite app_nil_r.
  unfold coinCollision.
  destruct (co_collected coin) eqn:E; cbn [negb andb].
  - rewrite E. reflexivity.
  - destruct (checkCollision player coin) eqn:Eh; cbn [co_collected negb andb].
    + reflexivity.
    + rewrite E, Eh. reflexivity.
Qed.

(** X12.  Coin pick-ups are counted once each.  In a frame the session
    gains one coin and 10 points for every coin of the store that is not
    yet collected and touches the player.  The store keeps its length and
    order; the coin at each place keeps its position and size, and is
    collected afterwards exactly when it was collected before or touches
    the player.  A second pass over the marked store picks up nothing and
    changes nothing. *)
Theorem coin_pickups_counted_once (player : Player) (prev : list Coin)
    (s : GameState) :
  coins (applyUpdaters (flat_map (coinCollision player) prev) s)
  = (coins s
     + Z.of_nat (List.length
         (filter (fun coin => negb (co_collected coin)
                              && checkCollision player coin) prev)))%Z
  /\ score (applyUpdaters (flat_map (coinCollision player) prev) s)
     = (score s
        + 10 * Z.of_nat (List.length
            (filter (fun coin => negb (co_collected coin)
                                 && checkCollision player coin) prev)))%Z
  /\ (forall coin, In coin prev ->
        co_collected coin = false -> checkCollision player coin = true ->
        exists coin', In coin' (collectCoins player prev)
                      /\ co_collected coin' = true
                      /\ x coin' = x coin /\ y coin' = y coin)
  /\ List.length (collectCoins player prev) = List.length prev
  /\ (forall i coin, nth_error prev i = Some coin ->
        nth_error (collectCoins player prev) i
        = Some (mkCoin (x coin) (y coin) (width coin) (height coin)
                  (co_collected coin || checkCollision player coin)))
  /\ flat_map (coinCollision player) (collectCoins player prev) = []
  /\ collectCoins player (collectCoins player prev) = collectCoins player prev.
Proof.
  destruct (applyUpdaters_coinCollision player prev s) as (Hc & Hs & _).
  split; [exact Hc|]. split; [exact Hs|]. split; [|split; [|split; [|split]]].
  - intros coin Hin Hc0 Hhit. eexists. split.
    + unfold collectCoins. apply in_map_iff. exists coin. split; [reflexivity | exact Hin].
    + rewrite Hc0, Hhit. simpl. repeat split; reflexivity.
  - unfold collectCoins. apply length_map.
  - intros i coin Hi. unfold collectCoins. rewrite nth_error_map, Hi.
    cbn [option_map]. f_equal.
    destruct coin as [cx cy cw ch cc]. simpl x; simpl y; simpl width; simpl height.
    cbn [co_collected].
    destruct cc; cbn [negb andb orb]; [reflexivity|].
    destruct (checkCollision player _); reflexivity.
  - apply coinCollision_collected.
  - unfold collectCoins. rewrite map_map. apply map_ext. intros coin.
    destruct (co_collected coin) eqn:E; cbn [negb andb].
    + rewrite E. reflexivity.
    + destruct (checkCollision player coin) eqn:Eh; cbn [co_collected negb andb].
      * reflexivity.
      * rewrite E, Eh. reflexivity.
Qed.

(** ** Random choices *)

Lemma pickIndex_some {A : Type} (items : list A) (rand : R) :
  0 <= rand < 1 ->
  items <> [] ->
  exists item,
    pickIndex items rand = Some item /\ In item items
    /\ nth_error items (Z.to_nat (Zfloor (rand * INR (List.length items))))
       = Some item.
Proof.
  intros Hr Hne. unfold pickIndex.
  assert (Hlen : 0 < INR (List.length items)).
  { apply lt_0_INR. destruct items; [contradiction | simpl; lia]. }
  set (v := rand * INR (List.length items)).
  assert (Hv : 0 <= v < INR (List.length items)) by (unfold v; nra).
  assert (H0 : (0 <= Zfloor v)%Z) by (apply Zfloor_lub; simpl; lra).
  assert (H1 : (Zfloor v < Z.of_nat (List.length items))%Z).
  { apply lt_IZR. rewrite <- INR_IZR_INZ.
    pose proof (Zfloor_bound v). lra. }
  destruct (Z.ltb_spec (Zfloor v) 0); [lia|].
  destruct (nth_error items (Z.to_nat (Zfloor v))) as [item|] eqn:E.
  - exists item. split; [reflexivity|]. split; [|reflexivity].
    exact (nth_error_In _ _ E).
  - apply nth_error_None in E. lia.
Qed.

(** X13.  For a draw in [0,1) both random choices land inside their array:
    the catchphrase is one of the fifteen phrases, and the generated
    power-up is uncollected and of the type of the third the draw falls in
    (speed boost below 1/3, coin magnet below 2/3, extra life above). *)
Theorem random_choices_in_range (rand : R) :
  0 <= rand < 1 ->
  (exists phrase,
      generateAICatchphrase rand = Some phrase /\ In phrase PIRATE_CATCHPHRASES)
  /\ forall canvasWidth randX randY,
       generatePowerUp canvasWidth rand randX randY
       = Some (mkPowerUp (canvasWidth + randX * 400) (220 + randY * 80) 20 20
                 (if Rltb rand (1 / 3) then SpeedBoost
                  else if Rltb rand (2 / 3) then CoinMagnet else ExtraLife)
                 false).
Proof.
  intros Hr. split.
  - destruct (pickIndex_some PIRATE_CATCHPHRASES rand Hr) as (p & Hp & Hin & _);
      [discriminate|].
    exists p. split; assumption.
  - intros cw rx ry. unfold generatePowerUp, pickIndex.
    change (INR (List.length powerUpTypes)) with (INR 3).
    replace (INR 3) with 3 by (rewrite INR_IZR_INZ; reflexivity).
    destruct (Rltb rand (1 / 3)) eqn:E1; [|destruct (Rltb rand (2 / 3)) eqn:E2].
    + apply Rltb_true in E1.
      rewrite (Zfloor_eq 0 (rand * 3)) by (simpl; lra). reflexivity.
    + apply Rltb_false in E1. apply Rltb_true in E2.
      rewrite (Zfloor_eq 1 (rand * 3)) by (simpl; lra). reflexivity.
    + apply Rltb_false in E1. apply Rltb_false in E2.
      rewrite (Zfloor_eq 2 (rand * 3)) by (simpl; lra). reflexivity.
Qed.

(** X13 at the draw 0.5. *)
Lemma random_choices_in_range_witness :
  exists phrase,
    generateAICatchphrase 0.5 = Some phrase /\ In phrase PIRATE_CATCHPHRASES.
Proof.
  apply (proj1 (random_choices_in_range 0.5 ltac:(lra))).
Defined.

(** ** Canvas size *)

Lemma Zfloor_double (v : R) :
  (2 * Zfloor v <= Zfloor (2 * v) <= 2 * Zfloor v + 1)%Z.
Proof.
  pose proof (Zfloor_bound v) as Hv. split.
  - apply Zfloor_lub. rewrite mult_IZR. lra.
  - assert (H : (Zfloor (2 * v) < 2 * Zfloor v + 2)%Z); [|lia].
    apply lt_IZR. rewrite plus_IZR, mult_IZR.
    pose proof (Zfloor_bound (2 * v)). lra.
Qed.

(** X14.  On a mobile device the canvas is at most 400 wide, in whole
    pixels, and keeps the 2:1 shape up to one pixel of width; otherwise,
    and without a window, it is 800 by 400. *)
Theorem canvas_size_bounds (window : option Window) :
  (isMobile window = true ->
   exists W H : Z,
     getResponsiveCanvasSize window = (IZR W, IZR H)
     /\ (W <= 400)%Z /\ (2 * H <= W <= 2 * H + 1)%Z)
  /\ (isMobile window = false ->
      getResponsiveCanvasSize window = (800, 400)).
Proof.
  split.
  - intros Hm. destruct window as [w|]; [|discriminate].
    unfold getResponsiveCanvasSize. rewrite Hm.
    set (maxWidth :=
           if Rleb (innerWidth w) 480 then Rmin (innerWidth w - 16) 280
           else if Rleb (innerWidth w) 768 then Rmin (innerWidth w - 16) 320
           else Rmin (innerWidth w - 16) 400).
    set (maxHeight :=
           if Rleb (innerWidth w) 480 then innerHeight w * 0.15
           else if Rleb (innerWidth w) 768 then innerHeight w * 0.2
           else innerHeight w * 0.25).
    assert (Hmw : maxWidth <= 400).
    { unfold maxWidth.
      destruct (Rleb (innerWidth w) 480); [|destruct (Rleb (innerWidth w) 768)].
      - pose proof (Rmin_r (innerWidth w - 16) 280). lra.
      - pose proof (Rmin_r (innerWidth w - 16) 320). lra.
      - pose proof (Rmin_r (innerWidth w - 16) 400). lra. }
    assert (Har : CANVAS_WIDTH / CANVAS_HEIGHT = 2)
      by (unfold CANVAS_WIDTH, CANVAS_HEIGHT; lra).
    cbv zeta. rewrite Har.
    destruct (Rltb maxHeight (maxWidth / 2)) eqn:E.
    + apply Rltb_true in E.
      exists (Zfloor (maxHeight * 2)), (Zfloor maxHeight).
      split; [reflexivity|]. split.
      * apply le_IZR. pose proof (Zfloor_bound (maxHeight * 2)). lra.
      * replace (maxHeight * 2) with (2 * maxHeight) by lra. apply Zfloor_double.
    + apply Rltb_false in E.
      exists (Zfloor maxWidth), (Zfloor (maxWidth / 2)).
      split; [reflexivity|]. split.
      * apply le_IZR. pose proof (Zfloor_bound maxWidth). lra.
      * replace maxWidth with (2 * (maxWidth / 2)) at 2 3 by lra.
        apply Zfloor_double.
  - intros Hm. destruct window as [w|]; [|reflexivity].
    unfold getResponsiveCanvasSize. rewrite Hm. reflexivity.
Qed.

(** X14 on a phone 390 wide and 844 high. *)
Lemma canvas_size_bounds_witness :
  exists W H : Z,
    getResponsiveCanvasSize (Some (mkWindow 390 844 true)) = (IZR W, IZR H)
    /\ (W <= 400)%Z /\ (2 * H <= W <= 2 * H + 1)%Z.
Proof.
  apply (proj1 (canvas_size_bounds (Some (mkWindow 390 844 true)))).
  unfold isMobile. simpl. apply orb_true_r.
Defined.

(** X12 on a store of two coins, the first on the starting player and the
    second 38 to its right: the first is marked and the second is not. *)
Lemma coin_pickups_counted_once_witness :
  nth_error (collectCoins startPlayer [coinAtPlayer; nearbyCoin]) 0
  = Some (mkCoin 110 310 16 16 true)
  /\ nth_error (collectCoins startPlayer [coinAtPlayer; nearbyCoin]) 1
     = Some nearbyCoin
  /\ coins (applyUpdaters
              (flat_map (coinCollision startPlayer) [coinAtPlayer; nearbyCoin])
              plainSession) = 1%Z.
Proof.
  assert (E0 : checkCollision startPlayer coinAtPlayer = true).
  { unfold checkCollision, Rltb; simpl. decide_cmp; reflexivity. }
  assert (E1 : checkCollision startPlayer nearbyCoin = false).
  { unfold checkCollision, Rltb; simpl. decide_cmp; reflexivity. }
  pose proof (coin_pickups_counted_once startPlayer [coinAtPlayer; nearbyCoin]
                plainSession) as (Hc & _ & _ & _ & Hnth & _).
  split; [|split].
  - rewrite (Hnth 0%nat coinAtPlayer eq_refl), E0. reflexivity.
  - rewrite (Hnth 1%nat nearbyCoin eq_refl), E1. reflexivity.
  - rewrite Hc. cbn [filter]. rewrite E0, E1. reflexivity.
Defined.

(** X10 on the banana at the player, one frame later. *)
Lemma updateProjectiles_on_screen_witness :
  (exists old, In old [mkObj 0%nat bananaAtPlayer]
               /\ value (mkObj 1%nat (moveProjectile bananaAtPlayer))
                  = moveProjectile (value old))
  /\ - pj_width (value (mkObj 1%nat (moveProjectile bananaAtPlayer)))
     < pj_x (value (mkObj 1%nat (moveProjectile bananaAtPlayer)))
     < CANVAS_WIDTH + pj_width (value (mkObj 1%nat (moveProjectile bananaAtPlayer)))
  /\ pj_y (value (mkObj 1%nat (moveProjectile bananaAtPlayer))) < CANVAS_HEIGHT.
Proof.
  apply (proj2 (updateProjectiles_on_screen 1%nat [mkObj 0%nat bananaAtPlayer])).
  unfold updateProjectiles. cbn [map allocate value filter].
  assert (E : projectileOnScreen (moveProjectile bananaAtPlayer) = true).
  { unfold projectileOnScreen, Rltb, CANVAS_WIDTH, CANVAS_HEIGHT; simpl.
    decide_cmp; reflexivity. }
  rewrite E. left. reflexivity.
Defined.

(** ** Score and coins of a run *)

Lemma loseLife_grows : grows loseLife.
Proof. intros s. simpl. lia. Qed.

Lemma stopPlaying_grows : grows stopPlaying.
Proof. intros s. simpl. lia. Qed.

Lemma extraLife_grows : grows extraLife.
Proof. intros s. simpl. lia. Qed.

Lemma addCoinsScore_grows (c sc : Z) :
  (0 <= c)%Z -> (0 <= sc)%Z -> grows (addCoinsScore c sc).
Proof. intros Hc Hs s. simpl. lia. Qed.

Ltac grows_single :=
  first [ apply Forall_nil
        | apply Forall_cons;
          [ first [ apply loseLife_grows | apply stopPlaying_grows
                  | apply extraLife_grows | apply addCoinsScore_grows; lia ]
          | apply Forall_nil ] ].

Lemma applyUpdaters_grows (updaters : list (GameState -> GameState)) :
  Forall grows updaters ->
  forall s, (score s <= score (applyUpdaters updaters s))%Z
            /\ (coins s <= coins (applyUpdaters updaters s))%Z.
Proof.
  unfold applyUpdaters.
  induction 1 as [|u us Hu _ IH]; intros s; simpl; [lia|].
  destruct (Hu s). destruct (IH (u s)). lia.
Qed.

Lemma collisionDeductions_grows (player : Player) (obstacles : list Obstacle)
    (projectiles : list Projectile) :
  Forall grows (collisionDeductions player obstacles projectiles).
Proof.
  unfold collisionDeductions. apply Forall_app; split;
    apply Forall_flat_map, Forall_forall.
  - intros o _. unfold obstacleCollision.
    destruct (checkCollision player o); [|grows_single].
    destruct (isGap (ob_type o) && _); [grows_single|].
    destruct (isTreasureChest (ob_type o)); [grows_single|].
    destruct (negb _); grows_single.
  - intros p _. unfold projectileCollision.
    destruct (checkCollision player p); grows_single.
Qed.

Lemma pickups_grow (player : Player) (coinsPrev : list Coin)
    (powerUpsPrev : list PowerUp) :
  Forall grows (flat_map (coinCollision player) coinsPrev
                ++ flat_map (powerUpCollision player) powerUpsPrev)%list.
Proof.
  apply Forall_app; split; apply Forall_flat_map, Forall_forall.
  - intros c _. unfold coinCollision. destruct (negb _ && _); grows_single.
  - intros p _. unfold powerUpCollision.
    destruct (negb _ && _); [|grows_single].
    destruct (pu_type p); grows_single.
Qed.

(** X15.  Every frame the loop runs adds at least 1 to the score and never
    lowers the coins of the run; a frame the loop does not run (paused or
    not playing) changes neither session nor profile. *)
Theorem frame_advances_score (gameState : GameState) (player : Player)
    (obstacles : list Obstacle) (projectiles : list Projectile)
    (coinsPrev : list Coin) (powerUpsPrev : list PowerUp) (prev : GameState) :
  (gameLoopRuns gameState = true ->
   (score prev + 1
    <= score (gameLoop_gameState gameState player obstacles projectiles
                coinsPrev powerUpsPrev prev))%Z
   /\ (coins prev
       <= coins (gameLoop_gameState gameState player obstacles projectiles
                   coinsPrev powerUpsPrev prev))%Z)
  /\ (gameLoopRuns gameState = false ->
      gameLoop_gameState gameState player obstacles projectiles
        coinsPrev powerUpsPrev prev = prev
      /\ forall profile, gameLoop_playerProgress gameState profile = profile).
Proof.
  split.
  - intros Hrun. unfold gameLoop_gameState. rewrite Hrun.
    unfold gameLoopUpdaters. rewrite !applyUpdaters_app.
    set (s1 := applyUpdaters (collisionDeductions player obstacles projectiles) prev).
    destruct (applyUpdaters_grows _ (collisionDeductions_grows player obstacles
                                       projectiles) prev) as [H1s H1c].
    fold s1 in H1s, H1c.
    set (s2 := applyUpdaters [addCoinsScore 0 1] s1).
    assert (H2 : score s2 = (score s1 + 1)%Z /\ coins s2 = (coins s1 + 0)%Z)
      by (split; reflexivity).
    set (s3 := applyUpdaters (if Rleb (lives gameState) 1 then [stopPlaying] else [])
                 s2).
    assert (H3 : score s3 = score s2 /\ coins s3 = coins s2)
      by (unfold s3; destruct (Rleb (lives gameState) 1); split; reflexivity).
    destruct (applyUpdaters_grows _ (pickups_grow player coinsPrev powerUpsPrev) s3)
      as [H4s H4c].
    rewrite applyUpdaters_app in H4s, H4c. lia.
  - intros Hrun. unfold gameLoop_gameState, gameLoop_playerProgress.
    rewrite Hrun. split; [reflexivity|]. intros profile. reflexivity.
Qed.

(** X15 on a frame of the first run. *)
Lemma frame_advances_score_witness :
  (score firstRun + 1
   <= score (gameLoop_gameState firstRun startPlayer [crabAtPlayer] []
               [coinAtPlayer] [] firstRun))%Z
  /\ (coins firstRun
      <= coins (gameLoop_gameState firstRun startPlayer [crabAtPlayer] []
                  [coinAtPlayer] [] firstRun))%Z.
Proof.
  apply (proj1 (frame_advances_score firstRun startPlayer [crabAtPlayer] []
                  [coinAtPlayer] [] firstRun)).
  reflexivity.
Defined.

(** ** The bank *)

Lemma challengeRewards_nonneg (gameState : GameState) (playerProgress : PlayerProgress) :
  rewardsNonneg playerProgress ->
  (0 <= challengeRewards gameState playerProgress)%Z.
Proof.
  intros Hr. unfold challengeRewards.
  assert (Hf : Forall (fun c => (0 <= reward c)%Z)
                 (completedChallenges gameState playerProgress))
    by (unfold completedChallenges; apply Forall_filter; exact Hr).
  assert (Hgen : forall l acc,
             Forall (fun c => (0 <= reward c)%Z) l -> (0 <= acc)%Z ->
             (0 <= fold_left (fun total challenge => (total + reward challenge)%Z) l acc)%Z).
  { induction l as [|c l IH]; intros acc Hl Ha; simpl; [exact Ha|].
    inversion Hl; subst. apply IH; [assumption | lia]. }
  apply Hgen; [exact Hf | lia].
Qed.

Lemma updateChallengeProgress_rewards (type : ChallengeType) (amount : Z)
    (prev : PlayerProgress) :
  rewardsNonneg prev -> rewardsNonneg (updateChallengeProgress type amount prev).
Proof.
  unfold rewardsNonneg, updateChallengeProgress. cbn [dailyChallenges].
  intros Hr. apply Forall_forall. intros c' Hc'. apply in_map_iff in Hc'.
  destruct Hc' as (c & <- & Hc).
  pose proof (proj1 (Forall_forall _ _) Hr c Hc) as Hle. cbv beta in Hle.
  destruct (ChallengeType_eqb (dc_type c) type && negb (completed c)); [|exact Hle].
  destruct ((target c <=? progress c + amount)%Z && negb (completed c));
    simpl; exact Hle.
Qed.

Lemma generateDailyChallenges_rewards (shuffled : list ChallengeTemplate) :
  Permutation challenges shuffled ->
  Forall (fun c => (0 <= reward c)%Z) (generateDailyChallenges shuffled).
Proof.
  intros Hp. unfold generateDailyChallenges.
  assert (Ht : Forall (fun t => (0 <= ct_reward t)%Z) shuffled).
  { apply (Permutation_Forall Hp). unfold challenges.
    repeat (apply Forall_cons; [simpl; lia|]). apply Forall_nil. }
  apply Forall_forall. intros c Hc. apply in_map_iff in Hc.
  destruct Hc as (t & <- & Hin). simpl.
  apply (proj1 (Forall_forall _ _) (Forall_firstn _ _ Ht 3%nat) t Hin).
Qed.

Lemma purchaseUpgrade_bank (upgradeId : string) (prev : PlayerProgress) :
  (0 <= totalCoins prev)%Z -> (0 <= totalCoins (purchaseUpgrade upgradeId prev))%Z.
Proof.
  intros H. unfold purchaseUpgrade.
  destruct (find _ _) as [u|]; [|exact H].
  destruct (maxLevel u <=? currentLevel u)%Z; [exact H|].
  destruct (Z.ltb_spec (totalCoins prev) (su_cost u * (currentLevel u + 1)));
    [exact H | simpl; lia].
Qed.

Lemma purchaseOutfit_bank (outfitId : string) (prev : PlayerProgress) :
  (0 <= totalCoins prev)%Z -> (0 <= totalCoins (purchaseOutfit outfitId prev))%Z.
Proof.
  intros H. unfold purchaseOutfit.
  destruct (find _ _) as [o|]; [|exact H].
  destruct (unlocked o); [exact H|]. cbn [orb].
  destruct (Z.ltb_spec (totalCoins prev) (po_cost o)); [exact H | simpl; lia].
Qed.

Lemma frame_counters (gameState : GameState) (player : Player)
    (obstacles : list Obstacle) (projectiles : list Projectile)
    (coinsPrev : list Coin) (powerUpsPrev : list PowerUp) (prev : GameState) :
  (score prev
   <= score (gameLoop_gameState gameState player obstacles projectiles
               coinsPrev powerUpsPrev prev))%Z
  /\ (coins prev
      <= coins (gameLoop_gameState gameState player obstacles projectiles
                  coinsPrev powerUpsPrev prev))%Z.
Proof.
  unfold gameLoop_gameState. destruct (gameLoopRuns gameState); [|lia].
  apply applyUpdaters_grows. unfold gameLoopUpdaters.
  apply Forall_app; split; [apply collisionDeductions_grows|].
  apply Forall_app; split; [grows_single|].
  apply Forall_app; split; [destruct (Rleb _ _); grows_single|].
  apply pickups_grow.
Qed.

Lemma handle_bank (e : Event) (w w2 : World) :
  (forall shuffled, shuffleOf e = Some shuffled -> Permutation challenges shuffled) ->
  handle e w = Some w2 ->
  bankInvariant w -> bankInvariant w2.
Proof.
  intros Hsh Hh (Hb & Hc & Hs & Hr & Ht). destruct e; simpl in Hh.
  - injection Hh as <-. unfold bankInvariant.
    cbn [w_playerProgress w_gameState w_gameOverTimer].
    destruct (frame_counters (w_gameState w) player obstacles projectiles
                coinsPrev powerUpsPrev (w_gameState w)) as [Hs' Hc'].
    split.
    { unfold gameLoop_playerProgress. destruct (_ && _); simpl; lia. }
    split; [lia|]. split; [lia|]. split; [|exact Ht].
    unfold rewardsNonneg, gameLoop_playerProgress. destruct (_ && _); exact Hr.
  - destruct (w_gameOverTimer w) as [t|]; [|discriminate].
    injection Hh as <-. destruct Ht as [Htc Htr]. unfold bankInvariant.
    cbn [timerCallback w_playerProgress w_gameState w_gameOverTimer].
    split.
    { pose proof (challengeRewards_nonneg (closureGameState t) (closureProgress t) Htr).
      simpl. lia. }
    split; [exact Hc|]. split; [exact Hs|]. split; [|exact I].
    unfold handleGameOver, rewardsNonneg. cbn [dailyChallenges].
    repeat apply updateChallengeProgress_rewards. exact Hr.
  - destruct (isPlaying (w_gameState w)); [discriminate|].
    injection Hh as <-. unfold bankInvariant. simpl.
    split; [exact Hb|]. split; [lia|]. split; [lia|]. split; [exact Hr | exact I].
  - destruct (isPlaying (w_gameState w)); [|discriminate].
    injection Hh as <-. unfold bankInvariant. simpl.
    split; [exact Hb|]. split; [exact Hc|]. split; [exact Hs|].
    split; [exact Hr | exact Ht].
  - injection Hh as <-. unfold bankInvariant.
    cbn [w_playerProgress w_gameState w_gameOverTimer].
    split; [apply purchaseUpgrade_bank; exact Hb|].
    split; [exact Hc|]. split; [exact Hs|]. split; [|exact Ht].
    unfold rewardsNonneg.
    rewrite (proj1 (purchaseUpgrade_challenges upgradeId (w_playerProgress w))).
    exact Hr.
  - injection Hh as <-. unfold bankInvariant.
    cbn [w_playerProgress w_gameState w_gameOverTimer].
    split; [apply purchaseOutfit_bank; exact Hb|].
    split; [exact Hc|]. split; [exact Hs|]. split; [|exact Ht].
    unfold rewardsNonneg.
    rewrite (proj1 (purchaseOutfit_challenges outfitId (w_playerProgress w))).
    exact Hr.
  - injection Hh as <-. unfold bankInvariant. simpl.
    split; [exact Hb|]. split; [exact Hc|]. split; [exact Hs|].
    split; [exact Hr | exact Ht].
  - injection Hh as <-. unfold bankInvariant.
    cbn [w_playerProgress w_gameState w_gameOverTimer initialGameState coins score].
    split; [exact Hb|]. split; [lia|]. split; [lia|]. split; [|exact I].
    unfold rewardsNonneg, initialPlayerProgress, storeProgress.
    cbn [st_lastChallengeReset st_dailyChallenges dailyChallenges].
    destruct (negb _); [|exact Hr].
    apply generateDailyChallenges_rewards. apply Hsh. reflexivity.
Qed.

Lemma graceTimerEffect_bank (w : World) :
  bankInvariant w -> bankInvariant (graceTimerEffect w).
Proof.
  intros (Hb & Hc & Hs & Hr & Ht). unfold graceTimerEffect.
  destruct (_ && _); unfold bankInvariant; simpl; auto 10.
Qed.

Lemma played_bank (w : World) : Played w -> bankInvariant w.
Proof.
  induction 1 as [today shuffled mobile seed c Hp | w e w' _ IH Hsh Hs].
  - unfold bankInvariant, freshWorld. simpl.
    split; [lia|]. split; [lia|]. split; [lia|]. split; [|exact I].
    apply generateDailyChallenges_rewards. exact Hp.
  - unfold step in Hs. destruct (eventDelay e) as [dt|].
    + destruct (elapse dt w) as [w1|] eqn:E1; [|discriminate].
      destruct (handle e w1) as [w2|] eqn:E2; [|discriminate].
      injection Hs as <-. apply graceTimerEffect_bank.
      apply (handle_bank e w1 w2 Hsh E2).
      destruct (elapse_fields dt w w1 E1) as (Hp1 & Hg1 & Ht1 & _).
      unfold bankInvariant. rewrite Hp1, Hg1, Ht1. exact IH.
    + destruct (handle e w) as [w2|] eqn:E2; [|discriminate].
      injection Hs as <-. apply graceTimerEffect_bank.
      exact (handle_bank e w w2 Hsh E2 IH).
Qed.

Lemma atFloor_played : Played atFloor.
Proof.
  eapply Played_step; [| |exact step_second_hit]; [|discriminate].
  eapply Played_step; [| |exact step_first_hit]; [|discriminate].
  eapply Played_step; [| |exact step_start]; [|discriminate].
  apply Played_fresh. apply Permutation_refl.
Qed.

(** X16.  The bank is never negative, and neither are the score and the
    coins of the run, in any state the game reaches from a first visit. *)
Theorem bank_never_negative (w : World) :
  Played w ->
  (0 <= totalCoins (w_playerProgress w))%Z
  /\ (0 <= coins (w_gameState w))%Z
  /\ (0 <= score (w_gameState w))%Z.
Proof.
  intros Hp. destruct (played_bank w Hp) as (Hb & Hc & Hs & _). auto.
Qed.

(** X16 on the first run at one life. *)
Lemma bank_never_negative_witness :
  (0 <= totalCoins (w_playerProgress atFloor))%Z
  /\ (0 <= coins (w_gameState atFloor))%Z
  /\ (0 <= score (w_gameState atFloor))%Z.
Proof. exact (bank_never_negative atFloor atFloor_played). Defined.

(** ** Upgrades and the start of a run *)

(** A purchase on the four upgrades of the source yields the four upgrades
    again, within their maxima. *)
Lemma purchaseUpgrade_levels (upgradeId : string) (prev : PlayerProgress)
    (hull sails compass crew : Z) :
  shipUpgrades prev = upgradesAtLevels hull sails compass crew ->
  (0 <= hull <= 3)%Z -> (0 <= sails <= 3)%Z ->
  (0 <= compass <= 3)%Z -> (0 <= crew <= 2)%Z ->
  exists hull' sails' compass' crew',
    shipUpgrades (purchaseUpgrade upgradeId prev)
    = upgradesAtLevels hull' sails' compass' crew'
    /\ (0 <= hull' <= 3)%Z /\ (0 <= sails' <= 3)%Z
    /\ (0 <= compass' <= 3)%Z /\ (0 <= crew' <= 2)%Z.
Proof.
  intros E Hh Hs Hc Hk.
  assert (Hsame : exists hull' sails' compass' crew',
             shipUpgrades prev = upgradesAtLevels hull' sails' compass' crew'
             /\ (0 <= hull' <= 3)%Z /\ (0 <= sails' <= 3)%Z
             /\ (0 <= compass' <= 3)%Z /\ (0 <= crew' <= 2)%Z)
    by (exists hull, sails, compass, crew; auto).
  unfold purchaseUpgrade. rewrite E. unfold upgradesAtLevels at 1.
  cbn [find su_id].
  destruct (String.eqb_spec "hull" upgradeId) as [<-|_].
  { cbn [maxLevel currentLevel su_cost].
    destruct (Z.leb_spec 3 hull); [exact Hsame|].
    destruct (totalCoins prev <? 50 * (hull + 1))%Z; [exact Hsame|].
    exists (hull + 1)%Z, sails, compass, crew. cbn. repeat split; lia. }
  destruct (String.eqb_spec "sails" upgradeId) as [<-|_].
  { cbn [maxLevel currentLevel su_cost].
    destruct (Z.leb_spec 3 sails); [exact Hsame|].
    destruct (totalCoins prev <? 75 * (sails + 1))%Z; [exact Hsame|].
    exists hull, (sails + 1)%Z, compass, crew. cbn. repeat split; lia. }
  destruct (String.eqb_spec "compass" upgradeId) as [<-|_].
  { cbn [maxLevel currentLevel su_cost].
    destruct (Z.leb_spec 3 compass); [exact Hsame|].
    destruct (totalCoins prev <? 100 * (compass + 1))%Z; [exact Hsame|].
    exists hull, sails, (compass + 1)%Z, crew. cbn. repeat split; lia. }
  destruct (String.eqb_spec "crew" upgradeId) as [<-|_].
  { cbn [maxLevel currentLevel su_cost].
    destruct (Z.leb_spec 2 crew); [exact Hsame|].
    destruct (totalCoins prev <? 150 * (crew + 1))%Z; [exact Hsame|].
    exists hull, sails, compass, (crew + 1)%Z. cbn. repeat split; lia. }
  exact Hsame.
Qed.

Lemma reachable_levels (w : World) :
  Reachable w ->
  exists hull sails compass crew,
    shipUpgrades (w_playerProgress w) = upgradesAtLevels hull sails compass crew
    /\ (0 <= hull <= 3)%Z /\ (0 <= sails <= 3)%Z
    /\ (0 <= compass <= 3)%Z /\ (0 <= crew <= 2)%Z.
Proof.
  induction 1 as [today shuffled mobile seed c | w e w' _ IH Hs].
  - exists 0%Z, 0%Z, 0%Z, 0%Z. split; [reflexivity|]. lia.
  - destruct IH as (hull & sails & compass & crew & E & Hh & Hsl & Hc & Hk).
    destruct (step_inv w w' e Hs) as (w1 & w2 & Hp & _ & _ & Hh2 & ->).
    rewrite graceTimerEffect_progress.
    destruct (handle_upgrades e w1 w2 Hh2) as [E2|[upgradeId E2]]; rewrite E2.
    + rewrite Hp. exists hull, sails, compass, crew. auto.
    + apply (purchaseUpgrade_levels upgradeId (w_playerProgress w1)
               hull sails compass crew); auto.
      rewrite Hp. exact E.
Qed.

Lemma calculateShipBoosts_all_levels (hull sails compass crew : Z) :
  calculateShipBoosts (upgradesAtLevels hull sails compass crew)
  = mkShipBoosts (1 + IZR sails * 0.2) (IZR crew) (IZR compass * 20) (IZR hull).
Proof.
  unfold calculateShipBoosts, upgradesAtLevels; simpl. f_equal; lra.
Qed.

(** X17.  In every state the game reaches, the upgrades are the four of the
    source with hull, sails and compass at levels 0 to 3 and crew at 0 to
    2; so a run always starts with 3 to 8 lives, a speed of 1 to 1.6 times
    the base speed and a magnet range of 50 to 110. *)
Theorem run_start_bounds (w : World) (mobile : bool) (newLevelSeed : Z)
    (catchphrase : string) :
  Reachable w ->
  (exists hull sails compass crew,
      shipUpgrades (w_playerProgress w) = upgradesAtLevels hull sails compass crew
      /\ (0 <= hull <= 3)%Z /\ (0 <= sails <= 3)%Z
      /\ (0 <= compass <= 3)%Z /\ (0 <= crew <= 2)%Z)
  /\ 3 <= lives (startGame (w_playerProgress w) mobile newLevelSeed catchphrase) <= 8
  /\ getMobileSpeed mobile
     <= gameSpeed (startGame (w_playerProgress w) mobile newLevelSeed catchphrase)
     <= 1.6 * getMobileSpeed mobile
  /\ 50 <= magnetRange (startGame (w_playerProgress w) mobile newLevelSeed catchphrase)
     <= 110.
Proof.
  intros Hr.
  destruct (reachable_levels w Hr)
    as (hull & sails & compass & crew & E & Hh & Hs & Hc & Hk).
  split; [exists hull, sails, compass, crew; auto|].
  unfold startGame, magnetRange. cbn [lives gameSpeed shipBoosts].
  rewrite E, calculateShipBoosts_all_levels.
  cbn [startingLives extraLives speedMultiplier coinMagnetRange].
  assert (Bh : 0 <= IZR hull <= 3) by (split; apply IZR_le; lia).
  assert (Bs : 0 <= IZR sails <= 3) by (split; apply IZR_le; lia).
  assert (Bc : 0 <= IZR compass <= 3) by (split; apply IZR_le; lia).
  assert (Bk : 0 <= IZR crew <= 2) by (split; apply IZR_le; lia).
  assert (Hsp : 0 < getMobileSpeed mobile)
    by (unfold getMobileSpeed, GAME_SPEED; destruct mobile; lra).
  rewrite Rmax_above by lra.
  repeat split; try lra; nra.
Qed.

(** X17 on the first run at one life. *)
Lemma run_start_bounds_witness :
  3 <= lives (startGame (w_playerProgress atFloor) false 1 "") <= 8.
Proof.
  exact (proj1 (proj2 (run_start_bounds atFloor false 1 "" atFloor_reachable))).
Defined.

(** X18.  An extra life can cost lives.  With hull and crew levels adding
    up to 3 or more a run starts with more than 5 lives, and the pick-up
    of an extra life then sets the lives to 5. *)
Theorem extraLife_lowers_boosted_lives (bank hull sails compass crew : Z)
    (mobile : bool) (newLevelSeed : Z) (catchphrase : string) :
  (0 <= hull)%Z -> (0 <= crew)%Z -> (3 <= hull + crew)%Z ->
  lives (extraLife
           (startGame (profileWith bank (upgradesAtLevels hull sails compass crew))
              mobile newLevelSeed catchphrase)) = 5
  /\ lives (extraLife
              (startGame (profileWith bank (upgradesAtLevels hull sails compass crew))
                 mobile newLevelSeed catchphrase))
     < lives (startGame (profileWith bank (upgradesAtLevels hull sails compass crew))
                mobile newLevelSeed catchphrase).
Proof.
  intros Hh Hk Hsum.
  assert (El : lives (startGame (profileWith bank (upgradesAtLevels hull sails compass crew))
                        mobile newLevelSeed catchphrase) = 3 + IZR hull + IZR crew).
  { unfold startGame, profileWith. cbn [shipUpgrades lives].
    destruct (calculateShipBoosts_levels hull sails compass crew) as [-> ->].
    apply Rmax_above. apply IZR_le in Hh, Hk. lra. }
  assert (Hb : 3 <= IZR hull + IZR crew)
    by (rewrite <- plus_IZR; apply IZR_le; exact Hsum).
  cbn [extraLife lives] in *. rewrite El.
  unfold Rmin. destruct (Rle_dec (3 + IZR hull + IZR crew + 1) 5); lra.
Qed.

(** X18 with every upgrade at its maximum: 8 lives become 5. *)
Lemma extraLife_lowers_boosted_lives_witness :
  lives (extraLife (startGame (profileWith 0 (upgradesAtLevels 3 3 3 2)) false 0 ""))
  = 5.
Proof.
  apply (proj1 (extraLife_lowers_boosted_lives 0 3 3 3 2 false 0 ""
                  ltac:(lia) ltac:(lia) ltac:(lia))).
Defined.

(** ** The saved profile *)

(** X19.  Saving and loading a profile on the day of its last challenge
    reset gives the profile back.  On another day only the challenges and
    the reset date differ: the challenges are generated anew and the date
    is the day of loading. *)
Theorem saved_profile_round_trip (p : PlayerProgress) (today : string)
    (shuffled : list ChallengeTemplate) :
  (today = lastChallengeReset p ->
   initialPlayerProgress (Some (storeProgress p)) today shuffled = p)
  /\ (today <> lastChallengeReset p ->
      initialPlayerProgress (Some (storeProgress p)) today shuffled
      = mkPlayerProgress (totalCoins p) (shipUpgrades p) (gamesPlayed p)
          (bestScore p) (generateDailyChallenges shuffled) today
          (pirateOutfits p) (selectedOutfit p) (totalEnemiesDefeated p)
          (totalSurvivalTime p)).
Proof.
  destruct p as [tc su gp bs dc lr po so te ts].
  unfold initialPlayerProgress, storeProgress. cbn.
  split; intros H.
  - subst today. rewrite String.eqb_refl. reflexivity.
  - destruct (String.eqb_spec lr today) as [E|E]; [congruence | reflexivity].
Qed.

(** X19 on the profile of the first visit. *)
Lemma saved_profile_round_trip_witness :
  initialPlayerProgress (Some (storeProgress firstProfile)) "Mon Nov 02 2026"
    enemiesFirst = firstProfile.
Proof.
  apply (proj1 (saved_profile_round_trip firstProfile "Mon Nov 02 2026" enemiesFirst)).
  reflexivity.
Defined.

(** ** Daily challenges *)

Lemma NoDup_firstn {A : Type} (l : list A) :
  NoDup l -> forall k, NoDup (firstn k l).
Proof.
  induction 1 as [|a l Ha _ IH]; intros [|k]; simpl; try constructor.
  - intros Hin. apply Ha.
    rewrite <- (firstn_skipn k l). apply in_or_app. left. exact Hin.
  - apply IH.
Qed.

(** X20.  When the shuffle returns a rearrangement of the five challenges,
    the challenges of the day are three, carry three different
    identifiers, and each starts at progress 0, not completed, with the
    target, reward and type of a challenge of the source. *)
Theorem daily_challenges_are_three (shuffled : list ChallengeTemplate) :
  Permutation challenges shuffled ->
  List.length (generateDailyChallenges shuffled) = 3%nat
  /\ NoDup (map dc_id (generateDailyChallenges shuffled))
  /\ forall c, In c (generateDailyChallenges shuffled) ->
       progress c = 0%Z /\ completed c = false
       /\ exists t, In t challenges /\ dc_id c = ct_id t /\ target c = ct_target t
                    /\ reward c = ct_reward t /\ dc_type c = ct_type t.
Proof.
  intros Hp. unfold generateDailyChallenges. split; [|split].
  - rewrite length_map, length_firstn.
    rewrite <- (Permutation_length Hp). reflexivity.
  - rewrite map_map. cbn [dc_id].
    change (map (fun x => ct_id x) (firstn 3 shuffled))
      with (map ct_id (firstn 3 shuffled)).
    rewrite <- firstn_map. apply NoDup_firstn.
    apply (Permutation_NoDup (Permutation_map ct_id Hp)).
    unfold challenges; simpl.
    repeat (apply NoDup_cons; [simpl; intuition discriminate|]). apply NoDup_nil.
  - intros c Hc. apply in_map_iff in Hc. destruct Hc as (t & <- & Ht).
    split; [reflexivity|]. split; [reflexivity|].
    exists t. split; [|repeat split; reflexivity].
    apply (Permutation_in _ (Permutation_sym Hp)).
    rewrite <- (firstn_skipn 3 shuffled). apply in_or_app. left. exact Ht.
Qed.

(** X20 on the shuffle that puts "Defeat 10 enemies" first. *)
Lemma daily_challenges_are_three_witness :
  List.length (generateDailyChallenges enemiesFirst) = 3%nat.
Proof.
  assert (Hp : Permutation challenges enemiesFirst).
  { unfold challenges, enemiesFirst.
    apply Permutation_sym.
    apply (Permutation_trans (perm_swap _ _ _)). apply perm_skip.
    apply (Permutation_trans (perm_swap _ _ _)). apply perm_skip.
    apply (Permutation_trans (perm_swap _ _ _)). apply Permutation_refl. }
  exact (proj1 (daily_challenges_are_three enemiesFirst Hp)).
Defined.

(** ** Challenges across runs *)

Lemma update_other_type (type : ChallengeType) (amount : Z)
    (prev : PlayerProgress) (c : DailyChallenge) :
  In c (dailyChallenges prev) ->
  dc_type c <> type \/ completed c = true ->
  In c (dailyChallenges (updateChallengeProgress type amount prev)).
Proof.
  intros Hin Hskip. unfold updateChallengeProgress. cbn [dailyChallenges].
  apply in_map_iff. exists c. split; [|exact Hin].
  destruct Hskip as [Ht|Hc].
  - destruct (ChallengeType_eqb (dc_type c) type) eqn:E; [|reflexivity].
    exfalso. apply Ht. destruct (dc_type c), type; simpl in E; congruence.
  - rewrite Hc. cbn [negb]. rewrite andb_false_r. reflexivity.
Qed.

Lemma ChallengeType_eqb_refl (t : ChallengeType) : ChallengeType_eqb t t = true.
Proof. destruct t; reflexivity. Qed.

Lemma update_completes (type : ChallengeType) (amount : Z)
    (prev : PlayerProgress) (c : DailyChallenge) :
  In c (dailyChallenges prev) ->
  dc_type c = type ->
  completed c = false ->
  (target c <= progress c + amount)%Z ->
  In (completedBy amount c)
     (dailyChallenges (updateChallengeProgress type amount prev)).
Proof.
  intros Hin Et Hc Ht. subst type.
  unfold updateChallengeProgress. cbn [dailyChallenges].
  apply in_map_iff. exists c. split; [|exact Hin].
  rewrite ChallengeType_eqb_refl, Hc. cbn [negb andb].
  destruct (Z.leb_spec (target c) (progress c + amount)); [reflexivity | lia].
Qed.

(** X21.  A challenge can be completed without ever paying its reward.
    Progress accumulates over runs, but the reward is paid only when the
    amount of the finishing run alone reaches the target: if a run brings
    an open challenge to its target with an amount below the target,
    [handleGameOver] marks it completed and pays nothing for it, and a
    completed challenge is never among the rewarded ones again. *)
Theorem challenge_completed_without_reward (gameState : GameState)
    (prev : PlayerProgress) (c : DailyChallenge) :
  In c (dailyChallenges prev) ->
  completed c = false ->
  dc_type c <> ChEnemies ->
  (runAmount gameState (dc_type c) < target c)%Z ->
  (target c <= progress c + runAmount gameState (dc_type c))%Z ->
  In (completedBy (runAmount gameState (dc_type c)) c)
     (dailyChallenges (handleGameOver gameState prev prev))
  /\ ~ In c (completedChallenges gameState prev)
  /\ (forall gameState' playerProgress' c',
         completed c' = true ->
         ~ In c' (completedChallenges gameState' playerProgress')).
Proof.
  intros Hin Hc Hne Hlt Hge. split; [|split].
  - unfold handleGameOver. cbn [dailyChallenges].
    destruct (dc_type c) eqn:Et; [| | |contradiction]; cbn [runAmount] in *.
    + apply update_other_type; [|right; reflexivity].
      apply update_completes; try assumption.
      apply update_other_type; [exact Hin | left; rewrite Et; discriminate].
    + apply update_other_type; [|right; reflexivity].
      apply update_other_type; [|right; reflexivity].
      apply update_completes; assumption.
    + apply update_completes; try assumption.
      apply update_other_type; [|left; rewrite Et; discriminate].
      apply update_other_type; [exact Hin | left; rewrite Et; discriminate].
  - unfold completedChallenges. intros Hf. apply filter_In in Hf.
    destruct Hf as [_ Hf]. rewrite Hc in Hf. cbn [negb andb] in Hf.
    destruct (dc_type c); simpl in Hf, Hlt; try contradiction;
      rewrite ?orb_false_r in Hf; apply Z.leb_le in Hf; lia.
  - intros gs' p' c' Hc' Hf. unfold completedChallenges in Hf.
    apply filter_In in Hf. destruct Hf as [_ Hf]. rewrite Hc' in Hf. discriminate.
Qed.

(** X21 on a score challenge at 600 of 1000 and a run ending at 500. *)
Lemma challenge_completed_without_reward_witness :
  In (completedBy (runAmount runOf500 (dc_type scoreChallengeAt600))
        scoreChallengeAt600)
     (dailyChallenges (handleGameOver runOf500 profileAt600 profileAt600))
  /\ ~ In scoreChallengeAt600 (completedChallenges runOf500 profileAt600).
Proof.
  destruct (challenge_completed_without_reward runOf500 profileAt600
              scoreChallengeAt600) as (H1 & H2 & _).
  - left. reflexivity.
  - reflexivity.
  - discriminate.
  - simpl. lia.
  - simpl. lia.
  - split; [exact H1 | exact H2].
Defined.

(** X22.  A completed challenge is frozen: no event other than a reload on
    a new day changes it, whatever its type. *)
Theorem completed_challenge_is_frozen (w w' : World) (e : Event)
    (c : DailyChallenge) :
  step w e = Some w' ->
  shuffleOf e = None ->
  In c (dailyChallenges (w_playerProgress w)) ->
  completed c = true ->
  In c (dailyChallenges (w_playerProgress w')).
Proof.
  intros Hs Hsh Hin Hc.
  destruct (step_inv w w' e Hs) as (w1 & w2 & Hp & _ & _ & Hh & ->).
  rewrite graceTimerEffect_progress. rewrite <- Hp in Hin.
  destruct e; simpl in Hh; try discriminate Hsh.
  - injection Hh as <-. cbn [w_playerProgress].
    rewrite (proj1 (gameLoop_playerProgress_challenges _ _)). exact Hin.
  - destruct (w_gameOverTimer w1) as [t|]; [|discriminate].
    injection Hh as <-. cbn [timerCallback w_playerProgress].
    unfold handleGameOver. cbn [dailyChallenges].
    repeat (apply update_other_type; [|right; exact Hc]). exact Hin.
  - destruct (isPlaying (w_gameState w1)); [discriminate|].
    injection Hh as <-. exact Hin.
  - destruct (isPlaying (w_gameState w1)); [|discriminate].
    injection Hh as <-. exact Hin.
  - injection Hh as <-. cbn [w_playerProgress].
    rewrite (proj1 (purchaseUpgrade_challenges _ _)). exact Hin.
  - injection Hh as <-. cbn [w_playerProgress].
    rewrite (proj1 (purchaseOutfit_challenges _ _)). exact Hin.
  - injection Hh as <-. exact Hin.
Qed.

(** X22 on the challenge completed by the run of 500: the end of a second
    such run leaves it as it is. *)
Lemma completed_challenge_is_frozen_witness :
  In (completedBy 500 scoreChallengeAt600)
     (dailyChallenges
        (w_playerProgress
           (timerCallback
              (mkTimer 2000 runOf500
                 (handleGameOver runOf500 profileAt600 profileAt600))
              "Arrr"
              (mkWorld 0 runOf500
                 (handleGameOver runOf500 profileAt600 profileAt600)
                 (Some (mkTimer 2000 runOf500
                          (handleGameOver runOf500 profileAt600 profileAt600))))))).
Proof.
  apply (completed_challenge_is_frozen
           (mkWorld 0 runOf500
              (handleGameOver runOf500 profileAt600 profileAt600)
              (Some (mkTimer 2000 runOf500
                       (handleGameOver runOf500 profileAt600 profileAt600))))
           _ (TimerExpires "Arrr")).
  - unfold step. cbn [eventDelay handle w_gameOverTimer].
    rewrite graceTimerEffect_stopped; reflexivity.
  - reflexivity.
  - left. reflexivity.
  - reflexivity.
Defined.

(** ** Outfits *)

Lemma find_unlocked (outfitId : string) (outfits : list PirateOutfit)
    (outfit : PirateOutfit) :
  find (fun o => String.eqb (po_id o) outfitId) outfits = Some outfit ->
  exists outfit',
    find (fun o => String.eqb (po_id o) outfitId)
      (map (fun o =>
              if String.eqb (po_id o) outfitId then
                mkPirateOutfit (po_id o) (po_name o) (po_description o)
                  (po_cost o) true (parts o)
              else o) outfits) = Some outfit'
    /\ unlocked outfit' = true.
Proof.
  induction outfits as [|o rest IH]; intros Hf; simpl in Hf; [discriminate|].
  cbn [map find].
  destruct (String.eqb (po_id o) outfitId) eqn:E.
  - cbn [po_id]. rewrite E. eexists. split; reflexivity.
  - rewrite E. apply IH. exact Hf.
Qed.

(** X23.  An outfit is paid for once: buying the same outfit a second time
    changes nothing, an outfit that is unlocked stays as it is under any
    purchase, and where identifiers are distinct a locked outfit the bank
    can pay for lowers the bank by exactly its cost. *)
Theorem purchaseOutfit_pays_once (outfitId : string) (prev : PlayerProgress) :
  purchaseOutfit outfitId (purchaseOutfit outfitId prev)
  = purchaseOutfit outfitId prev
  /\ (forall o, In o (pirateOutfits prev) -> unlocked o = true ->
                In o (pirateOutfits (purchaseOutfit outfitId prev)))
  /\ (forall o, In o (pirateOutfits prev) -> po_id o = outfitId ->
                unlocked o = false -> (po_cost o <= totalCoins prev)%Z ->
                NoDup (map po_id (pirateOutfits prev)) ->
                totalCoins (purchaseOutfit outfitId prev)
                = (totalCoins prev - po_cost o)%Z).
Proof.
  split; [|split].
  - unfold purchaseOutfit at 2 3.
    destruct (find _ (pirateOutfits prev)) as [outfit|] eqn:Hf.
    + destruct (unlocked outfit || (totalCoins prev <? po_cost outfit)%Z) eqn:Hg.
      * unfold purchaseOutfit. rewrite Hf, Hg. reflexivity.
      * destruct (find_unlocked outfitId _ outfit Hf) as (outfit' & Hf' & Hu).
        unfold purchaseOutfit. cbn [pirateOutfits]. rewrite Hf', Hu. reflexivity.
    + unfold purchaseOutfit. rewrite Hf. reflexivity.
  - intros o Hin Hu. unfold purchaseOutfit.
    destruct (find _ _) as [outfit|]; [|exact Hin].
    destruct (unlocked outfit || _); [exact Hin|].
    cbn [pirateOutfits]. apply in_map_iff. exists o. split; [|exact Hin].
    destruct (String.eqb (po_id o) outfitId); [|reflexivity].
    destruct o; simpl in *. subst. reflexivity.
  - intros o Hin Hid Hu Hcost Hnd.
    assert (Hf : find (fun o0 => String.eqb (po_id o0) outfitId) (pirateOutfits prev)
                 = Some o).
    { clear Hcost Hu. induction (pirateOutfits prev) as [|o0 rest IH];
        [contradiction|].
      simpl in Hnd. inversion Hnd as [|? ? Hnot Hnd']; subst.
      simpl. destruct (String.eqb_spec (po_id o0) (po_id o)) as [E|E].
      - destruct Hin as [->|Hin]; [reflexivity|].
        exfalso. apply Hnot. rewrite E. apply in_map. exact Hin.
      - destruct Hin as [->|Hin]; [contradiction|]. apply IH; auto. }
    unfold purchaseOutfit. rewrite Hf, Hu. cbn [orb].
    destruct (Z.ltb_spec (totalCoins prev) (po_cost o)); [lia | reflexivity].
Qed.

(** X23 on the "fancy" outfit and a bank of 120. *)
Lemma purchaseOutfit_pays_once_witness :
  totalCoins (purchaseOutfit "fancy" (profileWith 120 defaultShipUpgrades))
  = (120 - 100)%Z.
Proof.
  apply (proj2 (proj2 (purchaseOutfit_pays_once "fancy"
                         (profileWith 120 defaultShipUpgrades)))
           (mkPirateOutfit "fancy" "Fancy Captain" "For the distinguished pirate"
              100 false
              (mkOutfitParts (Some "feathered") (Some "white") (Some "blue")
                 (Some "telescope"))%string)).
  - right. left. reflexivity.
  - reflexivity.
  - reflexivity.
  - simpl. lia.
  - simpl. repeat (apply NoDup_cons; [simpl; intuition discriminate|]).
    apply NoDup_nil.
Defined.

(** ** Boosts *)

Lemma calculateShipBoosts_from (upgrades : list ShipUpgrade) :
  forall boosts,
    fold_left
      (fun boosts upgrade =>
         let effectValue := IZR (currentLevel upgrade) * eff_value (effect upgrade) in
         match eff_type (effect upgrade) with
         | EffSpeed =>
             mkShipBoosts (speedMultiplier boosts + effectValue) (extraLives boosts)
               (coinMagnetRange boosts) (startingLives boosts)
         | EffLives =>
             mkShipBoosts (speedMultiplier boosts) (extraLives boosts + effectValue)
               (coinMagnetRange boosts) (startingLives boosts)
         | EffCoinMagnet =>
             mkShipBoosts (speedMultiplier boosts) (extraLives boosts)
               (coinMagnetRange boosts + effectValue) (startingLives boosts)
         | EffStartingLives =>
             mkShipBoosts (speedMultiplier boosts) (extraLives boosts)
               (coinMagnetRange boosts) (startingLives boosts + effectValue)
         end)
      upgrades boosts
    = mkShipBoosts (speedMultiplier boosts + boostOf EffSpeed upgrades)
        (extraLives boosts + boostOf EffLives upgrades)
        (coinMagnetRange boosts + boostOf EffCoinMagnet upgrades)
        (startingLives boosts + boostOf EffStartingLives upgrades).
Proof.
  induction upgrades as [|u rest IH]; intros boosts.
  - destruct boosts. simpl. f_equal; lra.
  - cbn [fold_left]. rewrite IH. cbn [boostOf fold_right].
    fold (boostOf EffSpeed rest). fold (boostOf EffLives rest).
    fold (boostOf EffCoinMagnet rest). fold (boostOf EffStartingLives rest).
    destruct (eff_type (effect u)); simpl; f_equal; lra.
Qed.

Lemma boostOf_perm (type : EffectType) (upgrades upgrades' : list ShipUpgrade) :
  Permutation upgrades upgrades' -> boostOf type upgrades = boostOf type upgrades'.
Proof.
  unfold boostOf.
  induction 1 as [|u l l' _ IH|u v l|l l' l'' _ IH1 _ IH2]; simpl.
  - reflexivity.
  - rewrite IH. reflexivity.
  - lra.
  - rewrite IH1. exact IH2.
Qed.

(** X24.  The boosts are sums over the upgrades: each upgrade adds its
    level times its value to the boost of its effect type and to no other,
    starting from a speed multiplier of 1 and 0 elsewhere; so the boosts do
    not depend on the order of the upgrades. *)
Theorem calculateShipBoosts_sums (upgrades : list ShipUpgrade) :
  calculateShipBoosts upgrades
  = mkShipBoosts (1 + boostOf EffSpeed upgrades) (0 + boostOf EffLives upgrades)
      (0 + boostOf EffCoinMagnet upgrades)
      (0 + boostOf EffStartingLives upgrades)
  /\ forall upgrades',
       Permutation upgrades upgrades' ->
       calculateShipBoosts upgrades' = calculateShipBoosts upgrades.
Proof.
  assert (Hsum : forall ups,
             calculateShipBoosts ups
             = mkShipBoosts (1 + boostOf EffSpeed ups) (0 + boostOf EffLives ups)
                 (0 + boostOf EffCoinMagnet ups)
                 (0 + boostOf EffStartingLives ups)).
  { intros ups. unfold calculateShipBoosts.
    rewrite calculateShipBoosts_from. reflexivity. }
  split; [apply Hsum|].
  intros upgrades' Hp. rewrite !Hsum.
  rewrite !(boostOf_perm _ _ _ Hp). reflexivity.
Qed.

(** X24 on the four upgrades listed crew first. *)
Lemma calculateShipBoosts_sums_witness :
  calculateShipBoosts
    (mkShipUpgrade "crew" "Lucky Crew" "Extra life during gameplay" 150 2 2
       (mkEffect EffLives 1)
     :: mkShipUpgrade "hull" "Reinforced Hull" "Start with extra lives" 50 3 3
          (mkEffect EffStartingLives 1) :: [])
  = calculateShipBoosts
      (mkShipUpgrade "hull" "Reinforced Hull" "Start with extra lives" 50 3 3
         (mkEffect EffStartingLives 1)
       :: mkShipUpgrade "crew" "Lucky Crew" "Extra life during gameplay" 150 2 2
            (mkEffect EffLives 1) :: []).
Proof.
  apply (proj2 (calculateShipBoosts_sums _)). apply perm_swap.
Defined.

(** ** The selector's result *)

(** X25.  The selector returns a type that has a weight in the
    distribution whenever ["crab"] has one, as in the six patterns of the
    source and everything the generator derives from them. *)
Theorem selectObstacleType_is_key (weights : Weights) (rand : R) :
  In Crab (map fst weights) ->
  In (selectObstacleType weights rand) (map fst weights).
Proof.
  intros Hcrab. unfold selectObstacleType.
  destruct (scanWeights_cases rand weights 0 Crab)
    as [(k & t & w & Hnth & _ & _ & ->)|[_ ->]]; [|exact Hcrab].
  apply nth_error_In in Hnth. apply (in_map fst) in Hnth. exact Hnth.
Qed.

(** X25 on the drifted distribution. *)
Lemma selectObstacleType_is_key_witness :
  In (selectObstacleType driftedWeights 0.3) (map fst driftedWeights).
Proof.
  apply selectObstacleType_is_key. simpl. auto.
Defined.
